(** * CAD-Generator: gasket geometry, validation and DXF export

    A shallow embedding of the four gasket generators of the repository
    (ellipse, flange, firetube, jumper) and the properties their
    specification states about them.

    Modelling conventions.

    - A JavaScript number is a value of [number]: [NaN], the two infinities,
      or a finite value carried as a rational in lowest terms.  Arithmetic is
      exact: the rounding and the exponent range of binary64 are not
      modelled, and the two signed zeros are one value.
    - A DOM text field is a [string]; the characters are bytes and the white
      space of the host is the ASCII white space.
    - The transcendental functions of the host ([Math.cos], [Math.sin],
      [Math.acos], [Math.atan2], [Math.hypot]) are an interface,
      [MathObject]; what a theorem needs from them is a hypothesis of that
      theorem.
    - A thrown [Error] is the [Throw] case of [result]. *)

From Stdlib Require Import ZArith QArith Qround Qabs Qreduction Lqa Lia.
From Stdlib Require Import List Bool Ascii String DecimalString.
Import ListNotations.

Set Implicit Arguments.

(* ================================================================== *)
(** * The host language *)
(* ================================================================== *)

Module JS.

(** ** Numbers *)

Inductive number : Type :=
  | NaN
  | PosInf
  | NegInf
  | Fin (q : Q).

(** Every computed finite value is kept in lowest terms, so that two equal
    numbers are the same term. *)
Definition fin (q : Q) : number := Fin (Qred q).

Definition num (z : Z) : number := Fin (inject_Z z).

Definition Qzerob (q : Q) : bool := Qeq_bool q 0.
Definition Qposb (q : Q) : bool := negb (Qle_bool q 0).
Definition Qnegb (q : Q) : bool := negb (Qle_bool 0 q).

Definition neg (x : number) : number :=
  match x with
  | NaN => NaN
  | PosInf => NegInf
  | NegInf => PosInf
  | Fin q => fin (- q)
  end.

Definition add (x y : number) : number :=
  match x, y with
  | NaN, _ | _, NaN => NaN
  | PosInf, NegInf | NegInf, PosInf => NaN
  | PosInf, _ | _, PosInf => PosInf
  | NegInf, _ | _, NegInf => NegInf
  | Fin a, Fin b => fin (a + b)
  end.

Definition sub (x y : number) : number := add x (neg y).

(** The sign of a number: [Some true] positive, [Some false] negative,
    [None] for zero and [NaN]. *)
Definition sign (x : number) : option bool :=
  match x with
  | NaN => None
  | PosInf => Some true
  | NegInf => Some false
  | Fin q => if Qzerob q then None else Some (Qposb q)
  end.

Definition signed_inf (positive : bool) : number :=
  if positive then PosInf else NegInf.

Definition mul (x y : number) : number :=
  match x, y with
  | NaN, _ | _, NaN => NaN
  | Fin a, Fin b => fin (a * b)
  | _, _ =>
      match sign x, sign y with
      | Some sx, Some sy => signed_inf (Bool.eqb sx sy)
      | _, _ => NaN
      end
  end.

Definition div (x y : number) : number :=
  match x, y with
  | NaN, _ | _, NaN => NaN
  | Fin a, Fin b =>
      if Qzerob b then
        match sign x with
        | Some s => signed_inf s
        | None => NaN
        end
      else fin (a / b)
  | Fin _, _ => Fin 0
  | _, Fin b => signed_inf (Bool.eqb (match x with PosInf => true | _ => false end)
                                     (Qle_bool 0 b))
  | _, _ => NaN
  end.

(** Truncation towards zero. *)
Definition Qtrunc (q : Q) : Z := Z.quot (Qnum q) (Zpos (Qden q)).

(** The remainder operator [%]: the sign of the result is that of the
    dividend. *)
Definition rem (x y : number) : number :=
  match x, y with
  | Fin a, Fin b =>
      if Qzerob b then NaN else fin (a - b * inject_Z (Qtrunc (a / b)))
  | Fin a, (PosInf | NegInf) => x
  | _, _ => NaN
  end.

(** Relational operators: every comparison with [NaN] is false. *)
Definition lt (x y : number) : bool :=
  match x, y with
  | NaN, _ | _, NaN => false
  | Fin a, Fin b => negb (Qle_bool b a)
  | NegInf, NegInf => false
  | NegInf, _ => true
  | _, PosInf => match x with PosInf => false | _ => true end
  | _, _ => false
  end.

Definition le (x y : number) : bool :=
  match x, y with
  | NaN, _ | _, NaN => false
  | Fin a, Fin b => Qle_bool a b
  | NegInf, _ => true
  | _, PosInf => true
  | _, _ => false
  end.

Definition gt (x y : number) : bool := lt y x.
Definition ge (x y : number) : bool := le y x.

(** Strict equality [===] on numbers. *)
Definition seq (x y : number) : bool :=
  match x, y with
  | Fin a, Fin b => Qeq_bool a b
  | PosInf, PosInf | NegInf, NegInf => true
  | _, _ => false
  end.

Definition Number_isFinite (x : number) : bool :=
  match x with Fin _ => true | _ => false end.

(** ** The rational part of [Math] *)

Definition Math_PI : number := Fin (884279719003555 # 281474976710656).

Definition Math_abs (x : number) : number :=
  match x with
  | NaN => NaN
  | PosInf | NegInf => PosInf
  | Fin q => fin (Qabs q)
  end.

Definition Math_max (x y : number) : number :=
  match x, y with
  | NaN, _ | _, NaN => NaN
  | _, _ => if le x y then y else x
  end.

Definition Math_min (x y : number) : number :=
  match x, y with
  | NaN, _ | _, NaN => NaN
  | _, _ => if le x y then x else y
  end.

Definition Math_floor (x : number) : number :=
  match x with Fin q => num (Qfloor q) | _ => x end.

Definition Math_ceil (x : number) : number :=
  match x with Fin q => num (Qceiling q) | _ => x end.

(** [Math.round] rounds to the nearest integer, a tie towards [+Infinity]. *)
Definition Math_round (x : number) : number :=
  match x with Fin q => num (Qfloor (q + (1 # 2))) | _ => x end.

(** ** The transcendental part of [Math] *)

Class MathObject : Type := {
  Math_cos : number -> number;
  Math_sin : number -> number;
  Math_acos : number -> number;
  Math_atan2 : number -> number -> number;
  Math_hypot : number -> number -> number
}.

(** ** Exceptions *)

Inductive result (A : Type) : Type :=
  | Return (a : A)
  | Throw (msg : string).

Arguments Return {A} a.
Arguments Throw {A} msg.

Definition bind {A B : Type} (r : result A) (k : A -> result B) : result B :=
  match r with
  | Return a => k a
  | Throw m => Throw m
  end.

(** ** Strings *)

Definition is_whitespace (c : ascii) : bool :=
  let n := nat_of_ascii c in
  (Nat.leb 9 n && Nat.leb n 13) || Nat.eqb n 32.

Definition is_digit (c : ascii) : bool :=
  let n := nat_of_ascii c in Nat.leb 48 n && Nat.leb n 57.

Definition is_empty (s : string) : bool :=
  match s with EmptyString => true | _ => false end.

Fixpoint rev_append (s acc : string) : string :=
  match s with
  | EmptyString => acc
  | String c s' => rev_append s' (String c acc)
  end.

Definition reverse (s : string) : string := rev_append s EmptyString.

Fixpoint trimStart (s : string) : string :=
  match s with
  | EmptyString => EmptyString
  | String c s' => if is_whitespace c then trimStart s' else s
  end.

Definition trimEnd (s : string) : string := reverse (trimStart (reverse s)).

Definition trim (s : string) : string := trimEnd (trimStart s).

(** [s.replace(/c/g, d)] for single characters [c] and [d]. *)
Fixpoint replace_char (c d : ascii) (s : string) : string :=
  match s with
  | EmptyString => EmptyString
  | String x s' => String (if Ascii.eqb x c then d else x) (replace_char c d s')
  end.

(** [s.replace(/\s+/g, " ")]: [in_run] tells that the previous character
    was white space and has already been replaced. *)
Fixpoint collapse_from (in_run : bool) (s : string) : string :=
  match s with
  | EmptyString => EmptyString
  | String x s' =>
      if is_whitespace x then
        if in_run then collapse_from true s'
        else String " "%char (collapse_from true s')
      else String x (collapse_from false s')
  end.

Definition collapse_whitespace (s : string) : string := collapse_from false s.

(** [s.split(c)] for a single character [c]. *)
Fixpoint split (c : ascii) (s : string) : list string :=
  match s with
  | EmptyString => [EmptyString]
  | String x s' =>
      if Ascii.eqb x c then EmptyString :: split c s'
      else match split c s' with
           | t :: ts => String x t :: ts
           | [] => [String x EmptyString]
           end
  end.

(** [s.includes(c)] for a single character [c]. *)
Fixpoint includes (c : ascii) (s : string) : bool :=
  match s with
  | EmptyString => false
  | String x s' => Ascii.eqb x c || includes c s'
  end.

Fixpoint span (p : ascii -> bool) (s : string) : string * string :=
  match s with
  | EmptyString => (EmptyString, EmptyString)
  | String x s' =>
      if p x then let (a, b) := span p s' in (String x a, b)
      else (EmptyString, s)
  end.

Fixpoint join (sep : string) (l : list string) : string :=
  match l with
  | [] => EmptyString
  | [x] => x
  | x :: l' => (x ++ sep ++ join sep l')%string
  end.

(** The line feed and the quotation mark, which string literals here do
    not spell. *)
Local Open Scope string_scope.

Definition LF : string := String (ascii_of_nat 10) EmptyString.
Definition QUOTE : string := String (ascii_of_nat 34) EmptyString.

(** ** String to number *)

Definition digit_value (c : ascii) : Z := (Z.of_nat (nat_of_ascii c) - 48)%Z.

(** The value of a digit in a radix up to 16, when it is one. *)
Definition radix_digit (radix : Z) (c : ascii) : option Z :=
  let n := Z.of_nat (nat_of_ascii c) in
  let v := (if (48 <=? n) && (n <=? 57) then n - 48
            else if (97 <=? n) && (n <=? 102) then n - 87
            else if (65 <=? n) && (n <=? 70) then n - 55
            else 16)%Z in
  if (v <? radix)%Z then Some v else None.

Fixpoint digits_value (acc : Z) (s : string) : Z :=
  match s with
  | EmptyString => acc
  | String c s' => digits_value (10 * acc + digit_value c)%Z s'
  end.

Fixpoint radix_value (radix acc : Z) (s : string) : option Z :=
  match s with
  | EmptyString => Some acc
  | String c s' =>
      match radix_digit radix c with
      | Some v => radix_value radix (radix * acc + v)%Z s'
      | None => None
      end
  end.

Definition pow10 (e : Z) : Q :=
  if (0 <=? e)%Z then inject_Z (10 ^ e)%Z else 1 / inject_Z (10 ^ (- e))%Z.

(** The exponent part of a decimal literal: nothing, or [e] or [E], an
    optional sign and at least one digit, up to the end of the string. *)
Definition exponent_part (s : string) : option Z :=
  match s with
  | EmptyString => Some 0%Z
  | String c r =>
      if Ascii.eqb c "e"%char || Ascii.eqb c "E"%char then
        let (negative, ds) :=
          match r with
          | String "-"%char r' => (true, r')
          | String "+"%char r' => (false, r')
          | _ => (false, r)
          end in
        let (d, rest) := span is_digit ds in
        if is_empty d || negb (is_empty rest) then None
        else Some (if negative then (- digits_value 0%Z d)%Z else digits_value 0%Z d)
      else None
  end.

(** [StrUnsignedDecimalLiteral] without [Infinity]: digits with an optional
    fraction, or a fraction alone, then an optional exponent. *)
Definition unsigned_decimal (s : string) : option Q :=
  let (ip, r1) := span is_digit s in
  let '(fp, has_dot, r2) :=
    match r1 with
    | String "."%char r => let (f, r') := span is_digit r in (f, true, r')
    | _ => (EmptyString, false, r1)
    end in
  if is_empty ip && is_empty fp then None
  else
    match exponent_part r2 with
    | None => None
    | Some e =>
        Some (inject_Z (digits_value 0%Z (ip ++ fp))
              * pow10 (e - Z.of_nat (String.length fp))%Z)
    end.

Definition radix_literal (s : string) : option Z :=
  match s with
  | String "0"%char (String p ds) =>
      let radix :=
        if Ascii.eqb p "x"%char || Ascii.eqb p "X"%char then Some 16%Z
        else if Ascii.eqb p "o"%char || Ascii.eqb p "O"%char then Some 8%Z
        else if Ascii.eqb p "b"%char || Ascii.eqb p "B"%char then Some 2%Z
        else None in
      match radix with
      | Some r => if is_empty ds then None else radix_value r 0%Z ds
      | None => None
      end
  | _ => None
  end.

Definition signed_decimal (s : string) : number :=
  let (negative, body) :=
    match s with
    | String "-"%char r => (true, r)
    | String "+"%char r => (false, r)
    | _ => (false, s)
    end in
  if String.eqb body "Infinity" then (if negative then NegInf else PosInf)
  else
    match unsigned_decimal body with
    | Some q => fin (if negative then - q else q)
    | None => NaN
    end.

(** [Number(s)] on a string: white space is trimmed, the empty string is
    [0], and anything that is not a numeric literal is [NaN]. *)
Definition Number (s : string) : number :=
  let t := trim s in
  if is_empty t then Fin 0
  else
    match radix_literal t with
    | Some z => num z
    | None => signed_decimal t
    end.

(** [parseInt(s, 10)]: leading white space, an optional sign, then the
    longest run of digits; [NaN] when there is no digit. *)
Definition parseInt (s : string) : number :=
  let t := trimStart s in
  let (negative, body) :=
    match t with
    | String "-"%char r => (true, r)
    | String "+"%char r => (false, r)
    | _ => (false, t)
    end in
  let (d, _) := span is_digit body in
  if is_empty d then NaN
  else num (if negative then (- digits_value 0%Z d)%Z else digits_value 0%Z d).

(** ** Number to string *)

Definition digits_of (z : Z) : string :=
  NilZero.string_of_uint (N.to_uint (Z.to_N z)).

Fixpoint zeros (n : nat) : string :=
  match n with O => EmptyString | S n' => String "0"%char (zeros n') end.

Fixpoint take (n : nat) (s : string) : string :=
  match n, s with
  | S n', String c s' => String c (take n' s')
  | _, _ => EmptyString
  end.

Fixpoint drop (n : nat) (s : string) : string :=
  match n, s with
  | S n', String _ s' => drop n' s'
  | _, _ => s
  end.

(** The decimal exponent [n] of a positive rational: [10^(n-1) <= q < 10^n].
    The search goes down from an upper bound on the number of digits. *)
Fixpoint exponent_from (fuel : nat) (n : Z) (q : Q) : Z :=
  match fuel with
  | O => n
  | S fuel' =>
      if Qle_bool (pow10 (n - 1)) q then n
      else exponent_from fuel' (n - 1)%Z q
  end.

Definition decimal_exponent (q : Q) : Z :=
  let hi := (Z.log2 (Qnum q) + 1)%Z in
  exponent_from (Z.to_nat hi + Pos.to_nat (Pos.size (Qden q)) + 1) hi q.

Fixpoint strip_zeros (fuel : nat) (m : Z) : Z :=
  match fuel with
  | O => m
  | S fuel' =>
      if (m mod 10 =? 0)%Z then strip_zeros fuel' (m / 10)%Z else m
  end.

(** The digits [s] and the exponent [n] of a positive rational, with the 17
    significant digits that print a double at most. *)
Definition significand (q : Q) : Z * Z :=
  let n := decimal_exponent q in
  let m := Qfloor (q * pow10 (17 - n) + (1 # 2)) in
  let (m, n) := if (10 ^ 17 <=? m)%Z then ((m / 10)%Z, (n + 1)%Z) else (m, n) in
  (strip_zeros 17 m, n).

Definition positive_toString (q : Q) : string :=
  let (s, n) := significand q in
  let ds := digits_of s in
  let k := Z.of_nat (String.length ds) in
  if (k <=? n)%Z && (n <=? 21)%Z then
    ds ++ zeros (Z.to_nat (n - k))
  else if (0 <? n)%Z && (n <=? 21)%Z then
    take (Z.to_nat n) ds ++ "." ++ drop (Z.to_nat n) ds
  else if (-6 <? n)%Z && (n <=? 0)%Z then
    "0." ++ zeros (Z.to_nat (- n)) ++ ds
  else
    let e := (n - 1)%Z in
    let es := (if (0 <=? e)%Z then "+" else "-") ++ digits_of (Z.abs e) in
    if (k =? 1)%Z then ds ++ "e" ++ es
    else take 1 ds ++ "." ++ drop 1 ds ++ "e" ++ es.

(** [String(x)] and [x.toString()]. *)
Definition toString (x : number) : string :=
  match x with
  | NaN => "NaN"
  | PosInf => "Infinity"
  | NegInf => "-Infinity"
  | Fin q =>
      if Qzerob q then "0"
      else if Qposb q then positive_toString q
      else "-" ++ positive_toString (- q)
  end.

(** [x.toFixed(f)]: [f] digits after the point, a tie rounded away from
    zero. *)
Definition toFixed (x : number) (f : nat) : string :=
  match x with
  | Fin q =>
      if Qle_bool (pow10 21) (Qabs q) then toString x
      else
        let n := Qfloor (Qabs q * pow10 (Z.of_nat f) + (1 # 2)) in
        let m := digits_of n in
        let m := zeros (S f - String.length m) ++ m in
        let k := String.length m in
        (if Qnegb q then "-" else "")
        ++ take (k - f) m
        ++ (if Nat.eqb f 0 then "" else "." ++ drop (k - f) m)
  | _ => toString x
  end.

(** ** Code that reads and writes the page

    A computation over the element values that returns or throws; the
    values written before a throw stay written. *)

Definition Dom (A : Type) : Type := (string -> string) -> result A * (string -> string).

Definition ret {A : Type} (a : A) : Dom A := fun f => (Return a, f).

Definition throw {A : Type} (m : string) : Dom A := fun f => (Throw m, f).

Definition lift {A : Type} (r : result A) : Dom A := fun f => (r, f).

Definition dbind {A B : Type} (c : Dom A) (k : A -> Dom B) : Dom B :=
  fun f =>
    match c f with
    | (Return a, f') => k a f'
    | (Throw m, f') => (Throw m, f')
    end.

(** [$(id).value] read and written. *)
Definition value (id : string) : Dom string := fun f => (Return (f id), f).

Definition assign (id v : string) : Dom unit :=
  fun f => (Return tt, fun i => if String.eqb i id then v else f i).

(** [try { c } catch { }]: the exception is dropped. *)
Definition try_ignore {A : Type} (c : Dom A) : Dom unit :=
  fun f => (Return tt, snd (c f)).

End JS.

Declare Scope js_scope.
Delimit Scope js_scope with js.
Bind Scope js_scope with JS.number.
Infix "+" := JS.add : js_scope.
Infix "-" := JS.sub : js_scope.
Infix "*" := JS.mul : js_scope.
Infix "/" := JS.div : js_scope.
Infix "%%" := JS.rem (at level 40, left associativity) : js_scope.
Notation "- x" := (JS.neg x) : js_scope.
Infix "<?" := JS.lt : js_scope.
Infix "<=?" := JS.le : js_scope.
Infix ">?" := JS.gt : js_scope.
Infix ">=?" := JS.ge : js_scope.
Infix "===" := JS.seq (at level 70, no associativity) : js_scope.
Notation "x <- r ;; k" := (JS.bind r (fun x => k))
  (at level 61, r at next level, right associativity) : js_scope.
Notation "r ;;; k" := (JS.bind r (fun _ => k))
  (at level 61, right associativity) : js_scope.

Declare Scope dom_scope.
Delimit Scope dom_scope with dom.
Bind Scope dom_scope with JS.Dom.
Notation "x <- c ;; k" := (JS.dbind c (fun x => k))
  (at level 61, c at next level, right associativity) : dom_scope.
Notation "c ;;; k" := (JS.dbind c (fun _ => k))
  (at level 61, right associativity) : dom_scope.

Import JS.
Local Open Scope string_scope.
Local Open Scope js_scope.

Definition point : Type := (number * number)%type.

(** [array.push(...)] and [array.pop()] on an array held as a list. *)
Definition push {A : Type} (a : list A) (items : list A) : list A :=
  (a ++ items)%list.

Definition pop {A : Type} (a : list A) : list A := removelast a.

(** The element values of a page, by element id. *)
Definition Form : Type := string -> string.

Definition set_value (f : Form) (id v : string) : Form :=
  fun i => if String.eqb i id then v else f i.

Definition blank_form : Form := fun _ => "".

(** The page with the listed elements filled in. *)
Fixpoint filled (l : list (string * string)) : Form :=
  match l with
  | [] => blank_form
  | (id, v) :: l' => set_value (filled l') id v
  end.

(** [x || 0] on a number: [0] and [NaN] are falsy. *)
Definition or_zero (x : number) : number :=
  match sign x with
  | Some _ => x
  | None => num 0
  end.

(** The loop variable of [for (let i = 0; i <= n; i++)]: the integers from
    [0] up to [n]; no list when the loop does not end. *)
Definition through (n : number) : option (list number) :=
  match n with
  | Fin q => Some (map (fun i => num (Z.of_nat i))
                       (List.seq 0 (Z.to_nat (Qfloor q + 1))))
  | PosInf => None
  | _ => Some []
  end.

(* ================================================================== *)
(** * The text shared by ellipse.js, flange.js and jumper.js *)
(* ================================================================== *)

Module Shared.

(** The three files hold the same text of [parseInches]. *)
Definition parseInches (str : string) : number :=
  let s := trim str in
  if is_empty s then NaN
  else
    let s := collapse_whitespace (replace_char "-" " " s) in
    let parts := split " " s in
    if Nat.eqb (List.length parts) 2 && includes "/" (nth 1 parts "") then
      let whole := Number (nth 0 parts "") in
      let nd := map Number (split "/" (nth 1 parts "")) in
      let n := nth 0 nd NaN in
      let d := nth 1 nd NaN in
      if negb (Number_isFinite whole) || negb (Number_isFinite n)
         || negb (Number_isFinite d) || (d === num 0)
      then NaN
      else whole + n / d
    else if Nat.eqb (List.length parts) 1 && includes "/" s then
      let nd := map Number (split "/" s) in
      let n := nth 0 nd NaN in
      let d := nth 1 nd NaN in
      if negb (Number_isFinite n) || negb (Number_isFinite d) || (d === num 0)
      then NaN
      else n / d
    else
      let v := Number s in
      if Number_isFinite v then v else NaN.

(** ** DXF (R12) *)

Definition dxfHeader_lines : list string :=
  [ "0"; "SECTION"; "2"; "HEADER";
    "9"; "$ACADVER"; "1"; "AC1009";
    "9"; "$INSUNITS"; "70"; "1";
    "0"; "ENDSEC";
    "0"; "SECTION"; "2"; "TABLES";
    "0"; "TABLE"; "2"; "LAYER"; "70"; "2";
    "0"; "LAYER"; "2"; "Perimeter"; "70"; "0"; "62"; "7"; "6"; "CONTINUOUS";
    "0"; "LAYER"; "2"; "Holes"; "70"; "0"; "62"; "7"; "6"; "CONTINUOUS";
    "0"; "ENDTAB";
    "0"; "ENDSEC";
    "0"; "SECTION"; "2"; "ENTITIES" ].

Definition dxfHeader : string := join LF dxfHeader_lines ++ LF.

Definition dxfFooter_lines : list string := ["0"; "ENDSEC"; "0"; "EOF"].

Definition dxfFooter : string := join LF dxfFooter_lines.

Definition dxfCircle_lines (x y r : number) (layer : string) : list string :=
  [ "0"; "CIRCLE";
    "8"; layer;
    "10"; toString x;
    "20"; toString y;
    "30"; "0";
    "40"; toString r ].

Definition dxfCircle (x y r : number) (layer : string) : string :=
  join LF (dxfCircle_lines x y r layer) ++ LF.

Fixpoint push_vertices (out : list string) (points : list point)
    (layer : string) : list string :=
  match points with
  | [] => out
  | (x, y) :: rest =>
      push_vertices
        (push out ["0"; "VERTEX"; "8"; layer; "10"; toString x;
                   "20"; toString y; "30"; "0"])
        rest layer
  end.

Definition dxfPolyline_lines (points : list point) (layer : string)
    (closed : bool) : list string :=
  let out := [] in
  let out := push out ["0"; "POLYLINE"; "8"; layer; "66"; "1";
                       "70"; if closed then "1" else "0";
                       "10"; "0"; "20"; "0"; "30"; "0"] in
  let out := push_vertices out points layer in
  let out := push out ["0"; "SEQEND"] in
  out.

Definition dxfPolyline (points : list point) (layer : string) (closed : bool)
  : string :=
  join LF (dxfPolyline_lines points layer closed) ++ LF.

(** The page of a generator: the element values and the last validated
    geometry. *)
Record page (V : Type) : Type := {
  form : Form;
  lastValid : option V
}.

End Shared.

(* ================================================================== *)
(** * ellipse.js *)
(* ================================================================== *)

Module Ellipse.

Import Shared.

Section Geometry.

Context {M : MathObject}.

(** The points of [for (let i = 0; i < segments; i++)].  The segment count
    is a literal at every call, hence a [nat] here. *)
Definition ellipsePoints (longDia shortDia : number) (segments : nat)
  : list point :=
  let a := longDia / num 2 in
  let b := shortDia / num 2 in
  map (fun i =>
         let i := num (Z.of_nat i) in
         let t := (i / num (Z.of_nat segments)) * Math_PI * num 2 in
         (a * Math_cos t, b * Math_sin t))
      (List.seq 0 segments).

End Geometry.

(** ** Validation *)

Record valid : Type := {
  idL : number;
  idS : number;
  cs : number;
  odL : number;
  odS : number
}.

(** [if (c) errors.push(msg)]. *)
Definition push_if (c : bool) (msg : string) (errors : list string)
  : list string :=
  if c then push errors [msg] else errors.

Inductive outcome : Type :=
  | Errors (errors : list string)
  | Passed (v : valid).

Definition validate (f : Form) : outcome :=
  let idL := parseInches (f "idLong") in
  let idS := parseInches (f "idShort") in
  let cs := parseInches (f "cs") in
  let errors := [] in
  let errors := push_if (negb (Number_isFinite idL) || (idL <=? num 0))
                  "Long Side ID must be a positive number." errors in
  let errors := push_if (negb (Number_isFinite idS) || (idS <=? num 0))
                  "Short Side ID must be a positive number." errors in
  let errors := push_if (negb (Number_isFinite cs) || (cs <=? num 0))
                  "Cross Section must be a positive number." errors in
  let errors := push_if (Number_isFinite idL && Number_isFinite idS
                         && (idS >? idL))
                  "Short Side ID cannot be larger than Long Side ID." errors in
  if negb (Nat.eqb (List.length errors) 0) then Errors errors
  else
    let odL := idL + num 2 * cs in
    let odS := idS + num 2 * cs in
    Passed {| idL := idL; idS := idS; cs := cs; odL := odL; odS := odS |}.

Definition validateAndPreview (p : page valid) : page valid :=
  match validate (form p) with
  | Errors _ => {| form := form p; lastValid := None |}
  | Passed v => {| form := form p; lastValid := Some v |}
  end.

(** The elements whose [input] event clears the validated geometry. *)
Definition INPUTS : list string := ["idLong"; "idShort"; "cs"].

(** The element [id] takes the value [text], and its [input] listener, if
    it has one that touches the page, runs. *)
Definition input (id text : string) (p : page valid) : page valid :=
  let f := set_value (form p) id text in
  if existsb (String.eqb id) INPUTS
  then {| form := f; lastValid := None |}
  else {| form := f; lastValid := lastValid p |}.

(** ** Download *)

Section Download.

Context {M : MathObject}.

(** The lines of the drawing, before they are joined. *)
Definition drawing_lines (v : valid) : list string :=
  let odPts := ellipsePoints (odL v) (odS v) 280 in
  let idPts := ellipsePoints (idL v) (idS v) 280 in
  (dxfHeader_lines
   ++ dxfPolyline_lines odPts "Perimeter" true
   ++ dxfPolyline_lines idPts "Holes" true
   ++ dxfFooter_lines)%list.

(** The text handed to the file shell by a click on Download; [None] when
    nothing is saved. *)
Definition downloadDXF (p : page valid) : option string :=
  let name := trim (form p "filename") in
  if is_empty name then None
  else
    match lastValid p with
    | None => None
    | Some v =>
        let odPts := ellipsePoints (odL v) (odS v) 280 in
        let idPts := ellipsePoints (idL v) (idS v) 280 in
        let dxf := "" in
        let dxf := dxf ++ dxfHeader in
        let dxf := dxf ++ dxfPolyline odPts "Perimeter" true in
        let dxf := dxf ++ dxfPolyline idPts "Holes" true in
        let dxf := dxf ++ dxfFooter in
        Some dxf
    end.

End Download.

End Ellipse.

(* ================================================================== *)
(** * firetube.js *)
(* ================================================================== *)

Module Firetube.

(** [raw.match(/^(\d+)\s+(\d+)\s*\/\s*(\d+)$/)]: the three captures.  The
    classes of neighbouring pieces are disjoint, so the longest run of each
    is the only way to match. *)
Definition match_mixed (raw : string) : option (string * string * string) :=
  let (w, r1) := span is_digit raw in
  let (s1, r2) := span is_whitespace r1 in
  let (n, r3) := span is_digit r2 in
  let (_, r4) := span is_whitespace r3 in
  match r4 with
  | String "/"%char r5 =>
      let (_, r6) := span is_whitespace r5 in
      let (d, r7) := span is_digit r6 in
      if is_empty w || is_empty s1 || is_empty n || is_empty d
         || negb (is_empty r7)
      then None
      else Some (w, n, d)
  | _ => None
  end.

(** [raw.match(/^(\d+)\s*\/\s*(\d+)$/)]. *)
Definition match_frac (raw : string) : option (string * string) :=
  let (n, r1) := span is_digit raw in
  let (_, r2) := span is_whitespace r1 in
  match r2 with
  | String "/"%char r3 =>
      let (_, r4) := span is_whitespace r3 in
      let (d, r5) := span is_digit r4 in
      if is_empty n || is_empty d || negb (is_empty r5) then None
      else Some (n, d)
  | _ => None
  end.

Definition parseInches (str : string) : result number :=
  let raw := trim str in
  if is_empty raw then Throw "Empty value"
  else
    match match_mixed raw with
    | Some (w, n, d) =>
        let whole := parseInt w in
        let num_ := parseInt n in
        let den := parseInt d in
        if den === num 0
        then Throw ("Invalid fraction " ++ QUOTE ++ raw ++ QUOTE)
        else Return (whole + (num_ / den))
    | None =>
        match match_frac raw with
        | Some (n, d) =>
            let num_ := parseInt n in
            let den := parseInt d in
            if den === num 0
            then Throw ("Invalid fraction " ++ QUOTE ++ raw ++ QUOTE)
            else Return (num_ / den)
        | None =>
            let val := Number raw in
            if negb (Number_isFinite val)
            then Throw ("Invalid number " ++ QUOTE ++ raw ++ QUOTE)
            else Return val
        end
    end.

(** The number whose text [fmt] writes. *)
Definition round6 (n : number) : number :=
  Math_round (n * num 1000000) / num 1000000.

Definition fmt (n : number) : string := toString (round6 n).

Definition fmtIn (n : number) : string :=
  let s := toString (round6 n) in
  match s with
  | String "."%char _ => "0" ++ s
  | String "-"%char (String "."%char r) => "-0." ++ r
  | _ => s
  end.

(** ** Required fields *)

Definition REQUIRED_FIELDS : list (string * string) :=
  [ ("odLong", "Long Side OD");
    ("odShort", "Short Side OD");
    ("bcLong", "Long Side BC");
    ("bcShort", "Short Side BC");
    ("holeCount", "Hole Count");
    ("holeDia", "Hole Diameter") ].

Definition isBlank (f : Form) (id : string) : bool := is_empty (trim (f id)).

Definition requireFilled (id label : string) : Dom unit :=
  fun f => if isBlank f id then throw (label ++ " is required.") f else ret tt f.

(** ** DXF primitives *)

Definition addLayerDef (dxf : list string) (name : string) : list string :=
  push dxf ["0"; "LAYER"; "2"; name; "70"; "0"; "62"; "7"; "6"; "CONTINUOUS"].

Definition addLine (dxf : list string) (layer : string) (x1 y1 x2 y2 : number)
  : list string :=
  push dxf ["0"; "LINE"; "8"; layer; "10"; fmt x1; "20"; fmt y1; "30"; "0";
            "11"; fmt x2; "21"; fmt y2; "31"; "0"].

Definition addArc (dxf : list string) (layer : string) (cx cy r a1 a2 : number)
  : list string :=
  push dxf ["0"; "ARC"; "8"; layer; "10"; fmt cx; "20"; fmt cy; "30"; "0";
            "40"; fmt r; "50"; fmt a1; "51"; fmt a2].

Definition addCircle (dxf : list string) (layer : string) (cx cy r : number)
  : list string :=
  push dxf ["0"; "CIRCLE"; "8"; layer; "10"; fmt cx; "20"; fmt cy; "30"; "0";
            "40"; fmt r].

(** ** Obround outline *)

Definition addObroundOutline (dxf : list string) (layer : string)
    (longDim shortDim offsetX offsetY : number) : result (list string) :=
  let L := longDim in
  let W := shortDim in
  if L <? W
  then Throw ("Long (" ++ toString L ++ ") must be ≥ Short (" ++ toString W ++ ").")
  else
    let r := W / num 2 in
    let halfStraight := (L - W) / num 2 in
    let cx := halfStraight in
    let dxf := addLine dxf layer (offsetX - cx) (offsetY + r) (offsetX + cx) (offsetY + r) in
    let dxf := addLine dxf layer (offsetX + cx) (offsetY - r) (offsetX - cx) (offsetY - r) in
    let dxf := addArc dxf layer (offsetX + cx) offsetY r (num 270) (num 90) in
    let dxf := addArc dxf layer (offsetX - cx) offsetY r (num 90) (num 270) in
    Return dxf.

(** ** Bolt-circle perimeter and hole placement *)

Definition obroundPerimeter (L W : number) : number :=
  let r := W / num 2 in
  let straight := L - W in
  (num 2 * straight) + (num 2 * Math_PI * r).

Section Geometry.

Context {M : MathObject}.

Definition perimeterPointObround (L W dist : number) : point :=
  let r := W / num 2 in
  let straight := L - W in
  let cx := straight / num 2 in
  let quarterArcLen := (Math_PI * r) / num 2 in
  let leftSemiLen := Math_PI * r in
  let total := (num 2 * straight) + (num 2 * Math_PI * r) in
  let d := ((dist %% total) + total) %% total in
  if d <=? quarterArcLen then
    let t := d / quarterArcLen in
    let ang := (num 0 + num 90 * t) * Math_PI / num 180 in
    (cx + r * Math_cos ang, r * Math_sin ang)
  else
    let d := d - quarterArcLen in
    if d <=? straight then
      let t := d / straight in
      (cx + (num (-2) * cx * t), r)
    else
      let d := d - straight in
      if d <=? leftSemiLen then
        let t := d / leftSemiLen in
        let ang := (num 90 + num 180 * t) * Math_PI / num 180 in
        (- cx + r * Math_cos ang, r * Math_sin ang)
      else
        let d := d - leftSemiLen in
        if d <=? straight then
          let t := d / straight in
          (- cx + (num 2 * cx * t), - r)
        else
          let d := d - straight in
          let t := d / quarterArcLen in
          let ang := (num 270 + num 90 * t) * Math_PI / num 180 in
          (cx + r * Math_cos ang, r * Math_sin ang).

End Geometry.


(** ** Cross section: fills and locks the ID *)

Definition crossSectionRaw : Dom string :=
  (v <- value "crossSection" ;; ret (trim v))%dom.

Definition crossSectionValueOrNull : Dom (option number) :=
  (raw <- crossSectionRaw ;;
   if is_empty raw then ret None
   else (v <- lift (parseInches raw) ;; ret (Some v)))%dom.

Definition applyCrossSectionToIDIfPresent : Dom bool :=
  (cs <- crossSectionValueOrNull ;;
   match cs with
   | None => ret false
   | Some cs =>
       requireFilled "odLong" "Long Side OD" ;;;
       requireFilled "odShort" "Short Side OD" ;;;
       odLongS <- value "odLong" ;;
       odLong <- lift (parseInches odLongS) ;;
       odShortS <- value "odShort" ;;
       odShort <- lift (parseInches odShortS) ;;
       let newIdLong := odLong - num 2 * cs in
       let newIdShort := odShort - num 2 * cs in
       assign "idLong" (fmtIn (Math_round (newIdLong * num 1000) / num 1000)) ;;;
       assign "idShort" (fmtIn (Math_round (newIdShort * num 1000) / num 1000)) ;;;
       ret true
   end)%dom.

(** ** Inputs and derived values *)

Record inputs : Type := {
  odLong : number;
  odShort : number;
  idLong : number;
  idShort : number;
  bcLong : number;
  bcShort : number;
  holeCount : number;
  holeDia : number;
  centerMode : string
}.

Record holes : Type := {
  centers : list point;
  c2c : number
}.

Section Geometry2.

Context {M : MathObject}.


End Geometry2.

Fixpoint requireEach (fields : list (string * string)) : Dom unit :=
  match fields with
  | [] => ret tt
  | (id, name) :: rest => (requireFilled id name ;;; requireEach rest)%dom
  end.

Definition requireAllMandatory : Dom unit :=
  (requireEach REQUIRED_FIELDS ;;;
   cs <- crossSectionRaw ;;
   if is_empty cs then
     requireFilled "idLong" "Long Side ID" ;;;
     requireFilled "idShort" "Short Side ID"
   else ret tt)%dom.

Definition parseField (id : string) : Dom number :=
  (v <- value id ;; lift (parseInches v))%dom.

(** The constraints of [computeInputs] on the parsed values, in the order of
    the code; the first one violated is thrown. *)
Definition checkInputs (i : inputs) : result inputs :=
  if odLong i <? odShort i
  then Throw "Long Side OD must be the same as or larger than Short Side OD."
  else if idLong i <? idShort i
  then Throw "Long Side ID must be the same as or larger than Short Side ID."
  else if bcLong i <? bcShort i
  then Throw "Long Side BC must be the same as or larger than Short Side BC."
  else if (idLong i >=? odLong i) || (idShort i >=? odShort i)
  then Throw "ID must be smaller than OD."
  else if (bcLong i >? odLong i) || (bcShort i >? odShort i)
  then Throw "BC must fit inside OD."
  else if negb (holeCount i >? num 0)
  then Throw "Hole count must be greater than zero."
  else if negb (holeDia i >? num 0)
  then Throw "Hole diameter must be greater than zero."
  else
    let P := obroundPerimeter (bcLong i) (bcShort i) in
    let c2c := P / holeCount i in
    if c2c <=? holeDia i
    then Throw "Bolt holes overlap: Bolt Hole Center To Center is not large enough for the hole diameter."
    else Return i.

(** The fields read and parsed, in the order of the code. *)
Definition readInputs : Dom inputs :=
  (requireAllMandatory ;;;
   applyCrossSectionToIDIfPresent ;;;
   odLong <- parseField "odLong" ;;
   odShort <- parseField "odShort" ;;
   idLong <- parseField "idLong" ;;
   idShort <- parseField "idShort" ;;
   bcLong <- parseField "bcLong" ;;
   bcShort <- parseField "bcShort" ;;
   holeCountS <- value "holeCount" ;;
   let holeCount := parseInt holeCountS in
   holeDia <- parseField "holeDia" ;;
   centerMode <- value "centerMode" ;;
   ret {| odLong := odLong; odShort := odShort;
          idLong := idLong; idShort := idShort;
          bcLong := bcLong; bcShort := bcShort;
          holeCount := holeCount; holeDia := holeDia;
          centerMode := centerMode |})%dom.

Definition computeInputs : Dom inputs :=
  (i <- readInputs ;; lift (checkInputs i))%dom.

(** ** Clearance, by side *)

Record breakdown : Type := {
  longToOD : number;
  longToID : number;
  shortToOD : number;
  shortToID : number
}.


Record evaluation : Type := {
  warnings : list string;
  errors : list string
}.

Definition rule (label : string) (v : number) (e : evaluation) : evaluation :=
  let msg := label ++ ": Current clearance is " ++ toFixed v 3 ++ " inches." in
  if v <? Fin (1 # 2) then
    {| warnings := warnings e; errors := push (errors e) [msg] |}
  else if v <? num 1 then
    {| warnings := push (warnings e) [msg]; errors := errors e |}
  else e.

Definition evaluateClearances (bd : breakdown) : evaluation :=
  let e := {| warnings := []; errors := [] |} in
  let e := rule "Long Side - Edge Of Hole to OD" (longToOD bd) e in
  let e := rule "Long Side - Edge Of Hole to ID" (longToID bd) e in
  let e := rule "Short Side - Edge Of Hole to OD" (shortToOD bd) e in
  let e := rule "Short Side - Edge Of Hole to ID" (shortToID bd) e in
  e.

(** ** DXF build *)

Fixpoint addCircles (dxf : list string) (layer : string)
    (cs : list point) (r : number) : list string :=
  match cs with
  | [] => dxf
  | (x, y) :: cs' => addCircles (addCircle dxf layer x y r) layer cs' r
  end.

(** The lines of the drawing, before they are joined. *)
Definition buildDXF_lines (i : inputs) (holeCenters : list point)
  : result (list string) :=
  let dxf := [] in
  let dxf := push dxf ["0"; "SECTION"; "2"; "HEADER"] in
  let dxf := push dxf ["9"; "$INSUNITS"; "70"; "1"] in
  let dxf := push dxf ["0"; "ENDSEC"] in
  let dxf := push dxf ["0"; "SECTION"; "2"; "TABLES"] in
  let dxf := push dxf ["0"; "TABLE"; "2"; "LAYER"; "70"; "2"] in
  let dxf := push dxf ["0"; "TABLE"; "2"; "LAYER"; "70"; "2"] in
  let dxf := pop dxf in
  let dxf := push dxf ["0"; "TABLE"; "2"; "LAYER"; "70"; "2"] in
  let dxf := addLayerDef dxf "Perimeter" in
  let dxf := addLayerDef dxf "Holes" in
  let dxf := push dxf ["0"; "ENDTAB"] in
  let dxf := push dxf ["0"; "ENDSEC"] in
  let dxf := push dxf ["0"; "SECTION"; "2"; "ENTITIES"] in
  dxf <- addObroundOutline dxf "Perimeter" (odLong i) (odShort i) (num 0) (num 0) ;;
  dxf <- addObroundOutline dxf "Holes" (idLong i) (idShort i) (num 0) (num 0) ;;
  let holeR := holeDia i / num 2 in
  let dxf := addCircles dxf "Holes" holeCenters holeR in
  let dxf := push dxf ["0"; "ENDSEC"; "0"; "EOF"] in
  Return dxf.


(** ** Validate and download *)


Section Run.

Context {M : MathObject}.



End Run.

(** ** The name of the saved file *)

Definition lower (c : ascii) : ascii :=
  let n := nat_of_ascii c in
  if Nat.leb 65 n && Nat.leb n 90 then ascii_of_nat (n + 32) else c.

(** [s.replace(/\.dxf$/i, "")]. *)
Definition strip_dxf (s : string) : string :=
  match reverse s with
  | String f (String x (String d (String "."%char r))) =>
      if Ascii.eqb (lower d) "d" && Ascii.eqb (lower x) "x"
         && Ascii.eqb (lower f) "f"
      then reverse r else s
  | _ => s
  end.

Definition sanitizeFilenameBase (base : string) : string :=
  let s := trim base in
  let s := strip_dxf s in
  if is_empty s then "firetube_gasket" else s.

(** The name the download handler saves under, from the CAD name it has
    read and trimmed. *)
Definition outName (cadName : string) : string :=
  sanitizeFilenameBase cadName ++ ".dxf".

(** ** The listeners of the cross section and OD fields *)

Definition refreshIdLocking : Dom unit :=
  try_ignore applyCrossSectionToIDIfPresent.

End Firetube.

(* ================================================================== *)
(** * flange.js *)
(* ================================================================== *)

Module Flange.

Import Shared.

Definition clampRadius (r w h : number) : number :=
  let hw := w / num 2 in
  let hh := h / num 2 in
  if negb (Number_isFinite r) || (r <=? num 0) then num 0
  else Math_max (num 0) (Math_min r (Math_min hw hh)).

Section Geometry.

Context {M : MathObject}.

Definition sdfRoundedRect (px py hw hh rr : number) : number :=
  let ax := Math_abs px in
  let ay := Math_abs py in
  let innerX := hw - rr in
  let innerY := hh - rr in
  let qx := ax - innerX in
  let qy := ay - innerY in
  let mx := Math_max qx (num 0) in
  let my := Math_max qy (num 0) in
  Math_hypot mx my + Math_min (Math_max qx qy) (num 0) - rr.

Definition gapCircleToRoundedOD (x y r odX odY odR : number) : number :=
  let hw := odX / num 2 in
  let hh := odY / num 2 in
  let rr := clampRadius odR odX odY in
  let sdf := sdfRoundedRect x y hw hh rr in
  (- sdf) - r.

Definition gapCircleToCenterCutoutRoundedRect (x y r cutX cutY cutR : number)
  : number :=
  let hw := cutX / num 2 in
  let hh := cutY / num 2 in
  let rr := clampRadius cutR cutX cutY in
  let sdf := sdfRoundedRect x y hw hh rr in
  sdf - r.

(** The points of one corner arc, pushed to [pts].  The segment count is a
    literal at every call, hence a [nat] here. *)
Definition arc (rr : number) (segmentsPerCorner : nat) (pts : list point)
    (cx cy start end_ : number) : list point :=
  fold_left
    (fun pts i =>
       let i := num (Z.of_nat i) in
       let t := start + (i / num (Z.of_nat segmentsPerCorner)) * (end_ - start) in
       push pts [(cx + rr * Math_cos t, cy + rr * Math_sin t)])
    (List.seq 0 (S segmentsPerCorner)) pts.

Definition roundedRectPoints (w h r : number) (segmentsPerCorner : nat)
  : list point :=
  let hw := w / num 2 in
  let hh := h / num 2 in
  let rr := clampRadius r w h in
  if rr === num 0 then
    [ (- hw, - hh); (hw, - hh); (hw, hh); (- hw, hh) ]
  else
    let pts := [] in
    let pts := arc rr segmentsPerCorner pts (hw - rr) (- hh + rr)
                 (- Math_PI / num 2) (num 0) in
    let pts := arc rr segmentsPerCorner pts (hw - rr) (hh - rr)
                 (num 0) (Math_PI / num 2) in
    let pts := arc rr segmentsPerCorner pts (- hw + rr) (hh - rr)
                 (Math_PI / num 2) Math_PI in
    let pts := arc rr segmentsPerCorner pts (- hw + rr) (- hh + rr)
                 Math_PI ((num 3 * Math_PI) / num 2) in
    pts.

End Geometry.

(** ** Validation *)

Record valid : Type := {
  odX : number;
  odY : number;
  cornerR : number;
  bhCCX : number;
  bhCCY : number;
  bhDia : number;
  cutoutType : string;
  cutoutDia : number;
  cutoutX : number;
  cutoutY : number;
  cutoutR : number
}.

(** [if (c) errors.push(msg)]. *)
Definition push_if (c : bool) (msg : string) (errors : list string)
  : list string :=
  if c then push errors [msg] else errors.

Definition not_positive (x : number) : bool :=
  negb (Number_isFinite x) || (x <=? num 0).

(** The values read from the page, as [validateAndPreview] reads them. *)
Definition read (f : Form) : valid :=
  {| odX := parseInches (f "odX");
     odY := parseInches (f "odY");
     cornerR := if negb (is_empty (trim (f "cornerR")))
                then parseInches (f "cornerR") else num 0;
     bhCCX := parseInches (f "bhCCX");
     bhCCY := parseInches (f "bhCCY");
     bhDia := parseInches (f "bhDia");
     cutoutType := f "cutoutType";
     cutoutDia := parseInches (f "cutoutDia");
     cutoutX := parseInches (f "cutoutX");
     cutoutY := parseInches (f "cutoutY");
     cutoutR := if negb (is_empty (trim (f "cutoutR")))
                then parseInches (f "cutoutR") else num 0 |}.

(** The basic numeric validation: every check that fails adds its message. *)
Definition basicErrors (f : Form) : list string :=
  let v := read f in
  let errors := [] in
  let errors := push_if (not_positive (odX v))
                  "OD X must be a positive number." errors in
  let errors := push_if (not_positive (odY v))
                  "OD Y must be a positive number." errors in
  let errors := push_if (negb (is_empty (trim (f "cornerR")))
                         && (negb (Number_isFinite (cornerR v))
                             || (cornerR v <? num 0)))
                  "Corner Radius must be blank or a non-negative number." errors in
  let errors := push_if (Number_isFinite (odX v) && Number_isFinite (odY v)
                         && Number_isFinite (cornerR v)
                         && negb (clampRadius (cornerR v) (odX v) (odY v)
                                  === cornerR v))
                  "Corner Radius is too large for the OD." errors in
  let errors := push_if (not_positive (bhCCX v))
                  "Bolt Hole Center To Center X must be a positive number." errors in
  let errors := push_if (not_positive (bhCCY v))
                  "Bolt Hole Center To Center Y must be a positive number." errors in
  let errors := push_if (not_positive (bhDia v))
                  "Bolt Hole Diameter must be a positive number." errors in
  if String.eqb (cutoutType v) "circle" then
    push_if (not_positive (cutoutDia v))
      "Center Cutout Diameter must be a positive number." errors
  else
    let errors := push_if (not_positive (cutoutX v))
                    "Center Cutout X must be a positive number." errors in
    let errors := push_if (not_positive (cutoutY v))
                    "Center Cutout Y must be a positive number." errors in
    let errors := push_if (negb (is_empty (trim (f "cutoutR")))
                           && (negb (Number_isFinite (cutoutR v))
                               || (cutoutR v <? num 0)))
                    "Center Cutout Corner Radius must be blank or a non-negative number."
                    errors in
    let errors := push_if (Number_isFinite (cutoutX v)
                           && Number_isFinite (cutoutY v)
                           && Number_isFinite (cutoutR v)
                           && negb (clampRadius (cutoutR v) (cutoutX v) (cutoutY v)
                                    === cutoutR v))
                    "Center Cutout Corner Radius is too large for the cutout."
                    errors in
    errors.

Section Validation.

Context {M : MathObject}.

(** [let m = Infinity; for (const [x, y] of pts) m = Math.min(m, g(x, y))]. *)
Definition minGap (g : number -> number -> number) (pts : list point) : number :=
  fold_left (fun m '(x, y) => Math_min m (g x y)) pts PosInf.

Definition holeCentersOf (hx hy : number) : list point :=
  [ (- hx, - hy); (hx, - hy); (- hx, hy); (hx, hy) ].

(** The geometry checks, run when the basic validation found nothing. *)
Definition clearanceErrors (f : Form) : list string :=
  let v := read f in
  let errors := [] in
  let holeR := bhDia v / num 2 in
  let hx := bhCCX v / num 2 in
  let hy := bhCCY v / num 2 in
  let holeCenters := holeCentersOf hx hy in
  let minHoleODGap :=
    minGap (fun x y => gapCircleToRoundedOD x y holeR (odX v) (odY v)
                         (or_zero (cornerR v)))
           holeCenters in
  let errors := push_if (minHoleODGap <=? num 0)
                  "Bolt holes are touching or outside the OD." errors in
  let errors := push_if (bhCCX v <=? bhDia v)
                  "Bolt holes are touching/overlapping each other on X spacing."
                  errors in
  let errors := push_if (bhCCY v <=? bhDia v)
                  "Bolt holes are touching/overlapping each other on Y spacing."
                  errors in
  let errors :=
    if String.eqb (cutoutType v) "circle" then
      let cr := cutoutDia v / num 2 in
      let g := gapCircleToRoundedOD (num 0) (num 0) cr (odX v) (odY v)
                 (or_zero (cornerR v)) in
      push_if (g <=? num 0)
        "Center cutout is touching or outside the OD." errors
    else
      let pts := roundedRectPoints (cutoutX v) (cutoutY v)
                   (or_zero (cutoutR v)) 24 in
      let minCutoutODGap :=
        minGap (fun x y => gapCircleToRoundedOD x y (num 0) (odX v) (odY v)
                             (or_zero (cornerR v)))
               pts in
      push_if (minCutoutODGap <=? num 0)
        "Center cutout is touching or outside the OD." errors in
  if String.eqb (cutoutType v) "circle" then
    let cr := cutoutDia v / num 2 in
    let minHoleIDGap :=
      minGap (fun x y => Math_hypot x y - (holeR + cr)) holeCenters in
    push_if (minHoleIDGap <=? num 0)
      "Bolt holes are touching/overlapping the center cutout." errors
  else
    let minHoleIDGap :=
      minGap (fun x y => gapCircleToCenterCutoutRoundedRect x y holeR
                           (cutoutX v) (cutoutY v) (or_zero (cutoutR v)))
             holeCenters in
    push_if (minHoleIDGap <=? num 0)
      "Bolt holes are touching/overlapping the center cutout." errors.

(** What one click on Validate leaves: the errors shown, or the geometry
    kept for the export. *)
Inductive outcome : Type :=
  | Errors (errors : list string)
  | Passed (v : valid).

Definition validate (f : Form) : outcome :=
  let errors := basicErrors f in
  if negb (Nat.eqb (List.length errors) 0) then Errors errors
  else
    let errors := clearanceErrors f in
    if negb (Nat.eqb (List.length errors) 0) then Errors errors
    else
      let v := read f in
      Passed {| odX := odX v; odY := odY v;
                cornerR := or_zero (cornerR v);
                bhCCX := bhCCX v; bhCCY := bhCCY v; bhDia := bhDia v;
                cutoutType := cutoutType v;
                cutoutDia := cutoutDia v;
                cutoutX := cutoutX v; cutoutY := cutoutY v;
                cutoutR := or_zero (cutoutR v) |}.

(** The status line of a failed validation. *)
Definition errorStatus (errors : list string) : string :=
  "ERRORS: " ++ join " " errors.

Definition validateAndPreview (p : page valid) : page valid :=
  match validate (form p) with
  | Errors _ => {| form := form p; lastValid := None |}
  | Passed v => {| form := form p; lastValid := Some v |}
  end.

(** ** DXF build *)

Fixpoint circles_lines (holes : list point) (r : number) (layer : string)
  : list string :=
  match holes with
  | [] => []
  | (x, y) :: rest => (dxfCircle_lines x y r layer ++ circles_lines rest r layer)%list
  end.

Fixpoint circles (dxf : string) (holes : list point) (r : number)
    (layer : string) : string :=
  match holes with
  | [] => dxf
  | (x, y) :: rest => circles (dxf ++ dxfCircle x y r layer) rest r layer
  end.

(** The lines of the drawing, before they are joined. *)
Definition drawing_lines (v : valid) : list string :=
  let odPts := roundedRectPoints (odX v) (odY v) (cornerR v) 24 in
  let hx := bhCCX v / num 2 in
  let hy := bhCCY v / num 2 in
  let r := bhDia v / num 2 in
  (dxfHeader_lines
   ++ dxfPolyline_lines odPts "Perimeter" true
   ++ circles_lines (holeCentersOf hx hy) r "Holes"
   ++ (if String.eqb (cutoutType v) "circle" then
         dxfCircle_lines (num 0) (num 0) (cutoutDia v / num 2) "Holes"
       else
         dxfPolyline_lines
           (roundedRectPoints (cutoutX v) (cutoutY v) (cutoutR v) 24)
           "Holes" true)
   ++ dxfFooter_lines)%list.

(** The text handed to the file shell by a click on Download; [None] when
    nothing is saved. *)
Definition downloadDXF (p : page valid) : option string :=
  let name := trim (form p "filename") in
  if is_empty name then None
  else
    match lastValid p with
    | None => None
    | Some v =>
        let dxf := "" in
        let dxf := dxf ++ dxfHeader in
        let odPts := roundedRectPoints (odX v) (odY v) (cornerR v) 24 in
        let dxf := dxf ++ dxfPolyline odPts "Perimeter" true in
        let hx := bhCCX v / num 2 in
        let hy := bhCCY v / num 2 in
        let r := bhDia v / num 2 in
        let holes := holeCentersOf hx hy in
        let dxf := circles dxf holes r "Holes" in
        let dxf :=
          if String.eqb (cutoutType v) "circle" then
            dxf ++ dxfCircle (num 0) (num 0) (cutoutDia v / num 2) "Holes"
          else
            let pts := roundedRectPoints (cutoutX v) (cutoutY v) (cutoutR v) 24 in
            dxf ++ dxfPolyline pts "Holes" true in
        let dxf := dxf ++ dxfFooter in
        Some dxf
    end.

End Validation.

(** ** The listeners of the inputs *)

(** The elements whose [input] event clears the validated geometry. *)
Definition INPUTS : list string :=
  [ "odX"; "odY"; "cornerR"; "bhCCX"; "bhCCY"; "bhDia";
    "cutoutDia"; "cutoutX"; "cutoutY"; "cutoutR" ].

(** The element [id] takes the value [text], and its [input] listener, if
    it has one that touches the page, runs. *)
Definition input (id text : string) (p : page valid) : page valid :=
  let f := set_value (form p) id text in
  if existsb (String.eqb id) INPUTS
  then {| form := f; lastValid := None |}
  else {| form := f; lastValid := lastValid p |}.

(** The cutout type takes the value [t], and its [change] listener runs. *)
Definition updateCutoutUI (t : string) (p : page valid) : page valid :=
  {| form := set_value (form p) "cutoutType" t; lastValid := None |}.

End Flange.

(* ================================================================== *)
(** * jumper.js *)
(* ================================================================== *)

Module Jumper.

Import Shared.

Record tangent : Type := {
  p1 : point;
  p2 : point
}.

Record tangents : Type := {
  top : tangent;
  bottom : tangent
}.

(** What [buildOD] returns: [{ error }] or [{ pts }]. *)
Inductive built : Type :=
  | Error (error : string)
  | Pts (pts : list point).

(** [while (end <= start) end += Math.PI * 2] when [ccw], and
    [while (end >= start) end -= Math.PI * 2] otherwise; no value when the
    fuel runs out. *)
Fixpoint wind (fuel : nat) (ccw : bool) (start end_ : number) : option number :=
  if (if ccw then end_ <=? start else end_ >=? start) then
    match fuel with
    | O => None
    | S fuel' =>
        wind fuel' ccw start
          (if ccw then end_ + Math_PI * num 2 else end_ - Math_PI * num 2)
    end
  else Some end_.

(** Turns that bring [end_] past [start]: enough fuel for finite angles;
    with an infinite angle the loop does not end. *)
Definition turns (ccw : bool) (start end_ : number) : nat :=
  match ((if ccw then start - end_ else end_ - start) / (Math_PI * num 2))%js with
  | Fin q => Z.to_nat (Qfloor q + 1)
  | _ => 1
  end.

Section Geometry.

Context {M : MathObject}.

Definition angleOf (cx cy px py : number) : number :=
  Math_atan2 (py - cy) (px - cx).

(** No list when a loop does not end. *)
Definition arcPoints (cx cy r a0 a1 : number) (ccw : bool) (maxSegLen : number)
  : option (list point) :=
  let start := a0 in
  let end_ := a1 in
  match wind (turns ccw start end_) ccw start end_ with
  | None => None
  | Some end_ =>
      let sweep := if ccw then end_ - start else start - end_ in
      let n := Math_max (num 10) (Math_ceil ((sweep * r) / maxSegLen)) in
      match through n with
      | None => None
      | Some is_ =>
          Some (map (fun i =>
                       let t := i / n in
                       let a := if ccw then start + sweep * t
                                else start - sweep * t in
                       (cx + r * Math_cos a, cy + r * Math_sin a))
                    is_)
      end
  end.

(** The default [maxSegLen]. *)
Definition maxSegLen : number := Fin (6 # 100).

(** No list when a loop does not end or an arc has no middle point (a
    [TypeError]). *)
Definition chosenArc (cx cy r : number) (pStart pEnd : point)
    (wantFn : number -> number -> bool) : option (list point) :=
  let a0 := angleOf cx cy (fst pStart) (snd pStart) in
  let a1 := angleOf cx cy (fst pEnd) (snd pEnd) in
  match arcPoints cx cy r a0 a1 true maxSegLen,
        arcPoints cx cy r a0 a1 false maxSegLen with
  | Some arcCCW, Some arcCW =>
      match nth_error arcCCW (Nat.div (List.length arcCCW) 2),
            nth_error arcCW (Nat.div (List.length arcCW) 2) with
      | Some midCCW, Some midCW =>
          let okCCW := wantFn (fst midCCW) (snd midCCW) in
          let okCW := wantFn (fst midCW) (snd midCW) in
          if okCCW && negb okCW then Some arcCCW
          else if okCW && negb okCCW then Some arcCW
          else if Nat.leb (List.length arcCCW) (List.length arcCW)
               then Some arcCCW else Some arcCW
      | _, _ => None
      end
  | _, _ => None
  end.

(** [None] is the [null] of the source. *)
Definition externalTangents (c1x c1y r1 c2x c2y r2 : number) : option tangents :=
  let dx := c2x - c1x in
  let dy := c2y - c1y in
  let d := Math_hypot dx dy in
  if negb (d >? num 0) then None
  else
    let k := (r1 - r2) / d in
    if Math_abs k >? num 1 then None
    else
      let base := Math_atan2 dy dx in
      let phi := Math_acos k in
      let aA := base + phi in
      let aB := base - phi in
      let p1A := (c1x + r1 * Math_cos aA, c1y + r1 * Math_sin aA) in
      let p2A := (c2x + r2 * Math_cos aA, c2y + r2 * Math_sin aA) in
      let p1B := (c1x + r1 * Math_cos aB, c1y + r1 * Math_sin aB) in
      let p2B := (c2x + r2 * Math_cos aB, c2y + r2 * Math_sin aB) in
      if snd p1A >=? snd p1B then
        Some {| top := {| p1 := p1A; p2 := p2A |};
                bottom := {| p1 := p1B; p2 := p2B |} |}
      else
        Some {| top := {| p1 := p1B; p2 := p2B |};
                bottom := {| p1 := p1A; p2 := p2A |} |}.

Record circle : Type := {
  x : number;
  y : number;
  r : number
}.

(** No value when [chosenArc] has none. *)
Definition buildOD (cc RboltOuter RidOuter : number) : option built :=
  let L := {| x := - cc / num 2; y := num 0; r := RboltOuter |} in
  let C := {| x := num 0; y := num 0; r := RidOuter |} in
  let R := {| x := cc / num 2; y := num 0; r := RboltOuter |} in
  match externalTangents (x L) (y L) (r L) (x C) (y C) (r C) with
  | None => Some (Error "Cannot compute tangents between left bolt OD and center OD.")
  | Some tLC =>
  match externalTangents (x C) (y C) (r C) (x R) (y R) (r R) with
  | None => Some (Error "Cannot compute tangents between center OD and right bolt OD.")
  | Some tCR =>
      let L_top := p1 (top tLC) in
      let C_left_top := p2 (top tLC) in
      let C_right_top := p1 (top tCR) in
      let R_top := p2 (top tCR) in
      let R_bot := p2 (bottom tCR) in
      let C_right_bot := p1 (bottom tCR) in
      let C_left_bot := p2 (bottom tLC) in
      let L_bot := p1 (bottom tLC) in
      match chosenArc (x C) (y C) (r C) C_left_top C_right_top
              (fun _x y => y >? num 0),
            chosenArc (x C) (y C) (r C) C_right_bot C_left_bot
              (fun _x y => y <? num 0),
            chosenArc (x L) (y L) (r L) L_bot L_top
              (fun x' _y => x' <? x L),
            chosenArc (x R) (y R) (r R) R_top R_bot
              (fun x' _y => x' >? x R) with
      | Some arcC_top, Some arcC_bot, Some arcL_out, Some arcR_out =>
          let pts := [] in
          let pts := push pts [L_top] in
          let pts := push pts [C_left_top] in
          let pts := push pts (tl arcC_top) in
          let pts := push pts [R_top] in
          let pts := push pts (tl arcR_out) in
          let pts := push pts [C_right_bot] in
          let pts := push pts (tl arcC_bot) in
          let pts := push pts [L_bot] in
          let pts := push pts (tl arcL_out) in
          Some (Pts pts)
      | _, _, _, _ => None
      end
  end end.

(** ** Validation *)

Record valid : Type := {
  idDia : number;
  boltDia : number;
  cc : number;
  boltEdgeToOD : number;
  idEdgeToOD : number;
  idR : number;
  boltR : number;
  RboltOuter : number;
  RidOuter : number;
  odPts : list point
}.

Inductive outcome : Type :=
  | Errors (errors : list string)
  | Passed (v : valid).

Definition push_if (c : bool) (msg : string) (errors : list string)
  : list string :=
  if c then push errors [msg] else errors.

Definition CONTAINED : string :=
  "OD offsets create a contained-circle condition — cannot form straight tangent lines. Adjust OD offsets or spacing.".

(** One click on Validate; no value when [buildOD] has none. *)
Definition validate (f : Form) : option outcome :=
  let idDia := parseInches (f "idDia") in
  let boltDia := parseInches (f "boltDia") in
  let cc := parseInches (f "cc") in
  let boltEdgeToOD := parseInches (f "boltEdgeToOD") in
  let idEdgeToOD := parseInches (f "idEdgeToOD") in
  let errors := [] in
  let errors := push_if (negb (Number_isFinite idDia) || (idDia <=? num 0))
                  "Center ID Diameter must be a positive number." errors in
  let errors := push_if (negb (Number_isFinite boltDia) || (boltDia <=? num 0))
                  "Bolt Hole Diameter must be a positive number." errors in
  let errors := push_if (negb (Number_isFinite cc) || (cc <=? num 0))
                  "Bolt Hole Center To Center must be a positive number." errors in
  let errors := push_if (negb (Number_isFinite boltEdgeToOD)
                         || (boltEdgeToOD <? num 0))
                  "Bolt Hole Edge To OD must be zero or a positive number." errors in
  let errors := push_if (negb (Number_isFinite idEdgeToOD)
                         || (idEdgeToOD <? num 0))
                  "ID Edge To OD must be zero or a positive number." errors in
  if negb (Nat.eqb (List.length errors) 0) then Some (Errors errors)
  else
    let idR := idDia / num 2 in
    let boltR := boltDia / num 2 in
    let errors := push_if (cc <=? boltDia)
                    "Bolt holes are touching/overlapping each other." errors in
    let errors := push_if ((cc / num 2) <=? (boltR + idR))
                    "Bolt holes are touching/overlapping the center ID hole."
                    errors in
    if negb (Nat.eqb (List.length errors) 0) then Some (Errors errors)
    else
      let RboltOuter := boltR + boltEdgeToOD in
      let RidOuter := idR + idEdgeToOD in
      let d := cc / num 2 in
      if d <=? Math_abs (RboltOuter - RidOuter) then Some (Errors [CONTAINED])
      else
        match buildOD cc RboltOuter RidOuter with
        | None => None
        | Some (Error e) => Some (Errors [e])
        | Some (Pts odPts) =>
            Some (Passed {| idDia := idDia; boltDia := boltDia; cc := cc;
                            boltEdgeToOD := boltEdgeToOD;
                            idEdgeToOD := idEdgeToOD;
                            idR := idR; boltR := boltR;
                            RboltOuter := RboltOuter; RidOuter := RidOuter;
                            odPts := odPts |})
        end.

Definition errorStatus (errors : list string) : string :=
  "ERRORS: " ++ join " " errors.

Definition validateAndPreview (p : page valid) : option (page valid) :=
  match validate (form p) with
  | None => None
  | Some (Errors _) => Some {| form := form p; lastValid := None |}
  | Some (Passed v) => Some {| form := form p; lastValid := Some v |}
  end.

(** ** Download *)

Definition drawing_lines (v : valid) : list string :=
  (dxfHeader_lines
   ++ dxfPolyline_lines (odPts v) "Perimeter" true
   ++ dxfCircle_lines (num 0) (num 0) (idR v) "Holes"
   ++ dxfCircle_lines (- cc v / num 2) (num 0) (boltR v) "Holes"
   ++ dxfCircle_lines (cc v / num 2) (num 0) (boltR v) "Holes"
   ++ dxfFooter_lines)%list.

Definition downloadDXF (p : page valid) : option string :=
  let name := trim (form p "filename") in
  if is_empty name then None
  else
    match lastValid p with
    | None => None
    | Some v =>
        let dxf := "" in
        let dxf := dxf ++ dxfHeader in
        let dxf := dxf ++ dxfPolyline (odPts v) "Perimeter" true in
        let dxf := dxf ++ dxfCircle (num 0) (num 0) (idR v) "Holes" in
        let dxf := dxf ++ dxfCircle (- cc v / num 2) (num 0) (boltR v) "Holes" in
        let dxf := dxf ++ dxfCircle (cc v / num 2) (num 0) (boltR v) "Holes" in
        let dxf := dxf ++ dxfFooter in
        Some dxf
    end.

End Geometry.

(** ** The extents of the outline *)

Record box : Type := {
  minX : number;
  maxX : number;
  minY : number;
  maxY : number;
  w : number;
  h : number
}.

Definition extents (points : list point) : box :=
  let '(minX, maxX, minY, maxY) :=
    fold_left
      (fun '(minX, maxX, minY, maxY) '(x, y) =>
         (Math_min minX x, Math_max maxX x, Math_min minY y, Math_max maxY y))
      points (PosInf, NegInf, PosInf, NegInf) in
  {| minX := minX; maxX := maxX; minY := minY; maxY := maxY;
     w := maxX - minX; h := maxY - minY |}.

(** ** The listeners of the inputs *)

(** The elements whose [input] event clears the validated geometry. *)
Definition INPUTS : list string :=
  [ "idDia"; "boltDia"; "cc"; "boltEdgeToOD"; "idEdgeToOD" ].

(** The element [id] takes the value [text], and its [input] listener, if
    it has one that touches the page, runs. *)
Definition input (id text : string) (p : page valid) : page valid :=
  let f := set_value (form p) id text in
  if existsb (String.eqb id) INPUTS
  then {| form := f; lastValid := None |}
  else {| form := f; lastValid := lastValid p |}.

End Jumper.

(* ================================================================== *)
(** * A rational [Math] object *)
(* ================================================================== *)

(** A [Math] object that computes: series on a grid of [2^-64], good to some
    eighteen digits.  It serves to run the generators on concrete inputs. *)

Module Approx.

Definition grid : Z := (2 ^ 64)%Z.

(** The nearest multiple of [2^-64]. *)
Definition rnd (q : Q) : Q :=
  Qred (Qfloor (q * inject_Z grid + (1 # 2)) # Z.to_pos grid).

Definition pi : Q := 884279719003555 # 281474976710656.

(** The least multiple of [1 / (den * 2^64)] whose square is at least [q]. *)
Definition sqrt_up (q : Q) : Q :=
  let n := Qnum q in
  let d := Zpos (Qden q) in
  if (n <=? 0)%Z then 0
  else Qred (Z.sqrt_up (n * d * (grid * grid)) # Z.to_pos (d * grid)).

(** [sum_{k < terms} (-1)^k x^(2k+i) / (2k+i)!], the term in hand being
    [t] with its index [j]. *)
Fixpoint series (terms : nat) (x2 t : Q) (j : Z) (acc : Q) : Q :=
  match terms with
  | O => acc
  | S terms' =>
      let t' := rnd (- (t * x2) / inject_Z ((j + 1) * (j + 2))) in
      series terms' x2 t' (j + 2)%Z (acc + t)
  end.

(** The argument brought into [[-pi, pi]]. *)
Definition reduce (x : Q) : Q :=
  rnd (x - 2 * pi * inject_Z (Qfloor (x / (2 * pi) + (1 # 2)))).

Definition cosQ (x : Q) : Q :=
  let x := reduce x in rnd (series 18 (x * x) 1 0 0).

Definition sinQ (x : Q) : Q :=
  let x := reduce x in rnd (series 18 (x * x) x 1 0).

(** [sum_{k < terms} (-1)^k t^(2k+1) / (2k+1)]. *)
Fixpoint atan_series (terms : nat) (t2 p : Q) (j : Z) (acc : Q) : Q :=
  match terms with
  | O => acc
  | S terms' =>
      atan_series terms' t2 (rnd (- (p * t2))) (j + 2)%Z (acc + p / inject_Z j)
  end.

(** [atan t = 2 atan (t / (1 + sqrt (1 + t^2)))]. *)
Definition halve (t : Q) : Q := rnd (t / (1 + sqrt_up (1 + t * t))).

Definition atan_small (t : Q) : Q :=
  let u := halve (halve (halve t)) in
  rnd (8 * atan_series 14 (u * u) u 1 0).

Definition atanQ (t : Q) : Q :=
  if Qle_bool (Qabs t) 1 then atan_small t
  else if Qle_bool 0 t then rnd (pi / 2 - atan_small (1 / t))
  else rnd (- (pi / 2) - atan_small (1 / t)).

Definition atan2Q (y x : Q) : Q :=
  if Qposb x then atanQ (y / x)
  else if Qnegb x then
    (if Qle_bool 0 y then rnd (atanQ (y / x) + pi) else rnd (atanQ (y / x) - pi))
  else if Qposb y then rnd (pi / 2)
  else if Qnegb y then rnd (- (pi / 2))
  else 0.

Definition lift1 (f : Q -> Q) (x : number) : number :=
  match x with Fin q => fin (f q) | _ => NaN end.

Definition cos (x : number) : number := lift1 cosQ x.

Definition sin (x : number) : number := lift1 sinQ x.

Definition acos (x : number) : number :=
  match x with
  | Fin k =>
      if Qle_bool (Qabs k) 1 then fin (atan2Q (sqrt_up (1 - k * k)) k)
      else NaN
  | _ => NaN
  end.

Definition atan2 (y x : number) : number :=
  match y, x with
  | Fin y, Fin x => fin (atan2Q y x)
  | _, _ => NaN
  end.

Definition hypot (x y : number) : number :=
  match x, y with
  | Fin x, Fin y => fin (sqrt_up (x * x + y * y))
  | NaN, Fin _ | Fin _, NaN | NaN, NaN => NaN
  | _, _ => PosInf
  end.

Definition RationalMath : MathObject :=
  {| Math_cos := cos;
     Math_sin := sin;
     Math_acos := acos;
     Math_atan2 := atan2;
     Math_hypot := hypot |}.

End Approx.

(* ================================================================== *)
(** * Properties *)
(* ================================================================== *)

Unset Implicit Arguments.

(** ** Values of numbers *)

(** [x] is finite and its value is [q]. *)
Definition is_val (x : number) (q : Q) : Prop :=
  exists q', x = Fin q' /\ q' == q.

Lemma fin_val q : is_val (fin q) q.
Proof. exists (Qred q). split; [reflexivity | apply Qred_correct]. Qed.

Lemma Fin_val q : is_val (Fin q) q.
Proof. exists q. split; reflexivity. Qed.

Lemma num_val z : is_val (num z) (inject_Z z).
Proof. apply Fin_val. Qed.

Lemma is_val_eq x a b : is_val x a -> a == b -> is_val x b.
Proof. intros (a' & -> & Ha) H. exists a'. split; [reflexivity|]. rewrite Ha. exact H. Qed.

Lemma fin_eq a b : a == b -> fin a = fin b.
Proof. intro H. unfold fin. f_equal. apply Qred_complete, H. Qed.

Lemma add_val x y a b : is_val x a -> is_val y b -> is_val (x + y) (a + b).
Proof.
  intros (a' & -> & Ha) (b' & -> & Hb). simpl.
  exists (Qred (a' + b')). split; [reflexivity|].
  rewrite Qred_correct, Ha, Hb. reflexivity.
Qed.

Lemma neg_val x a : is_val x a -> is_val (- x) (- a).
Proof.
  intros (a' & -> & Ha). simpl. exists (Qred (- a')). split; [reflexivity|].
  rewrite Qred_correct, Ha. reflexivity.
Qed.

Lemma sub_val x y a b : is_val x a -> is_val y b -> is_val (x - y) (a - b).
Proof. intros. unfold sub. apply add_val; [|apply neg_val]; assumption. Qed.

Lemma mul_val x y a b : is_val x a -> is_val y b -> is_val (x * y) (a * b).
Proof.
  intros (a' & -> & Ha) (b' & -> & Hb). simpl.
  exists (Qred (a' * b')). split; [reflexivity|].
  rewrite Qred_correct, Ha, Hb. reflexivity.
Qed.

Lemma Qzerob_false q : ~ q == 0 -> Qzerob q = false.
Proof.
  intro H. unfold Qzerob. destruct (Qeq_bool q 0) eqn:E; [|reflexivity].
  apply Qeq_bool_eq in E. contradiction.
Qed.

Lemma Qzerob_true q : q == 0 -> Qzerob q = true.
Proof. intro H. unfold Qzerob. apply Qeq_eq_bool, H. Qed.

Lemma div_val x y a b :
  is_val x a -> is_val y b -> ~ b == 0 -> is_val (x / y) (a / b).
Proof.
  intros (a' & -> & Ha) (b' & -> & Hb) Hnz. simpl.
  rewrite Qzerob_false by (rewrite Hb; exact Hnz).
  exists (Qred (a' / b')). split; [reflexivity|].
  rewrite Qred_correct, Ha, Hb. reflexivity.
Qed.

Lemma PI_val : is_val Math_PI Approx.pi.
Proof. apply Fin_val. Qed.

Lemma pi_bounds : 3 < Approx.pi /\ Approx.pi < 4.
Proof. unfold Approx.pi. split; reflexivity. Qed.

Create HintDb values.

#[local] Hint Resolve fin_val Fin_val num_val add_val neg_val sub_val mul_val
  PI_val : values.

Lemma le_val x y a b : is_val x a -> is_val y b -> (x <=? y) = true <-> a <= b.
Proof.
  intros (a' & -> & Ha) (b' & -> & Hb). simpl.
  rewrite Qle_bool_iff, Ha, Hb. reflexivity.
Qed.

Lemma lt_val x y a b : is_val x a -> is_val y b -> (x <? y) = true <-> a < b.
Proof.
  intros (a' & -> & Ha) (b' & -> & Hb). simpl.
  rewrite negb_true_iff, <- not_true_iff_false, Qle_bool_iff, Ha, Hb.
  split; [apply Qnot_le_lt | apply Qlt_not_le].
Qed.

Lemma Qtrunc_zero q : q == 0 -> Qtrunc q = 0%Z.
Proof.
  intro H. unfold Qtrunc. unfold Qeq in H. simpl in H.
  assert (E : Qnum q = 0%Z) by lia. rewrite E. apply Z.quot_0_l. discriminate.
Qed.

Lemma Qtrunc_one q : q == 1 -> Qtrunc q = 1%Z.
Proof.
  intro H. unfold Qtrunc. unfold Qeq in H. simpl in H.
  assert (E : Qnum q = Zpos (Qden q)) by lia. rewrite E.
  apply Z.quot_same. discriminate.
Qed.

(** [0 % t] and [t % t] are both [0]. *)
Lemma rem_zero t : ~ t == 0 -> (Fin 0 %% Fin t) = Fin 0.
Proof.
  intro Ht. unfold rem. rewrite (Qzerob_false _ Ht).
  rewrite (Qtrunc_zero (0 / t)) by (field; exact Ht).
  change (Fin 0) with (fin 0). apply fin_eq. simpl. ring.
Qed.

Lemma rem_self t : ~ t == 0 -> (Fin t %% Fin t) = Fin 0.
Proof.
  intro Ht. unfold rem. rewrite (Qzerob_false _ Ht).
  rewrite (Qtrunc_one (t / t)) by (field; exact Ht).
  change (Fin 0) with (fin 0). apply fin_eq. simpl. ring.
Qed.

(** ** The obround parameterisation (firetube) *)

Section Obround.

Context {M : MathObject}.

Lemma obroundPerimeter_val L W :
  is_val (Firetube.obroundPerimeter (Fin L) (Fin W))
         (2 * (L - W) + Approx.pi * W).
Proof.
  unfold Firetube.obroundPerimeter.
  eapply is_val_eq.
  - apply add_val; [apply mul_val; [apply num_val | apply sub_val; apply Fin_val]|].
    apply mul_val; [apply mul_val; [apply num_val | apply PI_val]|].
    apply div_val; [apply Fin_val | apply num_val | discriminate].
  - simpl. field.
Qed.

(** C9.  For all [L >= W > 0] the arc-length parameterisation of the
    obround closes up: the point at arc length [0] and the point at arc
    length [P(L, W)] are the same point, where the perimeter is
    [P(L, W) = 2 (L - W) + pi W]. *)
Theorem obround_closes (L W : Q) :
  0 < W -> W <= L ->
  Firetube.perimeterPointObround (Fin L) (Fin W) (num 0)
  = Firetube.perimeterPointObround (Fin L) (Fin W)
      (Firetube.obroundPerimeter (Fin L) (Fin W))
  /\ is_val (Firetube.obroundPerimeter (Fin L) (Fin W))
            (2 * (L - W) + Approx.pi * W).
Proof.
  intros HW HL. split; [|apply obroundPerimeter_val].
  destruct (obroundPerimeter_val L W) as (t & Ht & Hv).
  assert (Hnz : ~ t == 0).
  { rewrite Hv. pose proof pi_bounds as [Hp _]. nra. }
  unfold Firetube.perimeterPointObround.
  rewrite Ht. unfold Firetube.obroundPerimeter in Ht. rewrite Ht.
  change (num 0) with (Fin 0).
  rewrite (rem_zero _ Hnz), (rem_self _ Hnz). reflexivity.
Qed.

End Obround.

Lemma obround_closes_witness :
  0 < 3 /\ 2 <= 3 /\
  Firetube.perimeterPointObround (M := Approx.RationalMath) (Fin 3) (Fin 2) (num 0)
  = Firetube.perimeterPointObround (M := Approx.RationalMath) (Fin 3) (Fin 2)
      (Firetube.obroundPerimeter (Fin 3) (Fin 2)).
Proof.
  split; [reflexivity|]. split; [discriminate|].
  apply (@obround_closes Approx.RationalMath 3 2); [reflexivity | discriminate].
Defined.

(** ** Strings of digits *)

Fixpoint all_chars (p : ascii -> bool) (s : string) : bool :=
  match s with
  | EmptyString => true
  | String c s' => p c && all_chars p s'
  end.

Lemma span_fst_all p s : all_chars p (fst (span p s)) = true.
Proof.
  induction s as [|c s IH]; simpl; [reflexivity|].
  destruct (p c) eqn:E; [|reflexivity].
  destruct (span p s) as [a b]. simpl in *. rewrite E, IH. reflexivity.
Qed.



Lemma digit_value_bounds c :
  is_digit c = true -> (0 <= digit_value c <= 9)%Z.
Proof.
  unfold is_digit, digit_value. intro H.
  apply andb_prop in H as [H1 H2].
  apply Nat.leb_le in H1. apply Nat.leb_le in H2. lia.
Qed.

Lemma digits_value_nonneg s : forall acc,
  all_chars is_digit s = true -> (0 <= acc)%Z -> (0 <= digits_value acc s)%Z.
Proof.
  induction s as [|c s IH]; cbn [digits_value all_chars];
    intros acc H Hacc; [exact Hacc|].
  apply andb_prop in H as [Hc Hs].
  apply IH; [exact Hs|]. pose proof (digit_value_bounds _ Hc). lia.
Qed.


Lemma parseInt_shape s : parseInt s = NaN \/ exists z, parseInt s = num z.
Proof.
  unfold parseInt.
  destruct (match trimStart s with
            | String "-"%char r => (true, r)
            | String "+"%char r => (false, r)
            | _ => (false, trimStart s)
            end) as [negative body].
  destruct (span is_digit body) as [d rest].
  destruct (is_empty d); [left; reflexivity|].
  right. eexists. reflexivity.
Qed.

(** No hole count is infinite. *)
Lemma parseInt_not_infinite s : parseInt s <> PosInf /\ parseInt s <> NegInf.
Proof.
  destruct (parseInt_shape s) as [-> | [z ->]]; split; discriminate.
Qed.

(** ** The firetube parser returns finite numbers *)





(** ** Reading the firetube page *)





(** ** The constraints of the firetube validator *)

Definition OVERLAP : string :=
  "Bolt holes overlap: Bolt Hole Center To Center is not large enough for the hole diameter.".

(** The constraints that [computeInputs] checks on the parsed values, each
    with the truth of its violation, in the order of the code. *)
Definition constraints (i : Firetube.inputs) : list (bool * string) :=
  let P := Firetube.obroundPerimeter (Firetube.bcLong i) (Firetube.bcShort i) in
  [ (Firetube.odLong i <? Firetube.odShort i,
     "Long Side OD must be the same as or larger than Short Side OD.");
    (Firetube.idLong i <? Firetube.idShort i,
     "Long Side ID must be the same as or larger than Short Side ID.");
    (Firetube.bcLong i <? Firetube.bcShort i,
     "Long Side BC must be the same as or larger than Short Side BC.");
    ((Firetube.idLong i >=? Firetube.odLong i)
     || (Firetube.idShort i >=? Firetube.odShort i),
     "ID must be smaller than OD.");
    ((Firetube.bcLong i >? Firetube.odLong i)
     || (Firetube.bcShort i >? Firetube.odShort i),
     "BC must fit inside OD.");
    (negb (Firetube.holeCount i >? num 0),
     "Hole count must be greater than zero.");
    (negb (Firetube.holeDia i >? num 0),
     "Hole diameter must be greater than zero.");
    (P / Firetube.holeCount i <=? Firetube.holeDia i, OVERLAP) ].

(** Every violated constraint: what a validator that accumulates would
    report. *)
Definition violations (i : Firetube.inputs) : list string :=
  map snd (filter fst (constraints i)).

(** What a run reports. *)
Definition reported {A : Type} (r : result A) : list string :=
  match r with
  | Return _ => []
  | Throw m => [m]
  end.

(** [checkInputs] throws the first violated constraint, and only that one. *)
Lemma checkInputs_first i :
  Firetube.checkInputs i
  = match violations i with
    | [] => Return i
    | m :: _ => Throw m
    end.
Proof.
  unfold Firetube.checkInputs, violations, constraints. cbn [filter map fst snd].
  destruct (Firetube.odLong i <? Firetube.odShort i); [reflexivity|].
  destruct (Firetube.idLong i <? Firetube.idShort i); [reflexivity|].
  destruct (Firetube.bcLong i <? Firetube.bcShort i); [reflexivity|].
  destruct ((Firetube.idLong i >=? Firetube.odLong i)
            || (Firetube.idShort i >=? Firetube.odShort i)); [reflexivity|].
  destruct ((Firetube.bcLong i >? Firetube.odLong i)
            || (Firetube.bcShort i >? Firetube.odShort i)); [reflexivity|].
  destruct (negb (Firetube.holeCount i >? num 0)); [reflexivity|].
  destruct (negb (Firetube.holeDia i >? num 0)); [reflexivity|].
  cbn zeta.
  destruct (Firetube.obroundPerimeter (Firetube.bcLong i) (Firetube.bcShort i)
            / Firetube.holeCount i <=? Firetube.holeDia i); reflexivity.
Qed.





Section FiretubeValidation.

Context {M : MathObject}.




(** ** Hole placement *)


Lemma nth_error_map_seq A (g : nat -> A) n k :
  (k < n)%nat -> nth_error (map g (List.seq 0 n)) k = Some (g k).
Proof.
  intro H. rewrite nth_error_map, nth_error_seq.
  destruct (Nat.ltb_spec k n); [reflexivity | lia].
Qed.


End FiretubeValidation.




Definition firetube_inputs : Firetube.inputs :=
  {| Firetube.odLong := Fin 12; Firetube.odShort := Fin 8;
     Firetube.idLong := Fin 6; Firetube.idShort := Fin 2;
     Firetube.bcLong := Fin 9; Firetube.bcShort := Fin 5;
     Firetube.holeCount := Fin 8; Firetube.holeDia := Fin (1 # 2);
     Firetube.centerMode := "off" |}.


(** ** Accumulated and first-only error reports *)

(** The messages of the checks that failed, in order. *)
Definition violated (checks : list (bool * string)) : list string :=
  map snd (filter fst checks).

Definition one_check (c : bool) (m : string) : list string :=
  if c then [m] else [].

(** The basic numeric checks of the flange validator, each with the truth of
    its failure, in the order of the code. *)
Definition basic_checks (f : Form) : list (bool * string) :=
  let v := Flange.read f in
  ([ (Flange.not_positive (Flange.odX v), "OD X must be a positive number.");
     (Flange.not_positive (Flange.odY v), "OD Y must be a positive number.");
     (negb (is_empty (trim (f "cornerR")))
      && (negb (Number_isFinite (Flange.cornerR v))
          || (Flange.cornerR v <? num 0)),
      "Corner Radius must be blank or a non-negative number.");
     (Number_isFinite (Flange.odX v) && Number_isFinite (Flange.odY v)
      && Number_isFinite (Flange.cornerR v)
      && negb (Flange.clampRadius (Flange.cornerR v) (Flange.odX v) (Flange.odY v)
               === Flange.cornerR v),
      "Corner Radius is too large for the OD.");
     (Flange.not_positive (Flange.bhCCX v),
      "Bolt Hole Center To Center X must be a positive number.");
     (Flange.not_positive (Flange.bhCCY v),
      "Bolt Hole Center To Center Y must be a positive number.");
     (Flange.not_positive (Flange.bhDia v),
      "Bolt Hole Diameter must be a positive number.") ]
   ++ (if String.eqb (Flange.cutoutType v) "circle" then
         [ (Flange.not_positive (Flange.cutoutDia v),
            "Center Cutout Diameter must be a positive number.") ]
       else
         [ (Flange.not_positive (Flange.cutoutX v),
            "Center Cutout X must be a positive number.");
           (Flange.not_positive (Flange.cutoutY v),
            "Center Cutout Y must be a positive number.");
           (negb (is_empty (trim (f "cutoutR")))
            && (negb (Number_isFinite (Flange.cutoutR v))
                || (Flange.cutoutR v <? num 0)),
            "Center Cutout Corner Radius must be blank or a non-negative number.");
           (Number_isFinite (Flange.cutoutX v) && Number_isFinite (Flange.cutoutY v)
            && Number_isFinite (Flange.cutoutR v)
            && negb (Flange.clampRadius (Flange.cutoutR v) (Flange.cutoutX v)
                       (Flange.cutoutY v)
                     === Flange.cutoutR v),
            "Center Cutout Corner Radius is too large for the cutout.") ]))%list.

Section FlangeChecks.

Context {M : MathObject}.

(** The clearance checks of the flange validator. *)
Definition clearance_checks (f : Form) : list (bool * string) :=
  let v := Flange.read f in
  let holeR := Flange.bhDia v / num 2 in
  let holeCenters :=
    Flange.holeCentersOf (Flange.bhCCX v / num 2) (Flange.bhCCY v / num 2) in
  let odR := or_zero (Flange.cornerR v) in
  let circle := String.eqb (Flange.cutoutType v) "circle" in
  [ (Flange.minGap
       (fun x y => Flange.gapCircleToRoundedOD x y holeR
                     (Flange.odX v) (Flange.odY v) odR)
       holeCenters <=? num 0,
     "Bolt holes are touching or outside the OD.");
    (Flange.bhCCX v <=? Flange.bhDia v,
     "Bolt holes are touching/overlapping each other on X spacing.");
    (Flange.bhCCY v <=? Flange.bhDia v,
     "Bolt holes are touching/overlapping each other on Y spacing.");
    ((if circle then
        Flange.gapCircleToRoundedOD (num 0) (num 0) (Flange.cutoutDia v / num 2)
          (Flange.odX v) (Flange.odY v) odR
      else
        Flange.minGap
          (fun x y => Flange.gapCircleToRoundedOD x y (num 0)
                        (Flange.odX v) (Flange.odY v) odR)
          (Flange.roundedRectPoints (Flange.cutoutX v) (Flange.cutoutY v)
             (or_zero (Flange.cutoutR v)) 24)) <=? num 0,
     "Center cutout is touching or outside the OD.");
    ((if circle then
        Flange.minGap
          (fun x y => Math_hypot x y - (holeR + Flange.cutoutDia v / num 2))
          holeCenters
      else
        Flange.minGap
          (fun x y => Flange.gapCircleToCenterCutoutRoundedRect x y holeR
                        (Flange.cutoutX v) (Flange.cutoutY v)
                        (or_zero (Flange.cutoutR v)))
          holeCenters) <=? num 0,
     "Bolt holes are touching/overlapping the center cutout.") ].

Lemma push_if_app c m errors :
  Flange.push_if c m errors = (errors ++ one_check c m)%list.
Proof.
  unfold Flange.push_if, push, one_check. destruct c;
    [reflexivity | rewrite app_nil_r; reflexivity].
Qed.

Lemma violated_cons c m l :
  violated ((c, m) :: l) = (one_check c m ++ violated l)%list.
Proof. unfold violated. destruct c; reflexivity. Qed.

Lemma violated_app l1 l2 :
  violated (l1 ++ l2) = (violated l1 ++ violated l2)%list.
Proof. unfold violated. rewrite filter_app, map_app. reflexivity. Qed.

Lemma basicErrors_all f : Flange.basicErrors f = violated (basic_checks f).
Proof.
  unfold Flange.basicErrors, basic_checks.
  destruct (String.eqb (Flange.cutoutType (Flange.read f)) "circle");
    cbv zeta; rewrite !push_if_app, violated_app, !violated_cons;
    change (violated []) with (@nil string);
    rewrite <- ?app_assoc, ?app_nil_r; reflexivity.
Qed.

Lemma clearanceErrors_all f :
  Flange.clearanceErrors f = violated (clearance_checks f).
Proof.
  unfold Flange.clearanceErrors, clearance_checks.
  destruct (String.eqb (Flange.cutoutType (Flange.read f)) "circle");
    cbv zeta; rewrite !push_if_app, !violated_cons;
    change (violated []) with (@nil string);
    rewrite <- ?app_assoc, ?app_nil_r; reflexivity.
Qed.

Lemma length_zero_nil A (l : list A) :
  Nat.eqb (List.length l) 0 = true <-> l = [].
Proof.
  destruct l; simpl; split; intro H; try reflexivity; discriminate.
Qed.

(** C1 (as the code has it).  The flange validator accumulates: its basic
    checks report every one that failed, in one list; only when that list
    is empty are the clearance checks run, and again every one that failed
    is reported; validation fails exactly when the list in hand is not
    empty.  The firetube validator does not accumulate: [computeInputs]
    throws the first violated constraint and reports that one only. *)
Theorem errors_reported :
  (forall f : Form,
     Flange.basicErrors f = violated (basic_checks f)
     /\ Flange.clearanceErrors f = violated (clearance_checks f)
     /\ match Flange.validate f with
        | Flange.Errors es =>
            es <> []
            /\ (es = violated (basic_checks f)
                \/ (violated (basic_checks f) = []
                    /\ es = violated (clearance_checks f)))
        | Flange.Passed _ =>
            violated (basic_checks f) = []
            /\ violated (clearance_checks f) = []
        end)
  /\ (forall i : Firetube.inputs,
        Firetube.checkInputs i
        = match violations i with
          | [] => Return i
          | m :: _ => Throw m
          end)
  /\ (forall (f : Form) (i : Firetube.inputs) (f' : Form),
        Firetube.readInputs f = (Return i, f') ->
        reported (fst (Firetube.computeInputs f)) = firstn 1 (violations i)).
Proof.
  split; [|split].
  - intro f. split; [apply basicErrors_all|]. split; [apply clearanceErrors_all|].
    unfold Flange.validate.
    rewrite <- basicErrors_all, <- clearanceErrors_all.
    destruct (Nat.eqb (List.length (Flange.basicErrors f)) 0) eqn:Eb; simpl.
    + apply length_zero_nil in Eb.
      destruct (Nat.eqb (List.length (Flange.clearanceErrors f)) 0) eqn:Ec; simpl.
      * apply length_zero_nil in Ec. auto.
      * split; [|right; auto].
        intro E. rewrite E in Ec. discriminate.
    + split; [|left; reflexivity].
      intro E. rewrite E in Eb. discriminate.
  - apply checkInputs_first.
  - intros f i f' Hr. unfold Firetube.computeInputs, dbind. rewrite Hr.
    unfold lift. cbn [fst]. rewrite checkInputs_first.
    destruct (violations i); reflexivity.
Qed.

End FlangeChecks.

(** C1 as the specification states it, for the firetube validator: the
    report of a validation is the list of every violated constraint. *)
Definition accumulates_all_errors : Prop :=
  forall (f : Form) (i : Firetube.inputs) (f' : Form),
    Firetube.readInputs f = (Return i, f') ->
    reported (fst (Firetube.computeInputs f)) = violations i.

(** A firetube page whose OD and ID both have the long side shorter than
    the short side. *)
Definition two_faults : Form :=
  filled [ ("odLong", "8"); ("odShort", "12");
           ("idLong", "2"); ("idShort", "6");
           ("bcLong", "5"); ("bcShort", "5");
           ("holeCount", "4"); ("holeDia", "1/2");
           ("centerMode", "on") ].

Definition two_faults_inputs : Firetube.inputs :=
  {| Firetube.odLong := Fin 8; Firetube.odShort := Fin 12;
     Firetube.idLong := Fin 2; Firetube.idShort := Fin 6;
     Firetube.bcLong := Fin 5; Firetube.bcShort := Fin 5;
     Firetube.holeCount := Fin 4; Firetube.holeDia := Fin (1 # 2);
     Firetube.centerMode := "on" |}.

Lemma two_faults_read :
  Firetube.readInputs two_faults = (Return two_faults_inputs, two_faults).
Proof. reflexivity. Qed.

(** Two constraints are violated and one is reported. *)
Lemma firetube_stops_at_first_error :
  reported (fst (Firetube.computeInputs two_faults))
  = [ "Long Side OD must be the same as or larger than Short Side OD." ]
  /\ violations two_faults_inputs
     = [ "Long Side OD must be the same as or larger than Short Side OD.";
         "Long Side ID must be the same as or larger than Short Side ID." ]
  /\ ~ accumulates_all_errors.
Proof.
  split; [reflexivity|]. split; [reflexivity|].
  intro H. specialize (H _ _ _ two_faults_read). discriminate H.
Qed.

(** ** The grammar of a DXF text *)

(** A group code is a line of digits. *)
Definition is_group_code (s : string) : bool :=
  negb (is_empty s) && all_chars is_digit s.

(** The lines taken two by two, as (group code, value); nothing when a line
    is left over or a code position does not hold a group code. *)
Fixpoint records (lines : list string) : option (list (string * string)) :=
  match lines with
  | [] => Some []
  | code :: value :: rest =>
      if is_group_code code then
        match records rest with
        | Some rs => Some ((code, value) :: rs)
        | None => None
        end
      else None
  | [_] => None
  end.

(** What the firetube generator writes before the entities. *)
Definition firetube_preamble : list string :=
  [ "0"; "SECTION"; "2"; "HEADER";
    "9"; "$INSUNITS"; "70"; "1";
    "0"; "ENDSEC";
    "0"; "SECTION"; "2"; "TABLES";
    "0"; "TABLE"; "2"; "LAYER"; "70"; "2";
    "0"; "TABLE"; "2"; "LAYER"; "70";
    "0"; "TABLE"; "2"; "LAYER"; "70"; "2";
    "0"; "LAYER"; "2"; "Perimeter"; "70"; "0"; "62"; "7"; "6"; "CONTINUOUS";
    "0"; "LAYER"; "2"; "Holes"; "70"; "0"; "62"; "7"; "6"; "CONTINUOUS";
    "0"; "ENDTAB";
    "0"; "ENDSEC";
    "0"; "SECTION"; "2"; "ENTITIES" ].

Lemma addObroundOutline_shape dxf layer L W ox oy dxf' :
  Firetube.addObroundOutline dxf layer L W ox oy = Return dxf' ->
  exists added, dxf' = (dxf ++ added)%list /\ List.length added = 64%nat.
Proof.
  unfold Firetube.addObroundOutline.
  destruct (L <? W); [discriminate|].
  intro H. inversion H. clear H.
  unfold Firetube.addLine, Firetube.addArc, push.
  rewrite <- !app_assoc. eexists. split; reflexivity.
Qed.

Lemma addCircles_shape cs : forall dxf layer r,
  exists added,
    Firetube.addCircles dxf layer cs r = (dxf ++ added)%list
    /\ List.length added = (12 * List.length cs)%nat.
Proof.
  induction cs as [|[x y] cs IH]; intros dxf layer r.
  - exists []. split; [symmetry; apply app_nil_r | reflexivity].
  - cbn [Firetube.addCircles].
    destruct (IH (Firetube.addCircle dxf layer x y r) layer r) as (added & E & Hl).
    rewrite E. unfold Firetube.addCircle, push. rewrite <- app_assoc.
    eexists. split; [reflexivity|].
    rewrite length_app, Hl. cbn [List.length]. lia.
Qed.

(** Every firetube drawing starts with [firetube_preamble], and what
    follows has an even number of lines. *)
Lemma buildDXF_lines_shape i holeCenters lines :
  Firetube.buildDXF_lines i holeCenters = Return lines ->
  exists rest,
    lines = (firetube_preamble ++ rest)%list
    /\ Nat.even (List.length rest) = true.
Proof.
  unfold Firetube.buildDXF_lines, bind. cbv zeta.
  match goal with
  | |- context [Firetube.addObroundOutline ?d "Perimeter" _ _ _ _] =>
      change d with firetube_preamble
  end.
  destruct (Firetube.addObroundOutline firetube_preamble "Perimeter" _ _ _ _)
    as [d1|] eqn:E1; [|discriminate].
  destruct (Firetube.addObroundOutline d1 "Holes" _ _ _ _)
    as [d2|] eqn:E2; [|discriminate].
  intro H. inversion H. clear H.
  apply addObroundOutline_shape in E1 as (a1 & -> & L1).
  apply addObroundOutline_shape in E2 as (a2 & -> & L2).
  destruct (addCircles_shape holeCenters
              ((firetube_preamble ++ a1) ++ a2)%list "Holes"
              (Firetube.holeDia i / num 2)) as (a3 & -> & L3).
  unfold push. rewrite <- !app_assoc.
  eexists. split; [reflexivity|].
  rewrite !length_app, L1, L2, L3. cbn [List.length].
  rewrite Nat.even_add, Nat.even_add, Nat.even_add, Nat.even_mul. reflexivity.
Qed.

(** C2 (the firetube writer breaks it).  In every drawing that [buildDXF]
    writes, the line after the second [70] of the TABLES section is not its
    value but the [0] of the next record: from there on the group codes
    stand where values should and the reverse ([TABLE] is at a code
    position), the lines cannot be taken two by two, and their number is
    odd. *)
Theorem firetube_dxf_misaligned (i : Firetube.inputs) (holeCenters : list point)
    (lines : list string) :
  Firetube.buildDXF_lines i holeCenters = Return lines ->
  nth_error lines 24 = Some "70"
  /\ nth_error lines 25 = Some "0"
  /\ nth_error lines 26 = Some "TABLE"
  /\ is_group_code "TABLE" = false
  /\ Nat.odd (List.length lines) = true
  /\ records lines = None.
Proof.
  intro H. apply buildDXF_lines_shape in H as (rest & -> & Hrest).
  split; [reflexivity|]. split; [reflexivity|]. split; [reflexivity|].
  split; [reflexivity|]. split.
  - rewrite length_app, Nat.odd_add. unfold Nat.odd. rewrite Hrest. reflexivity.
  - reflexivity.
Qed.

(** The header that ellipse.js, flange.js and jumper.js share has the shape
    that the firetube writer misses: one TABLE and one record per layer. *)
Lemma shared_header_records :
  records Shared.dxfHeader_lines
  = Some [ ("0", "SECTION"); ("2", "HEADER");
           ("9", "$ACADVER"); ("1", "AC1009");
           ("9", "$INSUNITS"); ("70", "1");
           ("0", "ENDSEC");
           ("0", "SECTION"); ("2", "TABLES");
           ("0", "TABLE"); ("2", "LAYER"); ("70", "2");
           ("0", "LAYER"); ("2", "Perimeter"); ("70", "0"); ("62", "7");
           ("6", "CONTINUOUS");
           ("0", "LAYER"); ("2", "Holes"); ("70", "0"); ("62", "7");
           ("6", "CONTINUOUS");
           ("0", "ENDTAB");
           ("0", "ENDSEC");
           ("0", "SECTION"); ("2", "ENTITIES") ].
Proof. reflexivity. Qed.

Lemma firetube_dxf_misaligned_witness :
  exists lines,
    Firetube.buildDXF_lines firetube_inputs [(Fin 2, Fin 0)] = Return lines
    /\ nth_error lines 26 = Some "TABLE"
    /\ Nat.odd (List.length lines) = true.
Proof.
  destruct (Firetube.buildDXF_lines firetube_inputs [(Fin 2, Fin 0)])
    as [lines|m] eqn:E; [|discriminate E].
  exists lines. split; [reflexivity|].
  destruct (firetube_dxf_misaligned _ _ _ E) as (_ & _ & H26 & _ & Hodd & _).
  split; assumption.
Defined.

(** ** Coordinates in the DXF text *)

(** The record of one vertex. *)
Definition vertex_lines (layer : string) (p : point) : list string :=
  [ "0"; "VERTEX"; "8"; layer; "10"; toString (fst p);
    "20"; toString (snd p); "30"; "0" ].

Lemma push_vertices_flat points : forall out layer,
  Shared.push_vertices out points layer
  = (out ++ flat_map (vertex_lines layer) points)%list.
Proof.
  induction points as [|[x y] points IH]; intros out layer.
  - symmetry. apply app_nil_r.
  - cbn [Shared.push_vertices flat_map]. rewrite IH. unfold push.
    rewrite <- app_assoc. reflexivity.
Qed.

Lemma dxfPolyline_lines_flat points layer closed :
  Shared.dxfPolyline_lines points layer closed
  = ([ "0"; "POLYLINE"; "8"; layer; "66"; "1";
       "70"; if closed then "1" else "0";
       "10"; "0"; "20"; "0"; "30"; "0" ]
     ++ flat_map (vertex_lines layer) points
     ++ [ "0"; "SEQEND" ])%list.
Proof.
  unfold Shared.dxfPolyline_lines. cbv zeta. rewrite push_vertices_flat.
  unfold push. rewrite <- app_assoc. reflexivity.
Qed.





(** ** The dimension parsers *)

(** How a parser reads a string: as nothing, as a mixed fraction, as a
    fraction or as a decimal, with the numbers its tokens convert to. *)
Inductive reading : Type :=
  | Empty
  | Mixed (whole n d : number)
  | Fraction (n d : number)
  | Decimal (v : number).

Definition shared_reading (str : string) : reading :=
  let s := trim str in
  if is_empty s then Empty
  else
    let s := collapse_whitespace (replace_char "-" " " s) in
    let parts := split " " s in
    if Nat.eqb (List.length parts) 2 && includes "/" (nth 1 parts "") then
      let nd := map Number (split "/" (nth 1 parts "")) in
      Mixed (Number (nth 0 parts "")) (nth 0 nd NaN) (nth 1 nd NaN)
    else if Nat.eqb (List.length parts) 1 && includes "/" s then
      let nd := map Number (split "/" s) in
      Fraction (nth 0 nd NaN) (nth 1 nd NaN)
    else Decimal (Number s).


(** The parse errors of the specification: the string is empty, a numeric
    token is not a finite number, a denominator is [0], or the decimal is
    not finite. *)
Definition parse_error (r : reading) : bool :=
  match r with
  | Empty => true
  | Mixed w n d =>
      negb (Number_isFinite w) || negb (Number_isFinite n)
      || negb (Number_isFinite d) || (d === num 0)
  | Fraction n d =>
      negb (Number_isFinite n) || negb (Number_isFinite d) || (d === num 0)
  | Decimal v => negb (Number_isFinite v)
  end.

Definition value_of (r : reading) : number :=
  match r with
  | Empty => NaN
  | Mixed w n d => w + n / d
  | Fraction n d => n / d
  | Decimal v => v
  end.

Lemma seq_zero_false_Q d : (Fin d === num 0) = false -> ~ d == 0.
Proof.
  unfold seq, num. change (inject_Z 0) with 0. intros H E.
  apply Qeq_eq_bool in E. congruence.
Qed.

(** A reading without parse error has a finite value. *)
Lemma value_of_finite r :
  parse_error r = false -> exists q, value_of r = Fin q.
Proof.
  destruct r as [|w n d|n d|v]; simpl.
  - discriminate.
  - destruct w as [| | |w]; try discriminate.
    destruct n as [| | |n]; try discriminate.
    destruct d as [| | |d]; try discriminate.
    cbn [Number_isFinite negb orb]. intro E. apply seq_zero_false_Q in E.
    destruct (add_val _ _ _ _ (Fin_val w) (div_val _ _ _ _ (Fin_val n) (Fin_val d) E))
      as (q & Hq & _).
    exists q. exact Hq.
  - destruct n as [| | |n]; try discriminate.
    destruct d as [| | |d]; try discriminate.
    cbn [Number_isFinite negb orb]. intro E. apply seq_zero_false_Q in E.
    destruct (div_val _ _ _ _ (Fin_val n) (Fin_val d) E) as (q & Hq & _).
    exists q. exact Hq.
  - destruct v as [| | |v]; try discriminate. intros _. exists v. reflexivity.
Qed.

Lemma shared_parse_reading str :
  Shared.parseInches str
  = if parse_error (shared_reading str) then NaN
    else value_of (shared_reading str).
Proof.
  unfold Shared.parseInches, shared_reading.
  destruct (is_empty (trim str)); [reflexivity|]. cbv zeta.
  destruct (Nat.eqb _ 2 && includes "/" _); [reflexivity|].
  destruct (Nat.eqb _ 1 && includes "/" _); [reflexivity|].
  cbn [parse_error value_of].
  destruct (Number_isFinite _); reflexivity.
Qed.




(** ** The shared parser never returns a negative value *)

Definition hyphen_free (s : string) : Prop := includes "-" s = false.

(** Not negative: [NaN], [+Infinity] or a finite value that is at least
    [0]. *)
Definition not_negative (x : number) : Prop :=
  match x with
  | NaN | PosInf => True
  | NegInf => False
  | Fin q => 0 <= q
  end.

Lemma hyphen_free_cons c s :
  hyphen_free (String c s) <-> c <> "-"%char /\ hyphen_free s.
Proof.
  unfold hyphen_free. cbn [includes]. rewrite orb_false_iff, Ascii.eqb_neq.
  reflexivity.
Qed.

Lemma replace_hyphen_free s : hyphen_free (replace_char "-" " " s).
Proof.
  induction s as [|c s IH]; [reflexivity|].
  cbn [replace_char]. apply hyphen_free_cons. split; [|exact IH].
  destruct (Ascii.eqb c "-") eqn:E; [discriminate|].
  apply Ascii.eqb_neq, E.
Qed.

Lemma collapse_hyphen_free s : forall b,
  hyphen_free s -> hyphen_free (collapse_from b s).
Proof.
  induction s as [|c s IH]; intros b H; [reflexivity|].
  apply hyphen_free_cons in H as [Hc Hs]. cbn [collapse_from].
  destruct (is_whitespace c).
  - destruct b; [apply IH, Hs|].
    apply hyphen_free_cons. split; [discriminate | apply IH, Hs].
  - apply hyphen_free_cons. split; [exact Hc | apply IH, Hs].
Qed.

Lemma split_hyphen_free c s :
  hyphen_free s -> Forall hyphen_free (split c s).
Proof.
  induction s as [|x s IH]; intro H.
  - constructor; [reflexivity | constructor].
  - apply hyphen_free_cons in H as [Hx Hs]. specialize (IH Hs).
    cbn [split]. destruct (Ascii.eqb x c).
    + constructor; [reflexivity | exact IH].
    + destruct (split c s) as [|t ts].
      * constructor; [|constructor].
        apply hyphen_free_cons. split; [exact Hx | reflexivity].
      * inversion IH; subst. constructor; [|assumption].
        apply hyphen_free_cons. split; assumption.
Qed.

Lemma nth_hyphen_free k l :
  Forall hyphen_free l -> hyphen_free (nth k l "").
Proof.
  intro H. revert k. induction H as [|t ts Ht _ IH]; intro k.
  - destruct k; reflexivity.
  - destruct k; [exact Ht | apply IH].
Qed.

Lemma trimStart_hyphen_free s : hyphen_free s -> hyphen_free (trimStart s).
Proof.
  induction s as [|c s IH]; intro H; [reflexivity|].
  cbn [trimStart]. destruct (is_whitespace c); [|exact H].
  apply IH. apply hyphen_free_cons in H. tauto.
Qed.

Lemma rev_append_hyphen_free s : forall acc,
  hyphen_free s -> hyphen_free acc -> hyphen_free (JS.rev_append s acc).
Proof.
  induction s as [|c s IH]; intros acc Hs Hacc; [exact Hacc|].
  apply hyphen_free_cons in Hs as [Hc Hs]. cbn [JS.rev_append].
  apply IH; [exact Hs|]. apply hyphen_free_cons. split; assumption.
Qed.

Lemma trim_hyphen_free s : hyphen_free s -> hyphen_free (trim s).
Proof.
  intro H. unfold trim, trimEnd, reverse.
  apply rev_append_hyphen_free; [|reflexivity].
  apply trimStart_hyphen_free, rev_append_hyphen_free; [|reflexivity].
  apply trimStart_hyphen_free, H.
Qed.

Lemma all_chars_app p s t :
  all_chars p s = true -> all_chars p t = true -> all_chars p (s ++ t) = true.
Proof.
  induction s as [|c s IH]; intros Hs Ht; [exact Ht|].
  cbn [all_chars append] in *. apply andb_prop in Hs as [Hc Hs].
  rewrite Hc, (IH Hs Ht). reflexivity.
Qed.

Lemma pow10_pos e : 0 < pow10 e.
Proof.
  unfold pow10. destruct (0 <=? e)%Z eqn:E.
  - apply Z.leb_le in E. change 0 with (inject_Z 0). rewrite <- Zlt_Qlt.
    apply Z.pow_pos_nonneg; lia.
  - apply Z.leb_gt in E.
    assert (H : (0 < 10 ^ (- e))%Z) by (apply Z.pow_pos_nonneg; lia).
    apply Qlt_shift_div_l.
    + change 0 with (inject_Z 0). rewrite <- Zlt_Qlt. exact H.
    + rewrite Qmult_0_l. reflexivity.
Qed.

Lemma unsigned_decimal_nonneg s q : unsigned_decimal s = Some q -> 0 <= q.
Proof.
  unfold unsigned_decimal.
  pose proof (span_fst_all is_digit s) as Hip.
  destruct (span is_digit s) as [ip r1]. cbn [fst] in Hip.
  assert (Hfp : forall (fp : string) (has_dot : bool) (r2 : string),
            all_chars is_digit fp = true ->
            (if is_empty ip && is_empty fp then None
             else match exponent_part r2 with
                  | None => None
                  | Some e =>
                      Some (inject_Z (digits_value 0 (ip ++ fp))
                            * pow10 (e - Z.of_nat (String.length fp)))%Q
                  end) = Some q -> 0 <= q).
  { intros fp has_dot r2 Hfp.
    destruct (is_empty ip && is_empty fp); [discriminate|].
    destruct (exponent_part r2) as [e|]; [|discriminate].
    intro H. inversion H. clear H.
    apply Qmult_le_0_compat; [|apply Qlt_le_weak, pow10_pos].
    change 0 with (inject_Z 0). rewrite <- Zle_Qle.
    apply digits_value_nonneg; [apply all_chars_app; assumption | lia]. }
  destruct r1 as [|c r].
  - apply (Hfp EmptyString false EmptyString). reflexivity.
  - destruct (Ascii.eqb c ".") eqn:Ec.
    + apply Ascii.eqb_eq in Ec. subst c.
      pose proof (span_fst_all is_digit r) as Hf.
      destruct (span is_digit r) as [f r']. cbn [fst] in Hf.
      apply (Hfp f true r'). exact Hf.
    + assert (E : match String c r with
                  | String "."%char r0 =>
                      let (f, r') := span is_digit r0 in (f, true, r')
                  | _ => (EmptyString, false, String c r)
                  end = (EmptyString, false, String c r)).
      { destruct c as [[] [] [] [] [] [] [] []]; try reflexivity; discriminate Ec. }
      rewrite E. apply (Hfp EmptyString false (String c r)). reflexivity.
Qed.

Lemma radix_digit_nonneg radix c v : radix_digit radix c = Some v -> (0 <= v)%Z.
Proof.
  unfold radix_digit.
  set (n := Z.of_nat (nat_of_ascii c)).
  destruct ((48 <=? n)%Z && (n <=? 57)%Z) eqn:E1.
  { apply andb_prop in E1 as [H1 _]. apply Z.leb_le in H1.
    destruct (n - 48 <? radix)%Z; [|discriminate]. intro H. inversion H. lia. }
  destruct ((97 <=? n)%Z && (n <=? 102)%Z) eqn:E2.
  { apply andb_prop in E2 as [H1 _]. apply Z.leb_le in H1.
    destruct (n - 87 <? radix)%Z; [|discriminate]. intro H. inversion H. lia. }
  destruct ((65 <=? n)%Z && (n <=? 70)%Z) eqn:E3.
  { apply andb_prop in E3 as [H1 _]. apply Z.leb_le in H1.
    destruct (n - 55 <? radix)%Z; [|discriminate]. intro H. inversion H. lia. }
  destruct (16 <? radix)%Z; [|discriminate]. intro H. inversion H. lia.
Qed.

Lemma radix_value_nonneg radix s : forall acc z,
  (0 <= radix)%Z -> (0 <= acc)%Z -> radix_value radix acc s = Some z -> (0 <= z)%Z.
Proof.
  induction s as [|c s IH]; intros acc z Hr Hacc; cbn [radix_value].
  - intro H. inversion H. subst. exact Hacc.
  - destruct (radix_digit radix c) as [v|] eqn:E; [|discriminate].
    apply radix_digit_nonneg in E. apply IH; [exact Hr | nia].
Qed.

Lemma radix_literal_nonneg s z : radix_literal s = Some z -> (0 <= z)%Z.
Proof.
  unfold radix_literal.
  destruct s as [|c0 [|p ds]]; try discriminate.
  - destruct c0 as [[] [] [] [] [] [] [] []]; discriminate.
  - destruct (Ascii.eqb c0 "0") eqn:E0.
    + apply Ascii.eqb_eq in E0. subst c0.
      destruct (Ascii.eqb p "x" || Ascii.eqb p "X");
        [|destruct (Ascii.eqb p "o" || Ascii.eqb p "O");
          [|destruct (Ascii.eqb p "b" || Ascii.eqb p "B"); [|discriminate]]];
        (destruct (is_empty ds); [discriminate|]);
        apply radix_value_nonneg; lia.
    + destruct c0 as [[] [] [] [] [] [] [] []]; try discriminate E0; discriminate.
Qed.

Lemma Qred_nonneg q : 0 <= q -> 0 <= Qred q.
Proof. intro H. rewrite Qred_correct. exact H. Qed.

(** [Number] of a string without hyphen is not negative. *)
Lemma Number_not_negative s : hyphen_free s -> not_negative (Number s).
Proof.
  intro H. apply trim_hyphen_free in H. unfold Number.
  destruct (is_empty (trim s)); [simpl; apply Qle_refl|].
  destruct (radix_literal (trim s)) as [z|] eqn:Er.
  - apply radix_literal_nonneg in Er. simpl.
    change 0 with (inject_Z 0). rewrite <- Zle_Qle. exact Er.
  - unfold signed_decimal.
    assert (Hbody : forall body,
              not_negative
                (if String.eqb body "Infinity" then PosInf
                 else match unsigned_decimal body with
                      | Some q => fin q
                      | None => NaN
                      end)).
    { intro body. destruct (String.eqb body "Infinity"); [exact I|].
      destruct (unsigned_decimal body) as [q|] eqn:Eu; [|exact I].
      apply unsigned_decimal_nonneg in Eu. simpl. apply Qred_nonneg, Eu. }
    destruct (trim s) as [|c r]; [apply (Hbody EmptyString)|].
    apply hyphen_free_cons in H as [Hc _].
    destruct (Ascii.eqb c "+") eqn:Ep.
    + apply Ascii.eqb_eq in Ep. subst c. apply (Hbody r).
    + assert (E : match String c r with
                  | String "-"%char r0 => (true, r0)
                  | String "+"%char r0 => (false, r0)
                  | _ => (false, String c r)
                  end = (false, String c r)).
      { destruct c as [[] [] [] [] [] [] [] []]; try reflexivity;
          try discriminate Ep. contradiction Hc. reflexivity. }
      rewrite E. apply (Hbody (String c r)).
Qed.

Lemma nth_map_Number k l :
  Forall hyphen_free l -> not_negative (nth k (map Number l) NaN).
Proof.
  intro H. revert k. induction H as [|t ts Ht _ IH]; intro k.
  - destruct k; exact I.
  - destruct k; [apply Number_not_negative, Ht | apply IH].
Qed.

(** A reading of non-negative tokens without parse error has a
    non-negative value. *)
Lemma Qdiv_nonneg n d : 0 <= n -> 0 <= d -> ~ d == 0 -> 0 <= n / d.
Proof.
  intros Hn Hd E. apply Qle_shift_div_l; [|rewrite Qmult_0_l; exact Hn].
  destruct (Qle_lt_or_eq _ _ Hd) as [Hlt | Heq]; [exact Hlt|].
  exfalso. apply E. symmetry. exact Heq.
Qed.

Lemma value_of_not_negative r :
  match r with
  | Empty => True
  | Mixed w n d => not_negative w /\ not_negative n /\ not_negative d
  | Fraction n d => not_negative n /\ not_negative d
  | Decimal v => not_negative v
  end ->
  parse_error r = false -> not_negative (value_of r).
Proof.
  destruct r as [|w n d|n d|v]; cbn [parse_error value_of].
  - discriminate.
  - destruct w as [| | |w]; try discriminate.
    destruct n as [| | |n]; try discriminate.
    destruct d as [| | |d]; try discriminate.
    cbn [Number_isFinite negb orb not_negative]. intros (Hw & Hn & Hd) E.
    apply seq_zero_false_Q in E.
    destruct (div_val _ _ _ _ (Fin_val n) (Fin_val d) E) as (x & -> & Hx).
    destruct (add_val _ _ _ _ (Fin_val w) (Fin_val x)) as (y & -> & Hy).
    cbn [not_negative]. rewrite Hy, Hx.
    pose proof (Qdiv_nonneg n d Hn Hd E). lra.
  - destruct n as [| | |n]; try discriminate.
    destruct d as [| | |d]; try discriminate.
    cbn [Number_isFinite negb orb not_negative]. intros (Hn & Hd) E.
    apply seq_zero_false_Q in E.
    destruct (div_val _ _ _ _ (Fin_val n) (Fin_val d) E) as (x & -> & Hx).
    cbn [not_negative]. rewrite Hx. apply Qdiv_nonneg; assumption.
  - intros H _. exact H.
Qed.

Lemma shared_reading_not_negative str :
  match shared_reading str with
  | Empty => True
  | Mixed w n d => not_negative w /\ not_negative n /\ not_negative d
  | Fraction n d => not_negative n /\ not_negative d
  | Decimal v => not_negative v
  end.
Proof.
  unfold shared_reading.
  destruct (is_empty (trim str)); [exact I|]. cbv zeta.
  set (s := collapse_whitespace (replace_char "-" " " (trim str))).
  assert (Hs : hyphen_free s).
  { apply collapse_hyphen_free, replace_hyphen_free. }
  pose proof (split_hyphen_free " " s Hs) as Hparts.
  destruct (Nat.eqb _ 2 && includes "/" _).
  - split; [apply Number_not_negative, nth_hyphen_free, Hparts|].
    split; apply nth_map_Number, split_hyphen_free, nth_hyphen_free, Hparts.
  - destruct (Nat.eqb _ 1 && includes "/" _).
    + split; apply nth_map_Number, split_hyphen_free, Hs.
    + apply Number_not_negative, Hs.
Qed.

(** C10.  The dimension parser shared by the ellipse, flange and jumper
    generators never returns a negative value: every hyphen is replaced by
    a space before the string is split into tokens, so a leading minus
    sign is dropped instead of being rejected, and ["-5"] parses to [5]. *)
Theorem shared_parse_never_negative :
  (forall str,
     match Shared.parseInches str with
     | NaN => True
     | Fin q => 0 <= q
     | _ => False
     end)
  /\ (forall str,
        hyphen_free (collapse_whitespace (replace_char "-" " " (trim str))))
  /\ Shared.parseInches "-5" = Fin 5.
Proof.
  split; [|split].
  - intro str. rewrite shared_parse_reading.
    destruct (parse_error (shared_reading str)) eqn:E; [exact I|].
    pose proof (value_of_not_negative _ (shared_reading_not_negative str) E) as H.
    destruct (value_of_finite _ E) as [q Hq]. rewrite Hq in *. exact H.
  - intro str. apply collapse_hyphen_free, replace_hyphen_free.
  - reflexivity.
Qed.

(** ** The entities of a DXF text *)

(** The records of a drawing grouped at each group code [0]: the value of
    the code [0] names the group, the records up to the next code [0] are
    its attributes. *)
Fixpoint attributes (rs : list (string * string)) : list (string * string) :=
  match rs with
  | [] => []
  | (c, v) :: rest =>
      if String.eqb c "0" then [] else (c, v) :: attributes rest
  end.

Fixpoint groups (rs : list (string * string))
  : list (string * list (string * string)) :=
  match rs with
  | [] => []
  | (c, v) :: rest =>
      if String.eqb c "0" then (v, attributes rest) :: groups rest
      else groups rest
  end.

Definition is_named (name : string) (g : string * list (string * string)) : bool :=
  String.eqb (fst g) name.

(** Code [8] carries the layer. *)
Definition on_layer (layer : string) (g : string * list (string * string)) : bool :=
  existsb (fun a => String.eqb (fst a) "8" && String.eqb (snd a) layer) (snd g).

Definition count {A : Type} (p : A -> bool) (l : list A) : nat :=
  List.length (filter p l).

(** How many entities of a name the lines hold, and how many of them on a
    layer; [None] when the lines are not code and value pairs. *)
Definition count_named (name : string) (lines : list string) : option nat :=
  match records lines with
  | Some rs => Some (count (is_named name) (groups rs))
  | None => None
  end.

Definition count_on_layer (name layer : string) (lines : list string) : option nat :=
  match records lines with
  | Some rs =>
      Some (count (fun g => is_named name g && on_layer layer g) (groups rs))
  | None => None
  end.

(** The records of one vertex and of one circle. *)
Definition vertex_records (layer : string) (p : point) : list (string * string) :=
  [ ("0", "VERTEX"); ("8", layer); ("10", toString (fst p));
    ("20", toString (snd p)); ("30", "0") ].

Definition circle_records (x y r : number) (layer : string)
  : list (string * string) :=
  [ ("0", "CIRCLE"); ("8", layer); ("10", toString x); ("20", toString y);
    ("30", "0"); ("40", toString r) ].

Definition polyline_records (points : list point) (layer : string) (closed : bool)
  : list (string * string) :=
  ([ ("0", "POLYLINE"); ("8", layer); ("66", "1");
     ("70", if closed then "1" else "0");
     ("10", "0"); ("20", "0"); ("30", "0") ]
   ++ flat_map (vertex_records layer) points
   ++ [ ("0", "SEQEND") ])%list.

Lemma records_app a : forall ra b,
  records a = Some ra ->
  records (a ++ b)
  = match records b with
    | Some rb => Some (ra ++ rb)%list
    | None => None
    end.
Proof.
  assert (H : forall n a, (List.length a <= n)%nat -> forall ra b,
             records a = Some ra ->
             records (a ++ b)
             = match records b with
               | Some rb => Some (ra ++ rb)%list
               | None => None
               end).
  { induction n as [|n IH]; intros a0 Hn ra b Ha.
    - destruct a0; [|simpl in Hn; lia].
      simpl in Ha. inversion Ha. simpl. destruct (records b); reflexivity.
    - destruct a0 as [|c [|v rest]].
      + simpl in Ha. inversion Ha. simpl. destruct (records b); reflexivity.
      + discriminate Ha.
      + cbn [records] in Ha. cbn [app records].
        destruct (is_group_code c); [|discriminate].
        destruct (records rest) as [rr|] eqn:Er; [|discriminate].
        inversion Ha. subst ra.
        rewrite (IH rest ltac:(simpl in Hn; lia) rr b Er).
        destruct (records b); reflexivity. }
  intros ra b. apply (H (List.length a) a (le_n _)).
Qed.

Lemma records_vertices layer points :
  records (flat_map (vertex_lines layer) points)
  = Some (flat_map (vertex_records layer) points).
Proof.
  induction points as [|p points IH]; [reflexivity|].
  cbn [flat_map].
  rewrite (records_app (vertex_lines layer p) (vertex_records layer p));
    [|reflexivity].
  rewrite IH. reflexivity.
Qed.

Lemma records_polyline points layer closed :
  records (Shared.dxfPolyline_lines points layer closed)
  = Some (polyline_records points layer closed).
Proof.
  rewrite dxfPolyline_lines_flat. unfold polyline_records.
  erewrite records_app by reflexivity.
  erewrite records_app by apply records_vertices.
  reflexivity.
Qed.

Lemma records_circle x y r layer :
  records (Shared.dxfCircle_lines x y r layer) = Some (circle_records x y r layer).
Proof. reflexivity. Qed.

(** A list of records that is empty or starts a group. *)
Definition starts_group (rs : list (string * string)) : Prop :=
  match rs with
  | [] => True
  | (c, _) :: _ => c = "0"
  end.

Lemma attributes_app a b :
  starts_group b -> attributes (a ++ b) = attributes a.
Proof.
  intro Hb. induction a as [|[c v] a IH].
  - destruct b as [|[c v] b]; [reflexivity|].
    simpl in Hb. subst c. reflexivity.
  - cbn [app attributes]. destruct (String.eqb c "0"); [reflexivity|].
    rewrite IH. reflexivity.
Qed.

Lemma attributes_start b : starts_group b -> attributes b = [].
Proof.
  destruct b as [|[c v] b]; [reflexivity|].
  simpl. intros ->. reflexivity.
Qed.

Lemma groups_app a b :
  starts_group b ->
  groups (a ++ b) = (groups a ++ groups b)%list.
Proof.
  intro Hb. induction a as [|[c v] a IH]; [reflexivity|].
  cbn [app groups]. rewrite IH, (attributes_app a b Hb).
  destruct (String.eqb c "0"); reflexivity.
Qed.

Lemma count_app A (p : A -> bool) l1 l2 :
  count p (l1 ++ l2) = (count p l1 + count p l2)%nat.
Proof. unfold count. rewrite filter_app, length_app. reflexivity. Qed.

Lemma count_cons A (p : A -> bool) x l :
  count p (x :: l) = ((if p x then 1 else 0) + count p l)%nat.
Proof. unfold count. cbn [filter]. destruct (p x); reflexivity. Qed.

Lemma starts_group_vertices layer points rest :
  starts_group rest ->
  starts_group (flat_map (vertex_records layer) points ++ rest).
Proof. intro H. destruct points; [exact H | reflexivity]. Qed.

(** The vertices of a polyline are no entity of another name. *)
Lemma count_vertices p layer points rest :
  starts_group rest ->
  (forall attrs, p ("VERTEX", attrs) = false) ->
  count p (groups (flat_map (vertex_records layer) points ++ rest))
  = count p (groups rest).
Proof.
  intros Hrest Hp. induction points as [|pt points IH]; [reflexivity|].
  cbn [flat_map]. rewrite <- app_assoc.
  rewrite groups_app by (apply starts_group_vertices, Hrest).
  rewrite count_app, IH.
  cbn [vertex_records groups String.eqb Ascii.eqb Bool.eqb attributes].
  unfold count at 1. cbn [filter]. rewrite Hp. reflexivity.
Qed.

Lemma groups_polyline p points layer closed rest :
  starts_group rest ->
  (forall attrs, p ("VERTEX", attrs) = false) ->
  p ("SEQEND", []) = false ->
  count p (groups (polyline_records points layer closed ++ rest))
  = ((if p ("POLYLINE",
            [ ("8", layer); ("66", "1"); ("70", if closed then "1" else "0");
              ("10", "0"); ("20", "0"); ("30", "0") ])
      then 1 else 0)
     + count p (groups rest))%nat.
Proof.
  intros Hrest Hv Hs. unfold polyline_records.
  rewrite <- !app_assoc.
  cbn [app groups attributes String.eqb Ascii.eqb Bool.eqb].
  rewrite (attributes_start _
             (starts_group_vertices layer points (("0", "SEQEND") :: rest)
                eq_refl)).
  rewrite count_cons.
  rewrite (count_vertices p layer points (("0", "SEQEND") :: rest) eq_refl Hv).
  cbn [groups String.eqb Ascii.eqb Bool.eqb].
  rewrite (attributes_start rest Hrest), count_cons, Hs.
  reflexivity.
Qed.

Section FlangeDrawing.

Context {M : MathObject}.

(** The records of what follows the perimeter in a flange drawing with a
    circular cutout. *)
Definition flange_holes_records (v : Flange.valid) : list (string * string) :=
  let hx := Flange.bhCCX v / num 2 in
  let hy := Flange.bhCCY v / num 2 in
  let r := Flange.bhDia v / num 2 in
  (circle_records (- hx) (- hy) r "Holes"
   ++ circle_records hx (- hy) r "Holes"
   ++ circle_records (- hx) hy r "Holes"
   ++ circle_records hx hy r "Holes"
   ++ circle_records (num 0) (num 0) (Flange.cutoutDia v / num 2) "Holes"
   ++ [ ("0", "ENDSEC"); ("0", "EOF") ])%list.

Definition header_records : list (string * string) :=
  [ ("0", "SECTION"); ("2", "HEADER");
    ("9", "$ACADVER"); ("1", "AC1009");
    ("9", "$INSUNITS"); ("70", "1");
    ("0", "ENDSEC");
    ("0", "SECTION"); ("2", "TABLES");
    ("0", "TABLE"); ("2", "LAYER"); ("70", "2");
    ("0", "LAYER"); ("2", "Perimeter"); ("70", "0"); ("62", "7");
    ("6", "CONTINUOUS");
    ("0", "LAYER"); ("2", "Holes"); ("70", "0"); ("62", "7");
    ("6", "CONTINUOUS");
    ("0", "ENDTAB");
    ("0", "ENDSEC");
    ("0", "SECTION"); ("2", "ENTITIES") ].

Lemma flange_records (v : Flange.valid) :
  Flange.cutoutType v = "circle" ->
  records (Flange.drawing_lines v)
  = Some (header_records
          ++ polyline_records
               (Flange.roundedRectPoints (Flange.odX v) (Flange.odY v)
                  (Flange.cornerR v) 24)
               "Perimeter" true
          ++ flange_holes_records v)%list.
Proof.
  intro Hc. unfold Flange.drawing_lines. rewrite Hc.
  change (String.eqb "circle" "circle") with true. cbv iota.
  erewrite records_app by reflexivity.
  erewrite records_app by apply records_polyline.
  reflexivity.
Qed.

(** Every flange drawing with a circular cutout holds one POLYLINE, on
    layer Perimeter, and five CIRCLEs, all on layer Holes. *)
Lemma flange_entities (v : Flange.valid) :
  Flange.cutoutType v = "circle" ->
  count_named "POLYLINE" (Flange.drawing_lines v) = Some 1%nat
  /\ count_on_layer "POLYLINE" "Perimeter" (Flange.drawing_lines v) = Some 1%nat
  /\ count_named "CIRCLE" (Flange.drawing_lines v) = Some 5%nat
  /\ count_on_layer "CIRCLE" "Holes" (Flange.drawing_lines v) = Some 5%nat.
Proof.
  intro Hc. unfold count_named, count_on_layer.
  rewrite (flange_records v Hc).
  rewrite groups_app by reflexivity. rewrite !count_app.
  rewrite !groups_polyline by reflexivity.
  repeat split; reflexivity.
Qed.

End FlangeDrawing.

(** ** From the lines to the text *)

Lemma append_assoc (a b c : string) : ((a ++ b) ++ c = a ++ (b ++ c))%string.
Proof. induction a as [|x a IH]; [reflexivity|]. simpl. rewrite IH. reflexivity. Qed.

Lemma append_empty_r (a : string) : (a ++ "" = a)%string.
Proof. induction a as [|x a IH]; [reflexivity|]. simpl. rewrite IH. reflexivity. Qed.

(** The lines of a block, each ended by a line feed. *)
Lemma join_app_block (l rest : list string) :
  l <> [] -> rest <> [] ->
  join LF (l ++ rest) = ((join LF l ++ LF) ++ join LF rest)%string.
Proof.
  intros Hl Hrest. induction l as [|x l IH]; [contradiction|].
  destruct l as [|y l].
  - cbn [app join]. destruct rest; [contradiction|].
    rewrite append_assoc. reflexivity.
  - change ((x :: y :: l) ++ rest)%list with (x :: (y :: l) ++ rest)%list.
    change (join LF (x :: (y :: l) ++ rest))
      with (x ++ LF ++ join LF ((y :: l) ++ rest))%string.
    rewrite IH by discriminate.
    change (join LF (x :: y :: l)) with (x ++ LF ++ join LF (y :: l))%string.
    rewrite !append_assoc. reflexivity.
Qed.

Lemma app_not_nil_l A (l r : list A) : l <> [] -> (l ++ r)%list <> [].
Proof. destruct l; [contradiction | discriminate]. Qed.

Lemma dxfPolyline_lines_not_nil points layer closed :
  Shared.dxfPolyline_lines points layer closed <> [].
Proof. rewrite dxfPolyline_lines_flat. discriminate. Qed.

Ltac nonempty :=
  solve [ discriminate
        | apply dxfPolyline_lines_not_nil
        | assumption
        | apply app_not_nil_l; nonempty ].

Section FlangeText.

Context {M : MathObject}.

Lemma circles_text holes : forall dxf r layer,
  Flange.circles dxf holes r layer
  = (dxf ++ fold_right (fun p acc => Shared.dxfCircle (fst p) (snd p) r layer ++ acc)
              "" holes)%string.
Proof.
  induction holes as [|[x y] holes IH]; intros dxf r layer.
  - simpl. symmetry. apply append_empty_r.
  - cbn [Flange.circles fold_right fst snd]. rewrite IH, append_assoc. reflexivity.
Qed.

(** What a click on Download hands over is the lines of the drawing joined
    by line feeds. *)
Lemma downloadDXF_text (p : Shared.page Flange.valid) (v : Flange.valid) :
  is_empty (trim (Shared.form p "filename")) = false ->
  Shared.lastValid p = Some v ->
  Flange.downloadDXF p = Some (join LF (Flange.drawing_lines v)).
Proof.
  intros Hname Hv. unfold Flange.downloadDXF. rewrite Hname, Hv. cbv zeta.
  f_equal. unfold Flange.drawing_lines.
  rewrite circles_text.
  unfold Shared.dxfHeader, Shared.dxfPolyline, Shared.dxfFooter.
  cbn [Flange.holeCentersOf Flange.circles_lines fold_right fst snd].
  unfold Shared.dxfCircle.
  rewrite <- !app_assoc, ?app_nil_l.
  assert (Hcut : (if String.eqb (Flange.cutoutType v) "circle"
                  then Shared.dxfCircle_lines (num 0) (num 0)
                         (Flange.cutoutDia v / num 2) "Holes"
                  else Shared.dxfPolyline_lines
                         (Flange.roundedRectPoints (Flange.cutoutX v)
                            (Flange.cutoutY v) (Flange.cutoutR v) 24)
                         "Holes" true) <> []).
  { destruct (String.eqb (Flange.cutoutType v) "circle");
      [discriminate | apply dxfPolyline_lines_not_nil]. }
  repeat rewrite join_app_block by nonempty.
  destruct (String.eqb (Flange.cutoutType v) "circle");
    rewrite !append_assoc; reflexivity.
Qed.

End FlangeText.

(** ** The end-to-end example of the flange *)

(** What the example needs of [Math.hypot]: it is exact when one argument
    is [0], and it is not below the root by more than one part in [2^50]
    of the square. *)
Definition hypot_exact_on_axis (M : MathObject) : Prop :=
  forall x : Q, Math_hypot (Fin x) (Fin 0) = fin (Qabs x).

Definition hypot_accurate_below (M : MathObject) : Prop :=
  forall x y : Q,
    exists h : Q,
      Math_hypot (Fin x) (Fin y) = Fin h
      /\ 0 <= h
      /\ (x * x + y * y) * (1 - (1 # 1125899906842624)) <= h * h.

Definition flange_example : Form :=
  filled [ ("odX", "5"); ("odY", "5"); ("cornerR", "0.5");
           ("bhDia", "0.5"); ("bhCCX", "3.5"); ("bhCCY", "3.5");
           ("cutoutType", "circle"); ("cutoutDia", "3.0");
           ("filename", "flange") ].

Definition flange_valid : Flange.valid :=
  {| Flange.odX := Fin 5; Flange.odY := Fin 5; Flange.cornerR := Fin (1 # 2);
     Flange.bhCCX := Fin (7 # 2); Flange.bhCCY := Fin (7 # 2);
     Flange.bhDia := Fin (1 # 2);
     Flange.cutoutType := "circle"; Flange.cutoutDia := Fin 3;
     Flange.cutoutX := NaN; Flange.cutoutY := NaN; Flange.cutoutR := Fin 0 |}.

Lemma flange_example_read : Flange.read flange_example = flange_valid.
Proof. reflexivity. Qed.

(** A minimum of positive gaps is positive. *)
Lemma minGap_positive (g : number -> number -> number) (pts : list point) :
  (forall p, In p pts -> exists q, is_val (g (fst p) (snd p)) q /\ 0 < q) ->
  (Flange.minGap g pts <=? num 0) = false.
Proof.
  unfold Flange.minGap.
  assert (H : forall acc,
            (acc = PosInf \/ exists q, acc = Fin q /\ 0 < q) ->
            (forall p, In p pts -> exists q, is_val (g (fst p) (snd p)) q /\ 0 < q) ->
            let m := fold_left (fun m '(x, y) => Math_min m (g x y)) pts acc in
            m = PosInf \/ exists q, m = Fin q /\ 0 < q).
  { induction pts as [|[x y] pts IH]; intros acc Hacc Hg; [exact Hacc|].
    cbn [fold_left]. apply IH; [|intros p Hp; apply Hg; right; exact Hp].
    destruct (Hg (x, y) (or_introl eq_refl)) as (q & (q' & Hq' & Eq) & Hpos).
    cbn [fst snd] in Hq'. rewrite Hq'.
    assert (Hq'pos : 0 < q') by (rewrite Eq; exact Hpos).
    destruct Hacc as [-> | (a & -> & Ha)].
    - right. exists q'. split; [reflexivity | exact Hq'pos].
    - right. cbn [Math_min le]. destruct (Qle_bool a q').
      + exists a. split; [reflexivity | exact Ha].
      + exists q'. split; [reflexivity | exact Hq'pos]. }
  intro Hg. destruct (H PosInf (or_introl eq_refl) Hg) as [-> | (q & -> & Hq)].
  - reflexivity.
  - cbn [le num]. destruct (Qle_bool q (inject_Z 0)) eqn:E; [|reflexivity].
    apply Qle_bool_iff in E. change (inject_Z 0) with 0 in E. lra.
Qed.

Section FlangeExample.

Context {M : MathObject}.
Hypothesis Haxis : hypot_exact_on_axis M.
Hypothesis Hbelow : hypot_accurate_below M.

(** Replaces the arguments of [Math.hypot] by their values. *)
Ltac hypot_at_origin :=
  match goal with
  | |- context [Math_hypot ?a ?b] =>
      replace (Math_hypot a b) with (Math_hypot (Fin 0) (Fin 0))
        by (f_equal; vm_compute; reflexivity)
  end;
  rewrite (Haxis 0).

Lemma example_hole_gap p :
  In p (Flange.holeCentersOf (Fin (7 # 4)) (Fin (7 # 4))) ->
  Flange.gapCircleToRoundedOD (fst p) (snd p) (Fin (1 # 4))
    (Fin 5) (Fin 5) (Fin (1 # 2)) = Fin (1 # 2).
Proof.
  intros [<- | [<- | [<- | [<- | []]]]];
    unfold Flange.gapCircleToRoundedOD, Flange.sdfRoundedRect; cbv zeta;
    hypot_at_origin; vm_compute; reflexivity.
Qed.

Lemma example_cutout_gap :
  Flange.gapCircleToRoundedOD (num 0) (num 0) (Fin (3 # 2))
    (Fin 5) (Fin 5) (Fin (1 # 2)) = Fin 1.
Proof.
  unfold Flange.gapCircleToRoundedOD, Flange.sdfRoundedRect; cbv zeta;
    hypot_at_origin; vm_compute; reflexivity.
Qed.

Lemma example_hole_cutout_gap p :
  In p (Flange.holeCentersOf (Fin (7 # 4)) (Fin (7 # 4))) ->
  exists q, is_val (Math_hypot (fst p) (snd p) - (Fin (1 # 4) + Fin (3 # 2))) q
            /\ 0 < q.
Proof.
  assert (H : forall x y : Q,
            x * x == 49 # 16 -> y * y == 49 # 16 ->
            exists q, is_val (Math_hypot (Fin x) (Fin y)
                              - (Fin (1 # 4) + Fin (3 # 2))) q /\ 0 < q).
  { intros x y Hx Hy. destruct (Hbelow x y) as (h & -> & Hh & Hsq).
    exists (h - ((1 # 4) + (3 # 2)))%Q. split.
    - apply sub_val; [apply Fin_val|]. apply add_val; apply Fin_val.
    - rewrite Hx, Hy in Hsq.
      assert (Hlt : (7 # 4) < h).
      { apply Qnot_le_lt. intro Hle.
        assert (h * h <= (7 # 4) * (7 # 4)) by nra.
        assert (Hc : (49 # 16) + (49 # 16) <= (49 # 16) * 2) by lra.
        nra. }
      lra. }
  intros [<- | [<- | [<- | [<- | []]]]]; cbn [fst snd neg fin];
    apply H; reflexivity.
Qed.

Lemma flange_example_clearance : Flange.clearanceErrors flange_example = [].
Proof.
  rewrite clearanceErrors_all. unfold clearance_checks. cbv zeta.
  rewrite flange_example_read.
  change (String.eqb (Flange.cutoutType flange_valid) "circle") with true.
  cbv iota. cbn [Flange.odX Flange.odY Flange.cornerR Flange.bhCCX Flange.bhCCY
                 Flange.bhDia Flange.cutoutDia flange_valid].
  change (Fin (7 # 2) / num 2) with (Fin (7 # 4)).
  change (Fin (1 # 2) / num 2) with (Fin (1 # 4)).
  change (Fin 3 / num 2) with (Fin (3 # 2)).
  change (or_zero (Fin (1 # 2))) with (Fin (1 # 2)).
  rewrite minGap_positive.
  2:{ intros p Hp. exists (1 # 2). rewrite (example_hole_gap p Hp).
      split; [apply Fin_val | reflexivity]. }
  rewrite example_cutout_gap.
  rewrite (minGap_positive _ _ example_hole_cutout_gap).
  reflexivity.
Qed.

End FlangeExample.

(** ** The rational [Math] object has the properties asked *)

Lemma grid_pos : (0 < Approx.grid)%Z.
Proof. reflexivity. Qed.

Lemma sqrt_up_square_ratio (a b : Z) :
  (0 < a)%Z -> (0 < b)%Z ->
  Qred (Z.sqrt_up (a * a * (b * b) * (Approx.grid * Approx.grid))
        # Z.to_pos (b * b * Approx.grid))
  == a # Z.to_pos b.
Proof.
  intros Ha Hb. pose proof grid_pos as Hg. rewrite Qred_correct.
  replace (a * a * (b * b) * (Approx.grid * Approx.grid))%Z
    with ((a * b * Approx.grid) * (a * b * Approx.grid))%Z by ring.
  rewrite Z.sqrt_up_square by nia.
  unfold Qeq. cbn [Qnum Qden]. rewrite !Z2Pos.id by nia. ring.
Qed.

Lemma sqrt_up_of_square (x : Q) : Approx.sqrt_up (x * x + 0 * 0) == Qabs x.
Proof.
  destruct x as [xn xd]. unfold Approx.sqrt_up.
  assert (En : Qnum ((xn # xd) * (xn # xd) + 0 * 0) = (xn * xn)%Z).
  { cbn [Qnum Qden Qmult Qplus]. lia. }
  assert (Ed : Zpos (Qden ((xn # xd) * (xn # xd) + 0 * 0)) = (Zpos xd * Zpos xd)%Z).
  { cbn [Qnum Qden Qmult Qplus]. lia. }
  rewrite En, Ed.
  destruct (xn * xn <=? 0)%Z eqn:E.
  - apply Z.leb_le in E. assert (xn = 0%Z) by nia. subst xn. reflexivity.
  - apply Z.leb_gt in E.
    replace (xn * xn)%Z with (Z.abs xn * Z.abs xn)%Z by lia.
    rewrite sqrt_up_square_ratio by lia.
    unfold Qabs. rewrite Pos2Z.id. reflexivity.
Qed.

Lemma rational_hypot_axis : hypot_exact_on_axis Approx.RationalMath.
Proof.
  intro x. cbn [Math_hypot Approx.RationalMath Approx.hypot].
  apply fin_eq, sqrt_up_of_square.
Qed.

(** [sqrt_up] is not below the root. *)
Lemma sqrt_up_above (q : Q) :
  0 <= q -> 0 <= Approx.sqrt_up q /\ q <= Approx.sqrt_up q * Approx.sqrt_up q.
Proof.
  intro Hq. destruct q as [n d]. unfold Approx.sqrt_up. cbn [Qnum Qden].
  pose proof grid_pos as Hg. set (g := Approx.grid) in *.
  assert (Hn : (0 <= n)%Z).
  { unfold Qle in Hq. cbn [Qnum Qden] in Hq. lia. }
  destruct (n <=? 0)%Z eqn:E.
  - apply Z.leb_le in E. assert (n = 0%Z) by lia. subst n.
    split; [apply Qle_refl|]. unfold Qle. cbn. lia.
  - apply Z.leb_gt in E.
    set (a := (n * Z.pos d * (g * g))%Z).
    assert (Ha : (0 < a)%Z) by (unfold a; nia).
    pose proof (Z.sqrt_up_spec a Ha) as [_ Hs].
    pose proof (Z.sqrt_up_nonneg a) as Hs0.
    set (s := Z.sqrt_up a) in *.
    assert (E1 : Qred (s # Z.to_pos (Z.pos d * g)) == s # Z.to_pos (Z.pos d * g))
      by apply Qred_correct.
    rewrite E1. split.
    + unfold Qle. cbn [Qnum Qden]. lia.
    + unfold Qle. cbn [Qnum Qden Qmult].
      rewrite Pos2Z.inj_mul, !Z2Pos.id by nia.
      unfold a in Hs. nia.
Qed.

Lemma rational_hypot_below : hypot_accurate_below Approx.RationalMath.
Proof.
  intros x y. cbn [Math_hypot Approx.RationalMath Approx.hypot].
  exists (Qred (Approx.sqrt_up (x * x + y * y))). split; [reflexivity|].
  assert (Hq : 0 <= x * x + y * y) by nra.
  destruct (sqrt_up_above _ Hq) as [H0 Hsq].
  rewrite Qred_correct. split; [exact H0|]. nra.
Qed.

(** C6.  The flange with [odX = odY = 5], [cornerR = 0.5], [bhDia = 0.5],
    [bhCCX = bhCCY = 3.5] and a circular cutout of diameter [3.0]
    validates with no error, and the drawing exported from it holds
    exactly one POLYLINE, which is on layer Perimeter, and exactly five
    CIRCLEs, which are on layer Holes. *)
Theorem flange_end_to_end (M : MathObject) :
  hypot_exact_on_axis M ->
  hypot_accurate_below M ->
  Flange.basicErrors flange_example = []
  /\ Flange.clearanceErrors flange_example = []
  /\ Flange.validate flange_example = Flange.Passed flange_valid
  /\ Flange.downloadDXF
       (Flange.validateAndPreview
          {| Shared.form := flange_example; Shared.lastValid := None |})
     = Some (join LF (Flange.drawing_lines flange_valid))
  /\ count_named "POLYLINE" (Flange.drawing_lines flange_valid) = Some 1%nat
  /\ count_on_layer "POLYLINE" "Perimeter" (Flange.drawing_lines flange_valid)
     = Some 1%nat
  /\ count_named "CIRCLE" (Flange.drawing_lines flange_valid) = Some 5%nat
  /\ count_on_layer "CIRCLE" "Holes" (Flange.drawing_lines flange_valid)
     = Some 5%nat.
Proof.
  intros Haxis Hbelow.
  assert (Hbasic : Flange.basicErrors flange_example = []) by reflexivity.
  pose proof (flange_example_clearance Haxis Hbelow) as Hclear.
  assert (Hvalid : Flange.validate flange_example = Flange.Passed flange_valid).
  { unfold Flange.validate. rewrite Hbasic, Hclear. reflexivity. }
  split; [exact Hbasic|]. split; [exact Hclear|]. split; [exact Hvalid|].
  split; [|apply flange_entities; reflexivity].
  unfold Flange.validateAndPreview. cbn [Shared.form]. rewrite Hvalid.
  apply downloadDXF_text; reflexivity.
Qed.

Lemma flange_end_to_end_witness :
  hypot_exact_on_axis Approx.RationalMath
  /\ hypot_accurate_below Approx.RationalMath
  /\ Flange.validate (M := Approx.RationalMath) flange_example
     = Flange.Passed flange_valid
  /\ count_named "CIRCLE" (Flange.drawing_lines (M := Approx.RationalMath) flange_valid)
     = Some 5%nat.
Proof.
  split; [exact rational_hypot_axis|]. split; [exact rational_hypot_below|].
  destruct (flange_end_to_end Approx.RationalMath
              rational_hypot_axis rational_hypot_below)
    as (_ & _ & Hv & _ & _ & _ & Hc & _).
  split; [exact Hv | exact Hc].
Defined.

(** ** The outline of the jumper, piece by piece *)

(** A piece of the outline: a straight tangent from one tangency point to
    the next, or an arc of a circle given by its sampled points. *)
Inductive piece : Type :=
  | Tangent (a b : point)
  | Arc (pts : list point).

Definition is_tangent (p : piece) : bool :=
  match p with Tangent _ _ => true | Arc _ => false end.

Definition is_arc (p : piece) : bool :=
  match p with Tangent _ _ => false | Arc _ => true end.

(** The points that the pieces add after the point where they start: a
    tangent adds its end, an arc adds its points but the first. *)
Fixpoint trace (ps : list piece) : list point :=
  match ps with
  | [] => []
  | Tangent _ b :: rest => b :: trace rest
  | Arc pts :: rest => (tl pts ++ trace rest)%list
  end.

Definition outline_points (ps : list piece) : list point :=
  match ps with
  | Tangent a _ :: _ => a :: trace ps
  | _ => trace ps
  end.

Section JumperOutline.

Context {M : MathObject}.

(** The pieces that [buildOD] assembles, in order: the top tangent from the
    left bolt circle to the centre circle, the top arc of the centre
    circle, the top tangent to the right bolt circle, its outer arc, and
    the same way back below. *)
Definition OD_pieces (cc RboltOuter RidOuter : number)
  : option (result (list piece)) :=
  let Lx := - cc / num 2 in
  let Rx := cc / num 2 in
  match Jumper.externalTangents Lx (num 0) RboltOuter (num 0) (num 0) RidOuter with
  | None => Some (Throw "Cannot compute tangents between left bolt OD and center OD.")
  | Some tLC =>
  match Jumper.externalTangents (num 0) (num 0) RidOuter Rx (num 0) RboltOuter with
  | None => Some (Throw "Cannot compute tangents between center OD and right bolt OD.")
  | Some tCR =>
      let L_top := Jumper.p1 (Jumper.top tLC) in
      let C_left_top := Jumper.p2 (Jumper.top tLC) in
      let C_right_top := Jumper.p1 (Jumper.top tCR) in
      let R_top := Jumper.p2 (Jumper.top tCR) in
      let R_bot := Jumper.p2 (Jumper.bottom tCR) in
      let C_right_bot := Jumper.p1 (Jumper.bottom tCR) in
      let C_left_bot := Jumper.p2 (Jumper.bottom tLC) in
      let L_bot := Jumper.p1 (Jumper.bottom tLC) in
      match Jumper.chosenArc (num 0) (num 0) RidOuter C_left_top C_right_top
              (fun _x y => y >? num 0),
            Jumper.chosenArc (num 0) (num 0) RidOuter C_right_bot C_left_bot
              (fun _x y => y <? num 0),
            Jumper.chosenArc Lx (num 0) RboltOuter L_bot L_top
              (fun x' _y => x' <? Lx),
            Jumper.chosenArc Rx (num 0) RboltOuter R_top R_bot
              (fun x' _y => x' >? Rx) with
      | Some arcC_top, Some arcC_bot, Some arcL_out, Some arcR_out =>
          Some (Return [ Tangent L_top C_left_top; Arc arcC_top;
                         Tangent C_right_top R_top; Arc arcR_out;
                         Tangent R_bot C_right_bot; Arc arcC_bot;
                         Tangent C_left_bot L_bot; Arc arcL_out ])
      | _, _, _, _ => None
      end
  end end.

(** [buildOD] returns the points of these pieces. *)
Lemma buildOD_pieces (cc RboltOuter RidOuter : number) :
  Jumper.buildOD cc RboltOuter RidOuter
  = match OD_pieces cc RboltOuter RidOuter with
    | None => None
    | Some (Throw e) => Some (Jumper.Error e)
    | Some (Return ps) => Some (Jumper.Pts (outline_points ps))
    end.
Proof.
  unfold Jumper.buildOD, OD_pieces. cbv zeta.
  cbn [Jumper.x Jumper.y Jumper.r].
  destruct (Jumper.externalTangents _ _ _ _ _ _) as [tLC|]; [|reflexivity].
  destruct (Jumper.externalTangents _ _ _ _ _ _) as [tCR|]; [|reflexivity].
  destruct (Jumper.chosenArc _ _ _ _ _ _) as [a1|]; [|reflexivity].
  destruct (Jumper.chosenArc _ _ _ _ _ _) as [a2|]; [|reflexivity].
  destruct (Jumper.chosenArc _ _ _ _ _ _) as [a3|]; [|reflexivity].
  destruct (Jumper.chosenArc _ _ _ _ _ _) as [a4|]; [|reflexivity].
  unfold push. cbn [outline_points trace].
  rewrite <- !app_assoc, app_nil_r. reflexivity.
Qed.

End JumperOutline.

(** Whatever the inputs, the pieces are four tangents and four arcs. *)
Lemma OD_pieces_counts (M : MathObject) (cc RboltOuter RidOuter : number)
    (ps : list piece) :
  OD_pieces cc RboltOuter RidOuter = Some (Return ps) ->
  count is_tangent ps = 4%nat /\ count is_arc ps = 4%nat.
Proof.
  unfold OD_pieces. cbv zeta.
  destruct (Jumper.externalTangents _ _ _ _ _ _) as [tLC|]; [|discriminate].
  destruct (Jumper.externalTangents _ _ _ _ _ _) as [tCR|]; [|discriminate].
  destruct (Jumper.chosenArc _ _ _ _ _ _) as [a1|]; [|discriminate].
  destruct (Jumper.chosenArc _ _ _ _ _ _) as [a2|]; [|discriminate].
  destruct (Jumper.chosenArc _ _ _ _ _ _) as [a3|]; [|discriminate].
  destruct (Jumper.chosenArc _ _ _ _ _ _) as [a4|]; [|discriminate].
  intro H. inversion H. split; reflexivity.
Qed.

(** ** Finite numbers *)

Definition finite (x : number) : Prop := exists q, x = Fin q.

Definition finite_point (p : point) : Prop := finite (fst p) /\ finite (snd p).

(** What the jumper needs of the [Math] object: finite results on finite
    arguments ([Math.acos] on [[-1, 1]]). *)
Definition finite_math (M : MathObject) : Prop :=
  (forall q, finite (Math_cos (Fin q)))
  /\ (forall q, finite (Math_sin (Fin q)))
  /\ (forall q, Qabs q <= 1 -> finite (Math_acos (Fin q)))
  /\ (forall y x, finite (Math_atan2 (Fin y) (Fin x))).

Lemma finite_Fin q : finite (Fin q).
Proof. exists q. reflexivity. Qed.

Lemma finite_num z : finite (num z).
Proof. eexists. reflexivity. Qed.

Lemma finite_val x q : is_val x q -> finite x.
Proof. intros (q' & -> & _). apply finite_Fin. Qed.

Lemma finite_add x y : finite x -> finite y -> finite (x + y).
Proof. intros [a ->] [b ->]. eexists. reflexivity. Qed.

Lemma finite_neg x : finite x -> finite (- x).
Proof. intros [a ->]. eexists. reflexivity. Qed.

Lemma finite_sub x y : finite x -> finite y -> finite (x - y).
Proof. intros Hx Hy. unfold sub. apply finite_add; [|apply finite_neg]; assumption. Qed.

Lemma finite_mul x y : finite x -> finite y -> finite (x * y).
Proof. intros [a ->] [b ->]. eexists. reflexivity. Qed.

Lemma finite_div x y b : finite x -> is_val y b -> ~ b == 0 -> finite (x / y).
Proof.
  intros [a ->] Hy Hb.
  apply (finite_val _ _ (div_val _ _ _ _ (Fin_val a) Hy Hb)).
Qed.

Lemma finite_is_val x : finite x -> exists q, is_val x q.
Proof. intros [q ->]. exists q. apply Fin_val. Qed.

Lemma le_false x y a b : is_val x a -> is_val y b -> b < a -> (x <=? y) = false.
Proof.
  intros Hx Hy Hlt. destruct (x <=? y) eqn:E; [|reflexivity].
  apply (le_val _ _ _ _ Hx Hy) in E. lra.
Qed.

Lemma lt_false x y a b : is_val x a -> is_val y b -> b <= a -> (x <? y) = false.
Proof.
  intros Hx Hy Hle. destruct (x <? y) eqn:E; [|reflexivity].
  apply (lt_val _ _ _ _ Hx Hy) in E. lra.
Qed.

Lemma le_true x y a b : is_val x a -> is_val y b -> a <= b -> (x <=? y) = true.
Proof. intros Hx Hy Hle. apply (le_val _ _ _ _ Hx Hy). exact Hle. Qed.

Lemma lt_true x y a b : is_val x a -> is_val y b -> a < b -> (x <? y) = true.
Proof. intros Hx Hy Hlt. apply (lt_val _ _ _ _ Hx Hy). exact Hlt. Qed.

Lemma abs_val x a : is_val x a -> is_val (Math_abs x) (Qabs a).
Proof.
  intros (a' & -> & Ha). cbn [Math_abs]. eapply is_val_eq; [apply fin_val|].
  rewrite Ha. reflexivity.
Qed.

(** ** The loops of [arcPoints] end *)

Lemma two_pi_val : is_val (Math_PI * num 2) (Approx.pi * 2).
Proof. apply mul_val; [apply PI_val | apply num_val]. Qed.

Lemma two_pi_pos : 0 < Approx.pi * 2.
Proof. pose proof pi_bounds. lra. Qed.

Lemma inject_Z_succ n : inject_Z (Z.of_nat (S n)) == inject_Z (Z.of_nat n) + 1.
Proof. rewrite Nat2Z.inj_succ, <- Z.add_1_r, inject_Z_plus. reflexivity. Qed.

Lemma wind_ccw_ends fuel s : forall e,
  s - e < Approx.pi * 2 * inject_Z (Z.of_nat fuel) ->
  exists e', Jumper.wind fuel true (Fin s) (Fin e) = Some (Fin e').
Proof.
  induction fuel as [|fuel IH]; intros e H.
  - cbn [Jumper.wind]. rewrite (le_false _ _ _ _ (Fin_val e) (Fin_val s)).
    + eexists. reflexivity.
    + change (inject_Z (Z.of_nat 0)) with 0 in H. lra.
  - cbn [Jumper.wind]. destruct (Fin e <=? Fin s); [|eexists; reflexivity].
    destruct (add_val _ _ _ _ (Fin_val e) two_pi_val) as (e1 & -> & He1).
    apply IH. rewrite He1. rewrite inject_Z_succ in H. lra.
Qed.

Lemma wind_cw_ends fuel s : forall e,
  e - s < Approx.pi * 2 * inject_Z (Z.of_nat fuel) ->
  exists e', Jumper.wind fuel false (Fin s) (Fin e) = Some (Fin e').
Proof.
  induction fuel as [|fuel IH]; intros e H.
  - cbn [Jumper.wind]. unfold ge.
    rewrite (le_false _ _ _ _ (Fin_val s) (Fin_val e)).
    + eexists. reflexivity.
    + change (inject_Z (Z.of_nat 0)) with 0 in H. lra.
  - cbn [Jumper.wind]. destruct (Fin e >=? Fin s); [|eexists; reflexivity].
    destruct (sub_val _ _ _ _ (Fin_val e) two_pi_val) as (e1 & -> & He1).
    apply IH. rewrite He1. rewrite inject_Z_succ in H. lra.
Qed.

(** [turns] is enough fuel. *)
Lemma turns_enough (ccw : bool) (s e : Q) :
  (if ccw then s - e else e - s)
  < Approx.pi * 2 * inject_Z (Z.of_nat (Jumper.turns ccw (Fin s) (Fin e))).
Proof.
  unfold Jumper.turns.
  assert (Hd : is_val ((if ccw then Fin s - Fin e else Fin e - Fin s)
                       / (Math_PI * num 2))
                      ((if ccw then s - e else e - s) / (Approx.pi * 2))).
  { apply div_val; [|apply two_pi_val | pose proof two_pi_pos; lra].
    destruct ccw; apply sub_val; apply Fin_val. }
  destruct Hd as (q & -> & Hq).
  pose proof (Qlt_floor q) as Hfl. pose proof two_pi_pos as Hp.
  set (z := (Qfloor q + 1)%Z) in *.
  assert (Hz : inject_Z z <= inject_Z (Z.of_nat (Z.to_nat z))).
  { rewrite <- Zle_Qle. lia. }
  assert (Hx : (if ccw then s - e else e - s) == q * (Approx.pi * 2)).
  { rewrite Hq. field. lra. }
  rewrite Hx. nra.
Qed.

Lemma wind_ends (ccw : bool) (s e : Q) :
  exists e', Jumper.wind (Jumper.turns ccw (Fin s) (Fin e)) ccw (Fin s) (Fin e)
             = Some (Fin e').
Proof.
  pose proof (turns_enough ccw s e) as H. destruct ccw.
  - apply wind_ccw_ends, H.
  - apply wind_cw_ends, H.
Qed.

(** ** The jumper outline exists *)

(** An arc is sampled by at least ten segments. *)
Definition sampled (p : piece) : Prop :=
  match p with
  | Tangent _ _ => True
  | Arc pts => (11 <= List.length pts)%nat
  end.

Section JumperExists.

Context {M : MathObject}.
Hypothesis Hfin : finite_math M.
Hypothesis Haxis : hypot_exact_on_axis M.

Lemma cos_finite x : finite x -> finite (Math_cos x).
Proof. intros [q ->]. apply Hfin. Qed.

Lemma sin_finite x : finite x -> finite (Math_sin x).
Proof. intros [q ->]. apply Hfin. Qed.

Lemma atan2_finite y x : finite y -> finite x -> finite (Math_atan2 y x).
Proof. intros [a ->] [b ->]. apply Hfin. Qed.

(** A point of a circle with a finite centre, radius and angle. *)
Lemma circle_point_finite cx cy r a :
  finite cx -> finite cy -> finite r -> finite a ->
  finite_point (cx + r * Math_cos a, cy + r * Math_sin a).
Proof.
  intros Hx Hy Hr Ha. split; cbn [fst snd]; apply finite_add; try assumption;
    apply finite_mul; try assumption; [apply cos_finite | apply sin_finite];
    assumption.
Qed.

(** The segment count of an arc is a finite integer, at least ten. *)
Lemma segments_val (w : number) :
  finite w ->
  exists m : Z,
    Math_max (num 10) (Math_ceil (w / Jumper.maxSegLen)) = num m /\ (10 <= m)%Z.
Proof.
  intro Hw.
  destruct (finite_div w Jumper.maxSegLen (6 # 100) Hw (Fin_val _))
    as [q ->]; [discriminate|].
  cbn [Math_ceil]. unfold Math_max, num.
  destruct (Fin (inject_Z 10) <=? Fin (inject_Z (Qceiling q))) eqn:E.
  - exists (Qceiling q). split; [reflexivity|].
    apply (le_val _ _ _ _ (Fin_val _) (Fin_val _)) in E.
    rewrite <- Zle_Qle in E. exact E.
  - exists 10%Z. split; [reflexivity | lia].
Qed.

Lemma arcPoints_some cx cy r a0 a1 ccw :
  finite cx -> finite cy -> finite r -> finite a0 -> finite a1 ->
  exists pts,
    Jumper.arcPoints cx cy r a0 a1 ccw Jumper.maxSegLen = Some pts
    /\ (11 <= List.length pts)%nat.
Proof.
  intros Hx Hy [rq ->] [s ->] [e ->]. unfold Jumper.arcPoints. cbv zeta.
  destruct (wind_ends ccw s e) as [e' ->].
  assert (Hsweep : finite (if ccw then Fin e' - Fin s else Fin s - Fin e')).
  { destruct ccw; apply finite_sub; apply finite_Fin. }
  destruct (segments_val _ (finite_mul _ _ Hsweep (finite_Fin rq)))
    as (m & -> & Hm).
  unfold through, num. eexists. split; [reflexivity|].
  rewrite length_map, length_map, length_seq, Qfloor_Z. lia.
Qed.

Lemma chosenArc_some cx cy r pStart pEnd wantFn :
  finite cx -> finite cy -> finite r ->
  finite_point pStart -> finite_point pEnd ->
  exists arc,
    Jumper.chosenArc cx cy r pStart pEnd wantFn = Some arc
    /\ (11 <= List.length arc)%nat.
Proof.
  intros Hx Hy Hr [Hs1 Hs2] [He1 He2]. unfold Jumper.chosenArc. cbv zeta.
  assert (Ha0 : finite (Jumper.angleOf cx cy (fst pStart) (snd pStart))).
  { apply atan2_finite; apply finite_sub; assumption. }
  assert (Ha1 : finite (Jumper.angleOf cx cy (fst pEnd) (snd pEnd))).
  { apply atan2_finite; apply finite_sub; assumption. }
  destruct (arcPoints_some cx cy r _ _ true Hx Hy Hr Ha0 Ha1) as (ccw & -> & Lccw).
  destruct (arcPoints_some cx cy r _ _ false Hx Hy Hr Ha0 Ha1) as (cw & -> & Lcw).
  destruct (nth_error ccw (Nat.div (List.length ccw) 2)) as [m1|] eqn:E1.
  2:{ apply nth_error_None in E1.
      pose proof (Nat.div_lt (List.length ccw) 2). lia. }
  destruct (nth_error cw (Nat.div (List.length cw) 2)) as [m2|] eqn:E2.
  2:{ apply nth_error_None in E2.
      pose proof (Nat.div_lt (List.length cw) 2). lia. }
  destruct (wantFn (fst m1) (snd m1) && negb (wantFn (fst m2) (snd m2)));
    [eexists; split; [reflexivity | assumption]|].
  destruct (wantFn (fst m2) (snd m2) && negb (wantFn (fst m1) (snd m1)));
    [eexists; split; [reflexivity | assumption]|].
  destruct (Nat.leb (List.length ccw) (List.length cw));
    eexists; (split; [reflexivity | assumption]).
Qed.

(** Two circles on the x axis whose centres are further apart than their
    radii differ have external tangents, with finite tangency points. *)
Lemma externalTangents_some (c1x r1 c2x r2 : number) (x1 q1 x2 q2 : Q) :
  is_val c1x x1 -> is_val r1 q1 -> is_val c2x x2 -> is_val r2 q2 ->
  Qabs (q1 - q2) < x2 - x1 ->
  exists t,
    Jumper.externalTangents c1x (num 0) r1 c2x (num 0) r2 = Some t
    /\ finite_point (Jumper.p1 (Jumper.top t))
    /\ finite_point (Jumper.p2 (Jumper.top t))
    /\ finite_point (Jumper.p1 (Jumper.bottom t))
    /\ finite_point (Jumper.p2 (Jumper.bottom t)).
Proof.
  intros Hc1 Hr1 Hc2 Hr2 Hsep. unfold Jumper.externalTangents. cbv zeta.
  change (num 0 - num 0) with (Fin 0).
  pose proof (Qabs_nonneg (q1 - q2)) as Habs.
  destruct (sub_val _ _ _ _ Hc2 Hc1) as (dx & Edx & Hdx). rewrite Edx.
  rewrite (Haxis dx).
  assert (Hd : is_val (fin (Qabs dx)) (x2 - x1)).
  { eapply is_val_eq; [apply fin_val|]. rewrite Hdx. apply Qabs_pos. lra. }
  unfold gt. rewrite (lt_true _ _ _ _ (num_val 0) Hd)
    by (change (inject_Z 0) with 0%Q; lra).
  cbn [negb].
  assert (Hk : is_val ((r1 - r2) / fin (Qabs dx)) ((q1 - q2) / (x2 - x1))).
  { apply div_val; [apply sub_val; assumption | exact Hd | lra]. }
  assert (Hk1 : Qabs ((q1 - q2) / (x2 - x1)) <= 1).
  { unfold Qdiv. rewrite Qabs_Qmult, Qabs_Qinv, (Qabs_pos (x2 - x1)) by lra.
    apply Qle_shift_div_r; lra. }
  rewrite (lt_false _ _ _ _ (num_val 1) (abs_val _ _ Hk))
    by (change (inject_Z 1) with 1%Q; lra).
  destruct Hk as (k & Ek & Hkv). rewrite Ek.
  assert (Hphi : finite (Math_acos (Fin k))).
  { apply Hfin. rewrite Hkv. exact Hk1. }
  assert (Hbase : finite (Math_atan2 (Fin 0) (Fin dx))) by apply Hfin.
  pose proof (finite_add _ _ Hbase Hphi) as HaA.
  pose proof (finite_sub _ _ Hbase Hphi) as HaB.
  pose proof (finite_val _ _ Hc1) as F1. pose proof (finite_val _ _ Hc2) as F2.
  pose proof (finite_val _ _ Hr1) as G1. pose proof (finite_val _ _ Hr2) as G2.
  pose proof (finite_num 0) as F0.
  destruct (_ >=? _); eexists; (split; [reflexivity|]);
    cbn [Jumper.top Jumper.bottom Jumper.p1 Jumper.p2];
    repeat split; cbn [fst snd];
    apply finite_add; try assumption; apply finite_mul; try assumption;
    first [apply cos_finite | apply sin_finite]; assumption.
Qed.

(** For outer radii that differ by less than half of the spacing,
    [buildOD] has its pieces, and every arc at least ten segments. *)
Lemma OD_pieces_some (cc ro ri : number) (c a b : Q) :
  is_val cc c -> is_val ro a -> is_val ri b ->
  Qabs (a - b) < c / 2 ->
  exists ps, OD_pieces cc ro ri = Some (Return ps) /\ Forall sampled ps.
Proof.
  intros Hcc Hro Hri Hsep. unfold OD_pieces. cbv zeta.
  assert (HL : is_val (- cc / num 2) (- c / 2)).
  { apply div_val; [apply neg_val, Hcc | apply num_val | discriminate]. }
  assert (HR : is_val (cc / num 2) (c / 2)).
  { apply div_val; [exact Hcc | apply num_val | discriminate]. }
  destruct (externalTangents_some _ _ _ _ _ _ _ _ HL Hro (num_val 0) Hri)
    as (tLC & -> & T1 & T2 & T3 & T4).
  { change (inject_Z 0) with 0%Q. unfold Qdiv in *. lra. }
  destruct (externalTangents_some _ _ _ _ _ _ _ _ (num_val 0) Hri HR Hro)
    as (tCR & -> & U1 & U2 & U3 & U4).
  { rewrite Qabs_Qminus. change (inject_Z 0) with 0%Q. unfold Qdiv in *. lra. }
  pose proof (finite_num 0) as F0.
  pose proof (finite_val _ _ HL) as FL. pose proof (finite_val _ _ HR) as FR.
  pose proof (finite_val _ _ Hro) as Fo. pose proof (finite_val _ _ Hri) as Fi.
  destruct (chosenArc_some (num 0) (num 0) ri _ _ (fun _x y => y >? num 0)
              F0 F0 Fi T2 U1) as (a1 & -> & L1).
  destruct (chosenArc_some (num 0) (num 0) ri _ _ (fun _x y => y <? num 0)
              F0 F0 Fi U3 T4) as (a2 & -> & L2).
  destruct (chosenArc_some (- cc / num 2) (num 0) ro _ _
              (fun x' _y => x' <? - cc / num 2) FL F0 Fo T3 T1) as (a3 & -> & L3).
  destruct (chosenArc_some (cc / num 2) (num 0) ro _ _
              (fun x' _y => x' >? cc / num 2) FR F0 Fo U2 U4) as (a4 & -> & L4).
  eexists. split; [reflexivity|].
  repeat constructor; assumption.
Qed.

End JumperExists.

Lemma rational_finite_math : finite_math Approx.RationalMath.
Proof.
  split; [|split; [|split]]; intros;
    cbn [Math_cos Math_sin Math_acos Math_atan2 Approx.RationalMath];
    unfold Approx.cos, Approx.sin, Approx.acos, Approx.atan2, Approx.lift1.
  - eexists. reflexivity.
  - eexists. reflexivity.
  - apply Qle_bool_iff in H. rewrite H. eexists. reflexivity.
  - eexists. reflexivity.
Qed.

(** ** The jumper validation *)

(** The form reads as five numbers that pass the checks made before the
    tangent precondition: positive diameters and spacing, offsets that are
    not negative, and holes that do not touch. *)
Definition jumper_reads (f : Form) (i b c e1 e2 : Q) : Prop :=
  Shared.parseInches (f "idDia") = Fin i
  /\ Shared.parseInches (f "boltDia") = Fin b
  /\ Shared.parseInches (f "cc") = Fin c
  /\ Shared.parseInches (f "boltEdgeToOD") = Fin e1
  /\ Shared.parseInches (f "idEdgeToOD") = Fin e2
  /\ 0 < i /\ 0 < b /\ 0 < c /\ 0 <= e1 /\ 0 <= e2
  /\ b < c /\ b / 2 + i / 2 < c / 2.


Definition jumper_example : Form :=
  filled [ ("idDia", "2"); ("boltDia", "1/2"); ("cc", "4");
           ("boltEdgeToOD", "1/2"); ("idEdgeToOD", "1/2");
           ("filename", "jumper") ].

(** The same part with a bolt offset so large that the bolt circles
    contain the centre circle. *)
Definition jumper_contained : Form :=
  filled [ ("idDia", "2"); ("boltDia", "1/2"); ("cc", "4");
           ("boltEdgeToOD", "4"); ("idEdgeToOD", "1/2");
           ("filename", "jumper") ].



Section JumperValidate.

Context {M : MathObject}.
Hypothesis Hfin : finite_math M.
Hypothesis Haxis : hypot_exact_on_axis M.

Variable f : Form.
Variables i b c e1 e2 : Q.
Hypothesis Hreads : jumper_reads f i b c e1 e2.

(** With the checks before it passed, the validation is decided by the
    tangent precondition and [buildOD]. *)
Lemma validate_precondition :
  Jumper.validate f
  = let RboltOuter := Fin b / num 2 + Fin e1 in
    let RidOuter := Fin i / num 2 + Fin e2 in
    if (Fin c / num 2) <=? Math_abs (RboltOuter - RidOuter)
    then Some (Jumper.Errors [Jumper.CONTAINED])
    else
      match Jumper.buildOD (Fin c) RboltOuter RidOuter with
      | None => None
      | Some (Jumper.Error e) => Some (Jumper.Errors [e])
      | Some (Jumper.Pts odPts) =>
          Some (Jumper.Passed
                  {| Jumper.idDia := Fin i; Jumper.boltDia := Fin b;
                     Jumper.cc := Fin c;
                     Jumper.boltEdgeToOD := Fin e1;
                     Jumper.idEdgeToOD := Fin e2;
                     Jumper.idR := Fin i / num 2;
                     Jumper.boltR := Fin b / num 2;
                     Jumper.RboltOuter := RboltOuter;
                     Jumper.RidOuter := RidOuter;
                     Jumper.odPts := odPts |})
      end.
Proof.
  destruct Hreads as (Ei & Eb & Ec & Ee1 & Ee2 & Hi & Hb & Hc & He1 & He2
                      & Hbc & Hgap).
  unfold Jumper.validate. cbv zeta. rewrite Ei, Eb, Ec, Ee1, Ee2.
  rewrite (le_false _ _ _ _ (Fin_val i) (num_val 0))
    by (change (inject_Z 0) with 0%Q; lra).
  rewrite (le_false _ _ _ _ (Fin_val b) (num_val 0))
    by (change (inject_Z 0) with 0%Q; lra).
  rewrite (le_false _ _ _ _ (Fin_val c) (num_val 0))
    by (change (inject_Z 0) with 0%Q; lra).
  rewrite (lt_false _ _ _ _ (Fin_val e1) (num_val 0))
    by (change (inject_Z 0) with 0%Q; lra).
  rewrite (lt_false _ _ _ _ (Fin_val e2) (num_val 0))
    by (change (inject_Z 0) with 0%Q; lra).
  cbn [Number_isFinite negb orb Jumper.push_if List.length Nat.eqb].
  rewrite (le_false _ _ _ _ (Fin_val c) (Fin_val b)) by lra.
  assert (Hhalf : forall x : Q, is_val (Fin x / num 2) (x / 2)).
  { intro x. apply div_val; [apply Fin_val | apply num_val | discriminate]. }
  rewrite (le_false _ _ _ _ (Hhalf c) (add_val _ _ _ _ (Hhalf b) (Hhalf i)))
    by exact Hgap.
  cbn [Jumper.push_if List.length Nat.eqb negb]. reflexivity.
Qed.

Lemma outer_radii_val :
  is_val (Fin c / num 2) (c / 2)
  /\ is_val (Fin b / num 2 + Fin e1) (b / 2 + e1)
  /\ is_val (Fin i / num 2 + Fin e2) (i / 2 + e2).
Proof.
  assert (Hhalf : forall x : Q, is_val (Fin x / num 2) (x / 2)).
  { intro x. apply div_val; [apply Fin_val | apply num_val | discriminate]. }
  split; [apply Hhalf|].
  split; (apply add_val; [apply Hhalf | apply Fin_val]).
Qed.

(** Contained circles are reported, by the validation itself. *)
Lemma validate_contained :
  c / 2 <= Qabs (b / 2 + e1 - (i / 2 + e2)) ->
  Jumper.validate f = Some (Jumper.Errors [Jumper.CONTAINED]).
Proof.
  intro Hle. rewrite validate_precondition. cbv zeta.
  destruct outer_radii_val as (Hd & Ho & Hi).
  rewrite (le_true _ _ _ _ Hd (abs_val _ _ (sub_val _ _ _ _ Ho Hi))) by exact Hle.
  reflexivity.
Qed.

(** Otherwise [buildOD] gives the outline, of four tangents and four
    arcs. *)
Lemma validate_passed :
  Qabs (b / 2 + e1 - (i / 2 + e2)) < c / 2 ->
  exists ps v,
    Jumper.validate f = Some (Jumper.Passed v)
    /\ OD_pieces (Jumper.cc v) (Jumper.RboltOuter v) (Jumper.RidOuter v)
       = Some (Return ps)
    /\ Jumper.odPts v = outline_points ps
    /\ count is_tangent ps = 4%nat
    /\ count is_arc ps = 4%nat
    /\ Forall sampled ps.
Proof.
  intro Hlt. rewrite validate_precondition. cbv zeta.
  destruct outer_radii_val as (Hd & Ho & Hi).
  rewrite (le_false _ _ _ _ Hd (abs_val _ _ (sub_val _ _ _ _ Ho Hi))) by exact Hlt.
  rewrite buildOD_pieces.
  destruct (OD_pieces_some Hfin Haxis _ _ _ _ _ _ (Fin_val c) Ho Hi Hlt)
    as (ps & Eps & Hs).
  rewrite Eps. destruct (OD_pieces_counts _ _ _ _ _ Eps) as [Ht Ha].
  eexists ps, _. split; [reflexivity|]. cbn [Jumper.cc Jumper.RboltOuter
    Jumper.RidOuter Jumper.odPts].
  split; [exact Eps|]. split; [reflexivity|].
  split; [exact Ht|]. split; [exact Ha | exact Hs].
Qed.

End JumperValidate.





(** * The ellipse generator *)

(** The three inputs read as numbers that pass the validation: a positive
    short side that is not above the long side, and a positive cross
    section. *)
Definition ellipse_reads (f : Form) (l s c : Q) : Prop :=
  Shared.parseInches (f "idLong") = Fin l
  /\ Shared.parseInches (f "idShort") = Fin s
  /\ Shared.parseInches (f "cs") = Fin c
  /\ 0 < s /\ s <= l /\ 0 < c.

(** The checks of the ellipse validation, each with the truth of its
    failure, in the order of the code. *)
Definition ellipse_checks (f : Form) : list (bool * string) :=
  let idL := Shared.parseInches (f "idLong") in
  let idS := Shared.parseInches (f "idShort") in
  let cs := Shared.parseInches (f "cs") in
  [ (negb (Number_isFinite idL) || (idL <=? num 0),
     "Long Side ID must be a positive number.");
    (negb (Number_isFinite idS) || (idS <=? num 0),
     "Short Side ID must be a positive number.");
    (negb (Number_isFinite cs) || (cs <=? num 0),
     "Cross Section must be a positive number.");
    (Number_isFinite idL && Number_isFinite idS && (idS >? idL),
     "Short Side ID cannot be larger than Long Side ID.") ].

Lemma ellipse_push_if c m errors :
  Ellipse.push_if c m errors = (errors ++ one_check c m)%list.
Proof. destruct c; [reflexivity|]. simpl. rewrite app_nil_r. reflexivity. Qed.

Lemma ellipse_errors f :
  Ellipse.validate f
  = match violated (ellipse_checks f) with
    | [] =>
        let idL := Shared.parseInches (f "idLong") in
        let idS := Shared.parseInches (f "idShort") in
        let cs := Shared.parseInches (f "cs") in
        Ellipse.Passed {| Ellipse.idL := idL; Ellipse.idS := idS;
                          Ellipse.cs := cs;
                          Ellipse.odL := idL + num 2 * cs;
                          Ellipse.odS := idS + num 2 * cs |}
    | errors => Ellipse.Errors errors
    end.
Proof.
  unfold Ellipse.validate, ellipse_checks. cbv zeta.
  rewrite !ellipse_push_if. rewrite app_nil_l.
  rewrite !violated_cons. change (violated []) with (@nil string).
  rewrite <- ?app_assoc, ?app_nil_r.
  destruct (_ ++ _)%list; reflexivity.
Qed.

Lemma violated_nil checks :
  violated checks = [] -> forall c m, In (c, m) checks -> c = false.
Proof.
  unfold violated. intros H c m Hin. destruct c; [|reflexivity].
  assert (Hf : In (true, m) (filter fst checks)).
  { apply filter_In. split; [exact Hin | reflexivity]. }
  apply (in_map snd) in Hf. rewrite H in Hf. destruct Hf.
Qed.

Lemma not_positive_false x :
  negb (Number_isFinite x) || (x <=? num 0) = false ->
  exists q, x = Fin q /\ 0 < q.
Proof.
  destruct x as [| | |q]; try discriminate. cbn [Number_isFinite negb orb].
  intro H. exists q. split; [reflexivity|].
  destruct (Qlt_le_dec 0 q) as [Hq|Hq]; [exact Hq|].
  rewrite (le_true _ _ _ _ (Fin_val q) (num_val 0) Hq) in H. discriminate.
Qed.

Lemma positive_passes q :
  0 < q -> negb (Number_isFinite (Fin q)) || (Fin q <=? num 0) = false.
Proof.
  intro H. cbn [Number_isFinite negb orb].
  apply (le_false _ _ _ _ (Fin_val q) (num_val 0)). exact H.
Qed.

Lemma ellipse_od l c : Fin l + num 2 * Fin c = fin (l + 2 * c).
Proof.
  cbn [add mul num]. unfold fin at 1. apply fin_eq.
  rewrite Qred_correct. reflexivity.
Qed.

(** X1.  The ellipse validation passes exactly when the three inputs read as
    finite numbers, the short side and the cross section positive and the
    short side not above the long side; the geometry it keeps is these
    three numbers and an OD that is the ID plus twice the cross section on
    both axes. *)
Theorem ellipse_passes (f : Form) (v : Ellipse.valid) :
  Ellipse.validate f = Ellipse.Passed v
  <-> exists l s c : Q,
        ellipse_reads f l s c
        /\ v = {| Ellipse.idL := Fin l; Ellipse.idS := Fin s;
                  Ellipse.cs := Fin c;
                  Ellipse.odL := fin (l + 2 * c);
                  Ellipse.odS := fin (s + 2 * c) |}.
Proof.
  rewrite ellipse_errors. split.
  - destruct (violated (ellipse_checks f)) eqn:E; [|discriminate].
    pose proof (violated_nil _ E) as Hall. cbv zeta. intro H.
    injection H as <-.
    unfold ellipse_checks in Hall. cbv zeta in Hall.
    destruct (not_positive_false _ (Hall _ _ (or_introl eq_refl)))
      as (l & El & Hl).
    destruct (not_positive_false _ (Hall _ _ (or_intror (or_introl eq_refl))))
      as (s & Es & Hs).
    destruct (not_positive_false _
                (Hall _ _ (or_intror (or_intror (or_introl eq_refl)))))
      as (c & Ec & Hc).
    pose proof (Hall _ _ (or_intror (or_intror (or_intror (or_introl eq_refl)))))
      as Hord.
    rewrite El, Es in Hord. cbn [Number_isFinite andb] in Hord.
    exists l, s, c. split.
    + unfold ellipse_reads. repeat (split; [assumption|]). split; [|exact Hc].
      destruct (Qlt_le_dec l s) as [Hlt|Hle]; [|exact Hle].
      unfold gt in Hord.
      rewrite (lt_true _ _ _ _ (Fin_val l) (Fin_val s) Hlt) in Hord.
      discriminate.
    + rewrite El, Es, Ec. f_equal; apply ellipse_od.
  - intros (l & s & c & (El & Es & Ec & Hs & Hsl & Hc) & ->).
    assert (Hl : 0 < l) by lra.
    unfold ellipse_checks. cbv zeta. rewrite El, Es, Ec.
    rewrite !violated_cons, !positive_passes by assumption.
    cbn [Number_isFinite andb]. unfold gt.
    rewrite (lt_false _ _ _ _ (Fin_val l) (Fin_val s) Hsl).
    cbn [one_check violated app filter map]. f_equal. f_equal; apply ellipse_od.
Qed.

(** Every failed check of the ellipse validation has its message, in the
    order of the code; the order of the two sides is checked only when both
    are finite. *)
Lemma ellipse_reports_every_failure (f : Form) :
  match Ellipse.validate f with
  | Ellipse.Errors es => es = violated (ellipse_checks f) /\ es <> []
  | Ellipse.Passed _ => violated (ellipse_checks f) = []
  end.
Proof.
  rewrite ellipse_errors.
  destruct (violated (ellipse_checks f)) eqn:E; [reflexivity|].
  split; [reflexivity | discriminate].
Qed.

(** ** The groups of a polyline *)

Definition vertex_group (layer : string) (p : point)
  : string * list (string * string) :=
  ("VERTEX", [ ("8", layer); ("10", toString (fst p));
               ("20", toString (snd p)); ("30", "0") ]).

Lemma groups_vertices layer points rest :
  starts_group rest ->
  groups (flat_map (vertex_records layer) points ++ rest)
  = (map (vertex_group layer) points ++ groups rest)%list.
Proof.
  intro Hrest. induction points as [|pt points IH]; [reflexivity|].
  cbn [flat_map map]. rewrite <- app_assoc.
  rewrite groups_app by (apply starts_group_vertices, Hrest).
  rewrite IH. reflexivity.
Qed.

Lemma groups_of_polyline points layer closed rest :
  starts_group rest ->
  groups (polyline_records points layer closed ++ rest)
  = (("POLYLINE",
      [ ("8", layer); ("66", "1"); ("70", if closed then "1" else "0");
        ("10", "0"); ("20", "0"); ("30", "0") ])
     :: map (vertex_group layer) points
     ++ ("SEQEND", []) :: groups rest)%list.
Proof.
  intro Hrest. unfold polyline_records. rewrite <- !app_assoc.
  cbn [app groups attributes String.eqb Ascii.eqb Bool.eqb].
  rewrite (attributes_start _
             (starts_group_vertices layer points (("0", "SEQEND") :: rest)
                eq_refl)).
  rewrite (groups_vertices layer points (("0", "SEQEND") :: rest) eq_refl).
  cbn [groups String.eqb Ascii.eqb Bool.eqb].
  rewrite (attributes_start rest Hrest). reflexivity.
Qed.

(** The vertices of a polyline on a layer: all of them on its own layer,
    none on another. *)
Lemma count_vertex_groups name L layer points :
  count (fun g => is_named name g && on_layer L g)
        (map (vertex_group layer) points)
  = if String.eqb "VERTEX" name && String.eqb layer L
    then List.length points else 0%nat.
Proof.
  induction points as [|pt points IH].
  - destruct (_ && _); reflexivity.
  - cbn [map]. rewrite count_cons, IH.
    unfold is_named, on_layer, vertex_group. cbn [fst snd existsb].
    change (String.eqb "8" "8") with true.
    change (String.eqb "10" "8") with false.
    change (String.eqb "20" "8") with false.
    change (String.eqb "30" "8") with false.
    cbn [andb orb].
    destruct (String.eqb "VERTEX" name); [|reflexivity].
    destruct (String.eqb layer L); reflexivity.
Qed.

Lemma count_named_vertex_groups name layer points :
  count (is_named name) (map (vertex_group layer) points)
  = if String.eqb "VERTEX" name then List.length points else 0%nat.
Proof.
  induction points as [|pt points IH].
  - destruct (String.eqb _ _); reflexivity.
  - cbn [map]. rewrite count_cons, IH. unfold is_named, vertex_group.
    cbn [fst]. destruct (String.eqb "VERTEX" name); reflexivity.
Qed.

(** ** The drawing of the ellipse *)

Section EllipseDrawing.

Context {M : MathObject}.

Lemma ellipsePoints_length a b n :
  List.length (Ellipse.ellipsePoints a b n) = n.
Proof. unfold Ellipse.ellipsePoints. rewrite length_map, length_seq. reflexivity. Qed.

Lemma ellipse_records (v : Ellipse.valid) :
  records (Ellipse.drawing_lines v)
  = Some (header_records
          ++ polyline_records
               (Ellipse.ellipsePoints (Ellipse.odL v) (Ellipse.odS v) 280)
               "Perimeter" true
          ++ polyline_records
               (Ellipse.ellipsePoints (Ellipse.idL v) (Ellipse.idS v) 280)
               "Holes" true
          ++ [ ("0", "ENDSEC"); ("0", "EOF") ])%list.
Proof.
  unfold Ellipse.drawing_lines. cbv zeta.
  erewrite records_app by reflexivity.
  erewrite records_app by apply records_polyline.
  erewrite records_app by apply records_polyline.
  reflexivity.
Qed.

Lemma ellipse_groups (v : Ellipse.valid) :
  exists rs,
    records (Ellipse.drawing_lines v) = Some rs
    /\ groups rs
       = (groups header_records
          ++ ("POLYLINE",
              [ ("8", "Perimeter"); ("66", "1"); ("70", "1");
                ("10", "0"); ("20", "0"); ("30", "0") ])
          :: map (vertex_group "Perimeter")
               (Ellipse.ellipsePoints (Ellipse.odL v) (Ellipse.odS v) 280)
          ++ ("SEQEND", [])
          :: ("POLYLINE",
              [ ("8", "Holes"); ("66", "1"); ("70", "1");
                ("10", "0"); ("20", "0"); ("30", "0") ])
          :: map (vertex_group "Holes")
               (Ellipse.ellipsePoints (Ellipse.idL v) (Ellipse.idS v) 280)
          ++ [ ("SEQEND", []); ("ENDSEC", []); ("EOF", []) ])%list.
Proof.
  eexists. split; [apply ellipse_records|].
  rewrite groups_app by reflexivity.
  rewrite groups_of_polyline by reflexivity.
  rewrite groups_of_polyline by reflexivity.
  reflexivity.
Qed.

Lemma ellipse_text (p : Shared.page Ellipse.valid) (v : Ellipse.valid) :
  is_empty (trim (Shared.form p "filename")) = false ->
  Shared.lastValid p = Some v ->
  Ellipse.downloadDXF p = Some (join LF (Ellipse.drawing_lines v)).
Proof.
  intros Hname Hv. unfold Ellipse.downloadDXF. rewrite Hname, Hv. cbv zeta.
  f_equal. unfold Ellipse.drawing_lines. cbv zeta.
  unfold Shared.dxfHeader, Shared.dxfPolyline, Shared.dxfFooter.
  repeat rewrite join_app_block by nonempty.
  rewrite !append_assoc. reflexivity.
Qed.

End EllipseDrawing.

(** X2.  Once a validation has passed and a CAD name is typed, the download of
    the ellipse is the lines of its drawing joined by line feeds; they
    pair up as code and value, and hold exactly two closed polylines, the
    OD on layer Perimeter and the ID on layer Holes, of 280 vertices each,
    and no circle. *)
Theorem ellipse_drawing (M : MathObject) (p : Shared.page Ellipse.valid)
    (v : Ellipse.valid) :
  is_empty (trim (Shared.form p "filename")) = false ->
  Shared.lastValid p = Some v ->
  let lines := Ellipse.drawing_lines v in
  Ellipse.downloadDXF p = Some (join LF lines)
  /\ count_named "POLYLINE" lines = Some 2%nat
  /\ count_on_layer "POLYLINE" "Perimeter" lines = Some 1%nat
  /\ count_on_layer "POLYLINE" "Holes" lines = Some 1%nat
  /\ count_on_layer "VERTEX" "Perimeter" lines = Some 280%nat
  /\ count_on_layer "VERTEX" "Holes" lines = Some 280%nat
  /\ count_named "SEQEND" lines = Some 2%nat
  /\ count_named "CIRCLE" lines = Some 0%nat.
Proof.
  intros Hname Hv lines. split; [apply ellipse_text; assumption|].
  destruct (ellipse_groups v) as (rs & Hrs & Hg).
  unfold count_named, count_on_layer, lines. rewrite Hrs, Hg.
  repeat rewrite ?count_app, ?count_cons, ?count_vertex_groups,
    ?count_named_vertex_groups, ?ellipsePoints_length.
  repeat split; reflexivity.
Qed.

(** ** The pages as the user drives them *)

(** What the user does to a page: an element takes a value, or the
    Validate button is clicked. *)
Inductive action : Type :=
  | Type_in (id text : string)
  | Click_validate.

Lemma set_value_other f id text k :
  String.eqb id k = false -> set_value f id text k = f k.
Proof. unfold set_value. rewrite String.eqb_sym. intros ->. reflexivity. Qed.

Ltac split_inputs H :=
  repeat match type of H with
         | (_ || _) = false => let H1 := fresh "Hk" in
                               apply orb_false_elim in H as [H1 H]
         end.

Definition ellipse_step (p : Shared.page Ellipse.valid) (a : action)
  : Shared.page Ellipse.valid :=
  match a with
  | Type_in id text => Ellipse.input id text p
  | Click_validate => Ellipse.validateAndPreview p
  end.

Lemma ellipse_validate_other f id text :
  existsb (String.eqb id) Ellipse.INPUTS = false ->
  Ellipse.validate (set_value f id text) = Ellipse.validate f.
Proof.
  intro H. cbn [existsb Ellipse.INPUTS] in H. split_inputs H.
  unfold Ellipse.validate. rewrite !set_value_other by assumption. reflexivity.
Qed.

(** What is kept for the download is the validation of the inputs as
    they stand. *)
Definition ellipse_fresh (p : Shared.page Ellipse.valid) : Prop :=
  forall v, Shared.lastValid p = Some v ->
            Ellipse.validate (Shared.form p) = Ellipse.Passed v.

Lemma ellipse_step_fresh p a : ellipse_fresh p -> ellipse_fresh (ellipse_step p a).
Proof.
  intros Hp v. destruct a as [id text|]; cbn [ellipse_step].
  - unfold Ellipse.input. cbv zeta.
    destruct (existsb (String.eqb id) Ellipse.INPUTS) eqn:E;
      cbn [Shared.lastValid Shared.form]; [discriminate|].
    intro Hv. rewrite (ellipse_validate_other _ _ _ E). apply Hp, Hv.
  - unfold Ellipse.validateAndPreview.
    destruct (Ellipse.validate (Shared.form p)) as [es|v'] eqn:E;
      cbn [Shared.lastValid Shared.form]; [discriminate|].
    intro Hv. injection Hv as <-. exact E.
Qed.

Lemma ellipse_run_fresh actions : forall p,
  ellipse_fresh p -> ellipse_fresh (fold_left ellipse_step actions p).
Proof.
  induction actions as [|a actions IH]; intros p Hp; [exact Hp|].
  cbn [fold_left]. apply IH, ellipse_step_fresh, Hp.
Qed.

(** X3.  Whatever the user types and clicks on the ellipse page, starting with
    nothing validated: a download saves nothing unless a CAD name is typed
    and the inputs as they stand have passed the validation, and what it
    saves is the drawing of these inputs. *)
Theorem ellipse_saves_what_is_shown (M : MathObject) (f0 : Form)
    (actions : list action) (text : string) :
  let p := fold_left ellipse_step actions
             {| Shared.form := f0; Shared.lastValid := None |} in
  Ellipse.downloadDXF p = Some text
  <-> is_empty (trim (Shared.form p "filename")) = false
      /\ exists v, Shared.lastValid p = Some v
                   /\ Ellipse.validate (Shared.form p) = Ellipse.Passed v
                   /\ text = join LF (Ellipse.drawing_lines v).
Proof.
  intro p.
  assert (Hp : ellipse_fresh p).
  { apply ellipse_run_fresh. intros v H. discriminate H. }
  split.
  - intro H. unfold Ellipse.downloadDXF in H. cbv zeta in H.
    destruct (is_empty (trim (Shared.form p "filename"))) eqn:En;
      [discriminate|].
    destruct (Shared.lastValid p) as [v|] eqn:Ev; [|discriminate].
    split; [reflexivity|]. exists v. split; [reflexivity|].
    split; [apply Hp, Ev|].
    pose proof (ellipse_text p v En Ev) as Ht.
    unfold Ellipse.downloadDXF in Ht. rewrite En, Ev in Ht. cbv zeta in Ht.
    congruence.
  - intros (En & v & Ev & _ & ->). apply ellipse_text; assumption.
Qed.

(** * The jumper generator *)

(** The checks of the jumper validation, each with the truth of its
    failure, in the order of the code: on the numbers first, then, when
    these pass, on the holes. *)
Definition jumper_number_checks (f : Form) : list (bool * string) :=
  let idDia := Shared.parseInches (f "idDia") in
  let boltDia := Shared.parseInches (f "boltDia") in
  let cc := Shared.parseInches (f "cc") in
  let boltEdgeToOD := Shared.parseInches (f "boltEdgeToOD") in
  let idEdgeToOD := Shared.parseInches (f "idEdgeToOD") in
  [ (negb (Number_isFinite idDia) || (idDia <=? num 0),
     "Center ID Diameter must be a positive number.");
    (negb (Number_isFinite boltDia) || (boltDia <=? num 0),
     "Bolt Hole Diameter must be a positive number.");
    (negb (Number_isFinite cc) || (cc <=? num 0),
     "Bolt Hole Center To Center must be a positive number.");
    (negb (Number_isFinite boltEdgeToOD) || (boltEdgeToOD <? num 0),
     "Bolt Hole Edge To OD must be zero or a positive number.");
    (negb (Number_isFinite idEdgeToOD) || (idEdgeToOD <? num 0),
     "ID Edge To OD must be zero or a positive number.") ].

Definition jumper_hole_checks (f : Form) : list (bool * string) :=
  let idDia := Shared.parseInches (f "idDia") in
  let boltDia := Shared.parseInches (f "boltDia") in
  let cc := Shared.parseInches (f "cc") in
  [ (cc <=? boltDia, "Bolt holes are touching/overlapping each other.");
    ((cc / num 2) <=? (boltDia / num 2 + idDia / num 2),
     "Bolt holes are touching/overlapping the center ID hole.") ].

Lemma jumper_push_if c m errors :
  Jumper.push_if c m errors = (errors ++ one_check c m)%list.
Proof. destruct c; [reflexivity|]. simpl. rewrite app_nil_r. reflexivity. Qed.

Section JumperChecks.

Context {M : MathObject}.

(** What the validation does once the checks have passed. *)
Definition jumper_outline (f : Form) : option Jumper.outcome :=
  let idDia := Shared.parseInches (f "idDia") in
  let boltDia := Shared.parseInches (f "boltDia") in
  let cc := Shared.parseInches (f "cc") in
  let boltEdgeToOD := Shared.parseInches (f "boltEdgeToOD") in
  let idEdgeToOD := Shared.parseInches (f "idEdgeToOD") in
  let idR := idDia / num 2 in
  let boltR := boltDia / num 2 in
  let RboltOuter := boltR + boltEdgeToOD in
  let RidOuter := idR + idEdgeToOD in
  if (cc / num 2) <=? Math_abs (RboltOuter - RidOuter)
  then Some (Jumper.Errors [Jumper.CONTAINED])
  else
    match Jumper.buildOD cc RboltOuter RidOuter with
    | None => None
    | Some (Jumper.Error e) => Some (Jumper.Errors [e])
    | Some (Jumper.Pts odPts) =>
        Some (Jumper.Passed
                {| Jumper.idDia := idDia; Jumper.boltDia := boltDia;
                   Jumper.cc := cc;
                   Jumper.boltEdgeToOD := boltEdgeToOD;
                   Jumper.idEdgeToOD := idEdgeToOD;
                   Jumper.idR := idR; Jumper.boltR := boltR;
                   Jumper.RboltOuter := RboltOuter;
                   Jumper.RidOuter := RidOuter;
                   Jumper.odPts := odPts |})
    end.

Lemma jumper_phases f :
  Jumper.validate f
  = match violated (jumper_number_checks f) with
    | [] =>
        match violated (jumper_hole_checks f) with
        | [] => jumper_outline f
        | errors => Some (Jumper.Errors errors)
        end
    | errors => Some (Jumper.Errors errors)
    end.
Proof.
  unfold Jumper.validate, jumper_number_checks, jumper_hole_checks,
    jumper_outline.
  cbv zeta. unfold violated. cbn [filter map fst snd].
  destruct (negb (Number_isFinite (Shared.parseInches (f "idDia"))) || _);
  destruct (negb (Number_isFinite (Shared.parseInches (f "boltDia"))) || _);
  destruct (negb (Number_isFinite (Shared.parseInches (f "cc"))) || _);
  destruct (negb (Number_isFinite (Shared.parseInches (f "boltEdgeToOD"))) || _);
  destruct (negb (Number_isFinite (Shared.parseInches (f "idEdgeToOD"))) || _);
  try reflexivity.
  cbn [Jumper.push_if List.length Nat.eqb negb].
  destruct (Shared.parseInches (f "cc") <=? Shared.parseInches (f "boltDia"));
  destruct (Shared.parseInches (f "cc") / num 2 <=? _ / num 2 + _ / num 2);
  reflexivity.
Qed.

End JumperChecks.

Lemma negative_false x :
  negb (Number_isFinite x) || (x <? num 0) = false ->
  exists q, x = Fin q /\ 0 <= q.
Proof.
  destruct x as [| | |q]; try discriminate. cbn [Number_isFinite negb orb].
  intro H. exists q. split; [reflexivity|].
  destruct (Qlt_le_dec q 0) as [Hq|Hq]; [|exact Hq].
  rewrite (lt_true _ _ _ _ (Fin_val q) (num_val 0) Hq) in H. discriminate.
Qed.

Lemma le_false_inv x y a b :
  is_val x a -> is_val y b -> (x <=? y) = false -> b < a.
Proof.
  intros Hx Hy H. destruct (Qlt_le_dec b a) as [Hlt|Hle]; [exact Hlt|].
  rewrite (le_true _ _ _ _ Hx Hy Hle) in H. discriminate.
Qed.

Lemma half_val q : is_val (Fin q / num 2) (q / 2).
Proof. apply div_val; [apply Fin_val | apply num_val | discriminate]. Qed.

(** X4.  In the jumper validation every failed check of a phase has its
    message, in the order of the code: the checks on the five numbers
    first and, only when all of these pass, the two checks on the holes;
    the outline is attempted only when both phases pass. *)
Theorem jumper_reports_every_failure (M : MathObject) (f : Form) :
  match violated (jumper_number_checks f) with
  | e :: es => Jumper.validate f = Some (Jumper.Errors (e :: es))
  | [] =>
      match violated (jumper_hole_checks f) with
      | e :: es => Jumper.validate f = Some (Jumper.Errors (e :: es))
      | [] => Jumper.validate f = jumper_outline f
      end
  end.
Proof.
  rewrite jumper_phases.
  destruct (violated (jumper_number_checks f)); [|reflexivity].
  destruct (violated (jumper_hole_checks f)); reflexivity.
Qed.


(** ** The drawing of the jumper *)

Definition circle_group (x y r : number) (layer : string)
  : string * list (string * string) :=
  ("CIRCLE", [ ("8", layer); ("10", toString x); ("20", toString y);
               ("30", "0"); ("40", toString r) ]).

Definition polyline_group (layer : string) (closed : bool)
  : string * list (string * string) :=
  ("POLYLINE", [ ("8", layer); ("66", "1"); ("70", if closed then "1" else "0");
                 ("10", "0"); ("20", "0"); ("30", "0") ]).

(** The entities of a drawing: the groups after the opening of its
    ENTITIES section. *)
Fixpoint entities (gs : list (string * list (string * string)))
  : list (string * list (string * string)) :=
  match gs with
  | [] => []
  | g :: rest =>
      if String.eqb (fst g) "SECTION"
         && existsb (fun a => String.eqb (fst a) "2" && String.eqb (snd a) "ENTITIES")
                    (snd g)
      then rest else entities rest
  end.

Section JumperDrawing.

Context {M : MathObject}.

Lemma jumper_records (v : Jumper.valid) :
  records (Jumper.drawing_lines v)
  = Some (header_records
          ++ polyline_records (Jumper.odPts v) "Perimeter" true
          ++ circle_records (num 0) (num 0) (Jumper.idR v) "Holes"
          ++ circle_records (- Jumper.cc v / num 2) (num 0) (Jumper.boltR v) "Holes"
          ++ circle_records (Jumper.cc v / num 2) (num 0) (Jumper.boltR v) "Holes"
          ++ [ ("0", "ENDSEC"); ("0", "EOF") ])%list.
Proof.
  unfold Jumper.drawing_lines.
  erewrite records_app by reflexivity.
  erewrite records_app by apply records_polyline.
  reflexivity.
Qed.

Lemma jumper_text (p : Shared.page Jumper.valid) (v : Jumper.valid) :
  is_empty (trim (Shared.form p "filename")) = false ->
  Shared.lastValid p = Some v ->
  Jumper.downloadDXF p = Some (join LF (Jumper.drawing_lines v)).
Proof.
  intros Hname Hv. unfold Jumper.downloadDXF. rewrite Hname, Hv. cbv zeta.
  f_equal. unfold Jumper.drawing_lines.
  unfold Shared.dxfHeader, Shared.dxfPolyline, Shared.dxfCircle, Shared.dxfFooter.
  repeat rewrite join_app_block by nonempty.
  rewrite !append_assoc. reflexivity.
Qed.

End JumperDrawing.

(** X6.  Once a validation has passed and a CAD name is typed, the download of
    the jumper is the lines of its drawing joined by line feeds; they pair
    up as code and value, and the entities they hold are, in this order:
    one closed polyline on layer Perimeter with a vertex for every point
    of the outline, then three circles on layer Holes, the centre hole at
    the origin with the radius [idR] and the two bolt holes at [-cc/2] and
    [cc/2] on the x axis with the radius [boltR]. *)
Theorem jumper_drawing (p : Shared.page Jumper.valid) (v : Jumper.valid) :
  is_empty (trim (Shared.form p "filename")) = false ->
  Shared.lastValid p = Some v ->
  let lines := Jumper.drawing_lines v in
  Jumper.downloadDXF p = Some (join LF lines)
  /\ exists rs,
       records lines = Some rs
       /\ entities (groups rs)
          = (polyline_group "Perimeter" true
             :: map (vertex_group "Perimeter") (Jumper.odPts v)
             ++ [ ("SEQEND", []);
                  circle_group (num 0) (num 0) (Jumper.idR v) "Holes";
                  circle_group (- Jumper.cc v / num 2) (num 0)
                    (Jumper.boltR v) "Holes";
                  circle_group (Jumper.cc v / num 2) (num 0)
                    (Jumper.boltR v) "Holes";
                  ("ENDSEC", []); ("EOF", []) ])%list.
Proof.
  intros Hname Hv lines. split; [apply jumper_text; assumption|].
  eexists. split; [apply jumper_records|].
  rewrite groups_app by reflexivity.
  rewrite groups_of_polyline by reflexivity.
  reflexivity.
Qed.

(** ** The arcs of the jumper *)

Lemma wind_ccw_spec fuel s : forall e e',
  Jumper.wind fuel true (Fin s) (Fin e) = Some (Fin e') ->
  exists k : nat,
    e' == e + Approx.pi * 2 * inject_Z (Z.of_nat k)
    /\ s < e'
    /\ (k = 0%nat \/ e' <= s + Approx.pi * 2).
Proof.
  induction fuel as [|fuel IH]; intros e e' H; cbn [Jumper.wind] in H.
  - destruct (Fin e <=? Fin s) eqn:E; [discriminate|].
    injection H as <-. exists 0%nat.
    apply (le_false_inv _ _ _ _ (Fin_val e) (Fin_val s)) in E.
    split; [change (inject_Z (Z.of_nat 0)) with 0; ring|]. split; [exact E|].
    left. reflexivity.
  - destruct (Fin e <=? Fin s) eqn:E.
    + apply (le_val _ _ _ _ (Fin_val e) (Fin_val s)) in E.
      destruct (add_val _ _ _ _ (Fin_val e) two_pi_val) as (e1 & He1 & Hv).
      rewrite He1 in H. destruct (IH _ _ H) as (k & Hk & Hlt & Hor).
      exists (S k). split; [|split; [exact Hlt|]].
      * rewrite Hk, Hv, inject_Z_succ. ring.
      * right. destruct Hor as [-> | Hle]; [|exact Hle].
        change (inject_Z (Z.of_nat 0)) with 0 in Hk. rewrite Hk, Hv. lra.
    + injection H as <-. exists 0%nat.
      apply (le_false_inv _ _ _ _ (Fin_val e) (Fin_val s)) in E.
      split; [change (inject_Z (Z.of_nat 0)) with 0; ring|]. split; [exact E|].
      left. reflexivity.
Qed.

Lemma wind_cw_spec fuel s : forall e e',
  Jumper.wind fuel false (Fin s) (Fin e) = Some (Fin e') ->
  exists k : nat,
    e' == e - Approx.pi * 2 * inject_Z (Z.of_nat k)
    /\ e' < s
    /\ (k = 0%nat \/ s - Approx.pi * 2 <= e').
Proof.
  induction fuel as [|fuel IH]; intros e e' H; cbn [Jumper.wind] in H;
    unfold ge in H.
  - destruct (Fin s <=? Fin e) eqn:E; [discriminate|].
    injection H as <-. exists 0%nat.
    apply (le_false_inv _ _ _ _ (Fin_val s) (Fin_val e)) in E.
    split; [change (inject_Z (Z.of_nat 0)) with 0; ring|]. split; [exact E|].
    left. reflexivity.
  - destruct (Fin s <=? Fin e) eqn:E.
    + apply (le_val _ _ _ _ (Fin_val s) (Fin_val e)) in E.
      destruct (sub_val _ _ _ _ (Fin_val e) two_pi_val) as (e1 & He1 & Hv).
      rewrite He1 in H. destruct (IH _ _ H) as (k & Hk & Hlt & Hor).
      exists (S k). split; [|split; [exact Hlt|]].
      * rewrite Hk, Hv, inject_Z_succ. ring.
      * right. destruct Hor as [-> | Hle]; [|exact Hle].
        change (inject_Z (Z.of_nat 0)) with 0 in Hk. rewrite Hk, Hv. lra.
    + injection H as <-. exists 0%nat.
      apply (le_false_inv _ _ _ _ (Fin_val s) (Fin_val e)) in E.
      split; [change (inject_Z (Z.of_nat 0)) with 0; ring|]. split; [exact E|].
      left. reflexivity.
Qed.

(** The segment count: an integer, at least ten, and at least the length
    of the arc in units of the longest segment. *)
Lemma segments_bound (w : number) (q : Q) :
  is_val w q ->
  exists m : Z,
    Math_max (num 10) (Math_ceil (w / Jumper.maxSegLen)) = num m
    /\ (10 <= m)%Z /\ q <= (6 # 100) * inject_Z m.
Proof.
  intro Hw. unfold Jumper.maxSegLen.
  destruct (div_val _ _ _ _ Hw (Fin_val (6 # 100))) as (d & -> & Hd);
    [discriminate|].
  cbn [Math_ceil]. unfold Math_max, num.
  pose proof (Qle_ceiling d) as Hc.
  assert (Hq : q == d * (6 # 100)) by (rewrite Hd; field).
  destruct (Fin (inject_Z 10) <=? Fin (inject_Z (Qceiling d))) eqn:E.
  - exists (Qceiling d). split; [reflexivity|].
    apply (le_val _ _ _ _ (Fin_val _) (Fin_val _)) in E.
    rewrite <- Zle_Qle in E. split; [exact E|]. rewrite Hq. lra.
  - exists 10%Z. split; [reflexivity|]. split; [lia|].
    apply (le_false_inv _ _ _ _ (Fin_val _) (Fin_val _)) in E.
    rewrite Hq. lra.
Qed.

(** The points of [arcPoints], once the loop on the end angle has stopped
    with the end [e]. *)
Lemma arcPoints_points (M : MathObject) (cx cy : number) (r a0 a1 e : Q)
    (ccw : bool) :
  Jumper.wind (Jumper.turns ccw (Fin a0) (Fin a1)) ccw (Fin a0) (Fin a1)
  = Some (Fin e) ->
  (if ccw then a0 < e else e < a0) ->
  exists (n : nat) (pts : list point),
    Jumper.arcPoints cx cy (Fin r) (Fin a0) (Fin a1) ccw Jumper.maxSegLen
    = Some pts
    /\ (10 <= n)%nat
    /\ List.length pts = S n
    /\ Qabs (e - a0) * r <= (6 # 100) * inject_Z (Z.of_nat n)
    /\ forall i, (i <= n)%nat ->
         exists a,
           is_val a (a0 + (e - a0)
                          * (inject_Z (Z.of_nat i) / inject_Z (Z.of_nat n)))
           /\ nth_error pts i
              = Some (cx + Fin r * Math_cos a, cy + Fin r * Math_sin a).
Proof.
  intros He Hdir. unfold Jumper.arcPoints. cbv zeta. rewrite He.
  assert (Hsweep : is_val (if ccw then Fin e - Fin a0 else Fin a0 - Fin e)
                          (Qabs (e - a0))).
  { destruct ccw.
    - eapply is_val_eq; [apply sub_val; apply Fin_val|].
      rewrite Qabs_pos by lra. reflexivity.
    - eapply is_val_eq; [apply sub_val; apply Fin_val|].
      rewrite Qabs_neg by lra. ring. }
  destruct (segments_bound _ _ (mul_val _ _ _ _ Hsweep (Fin_val r)))
    as (m & Em & Hm & Hlen).
  rewrite Em. unfold through, num at 1. rewrite Qfloor_Z.
  assert (Hn : inject_Z (Z.of_nat (Z.to_nat m)) == inject_Z m).
  { rewrite Z2Nat.id by lia. reflexivity. }
  exists (Z.to_nat m). eexists. split; [reflexivity|].
  split; [lia|].
  split; [rewrite !length_map, length_seq; lia|].
  split; [rewrite Hn; exact Hlen|].
  intros i Hi. rewrite map_map.
  rewrite nth_error_map_seq by lia.
  assert (Ht : is_val (num (Z.of_nat i) / num m)
                      (inject_Z (Z.of_nat i) / inject_Z (Z.of_nat (Z.to_nat m)))).
  { eapply is_val_eq.
    - apply div_val; [apply num_val | apply num_val|].
      intro E. apply (Qeq_eq_bool) in E. revert E.
      change 0 with (inject_Z 0). unfold Qeq_bool, inject_Z. simpl.
      destruct (Z.eqb_spec (m * 1) 0); [lia | discriminate].
    - rewrite Hn. reflexivity. }
  destruct ccw.
  - eexists. split; [|reflexivity].
    eapply is_val_eq.
    + apply add_val; [apply Fin_val|]. apply mul_val; [exact Hsweep | exact Ht].
    + rewrite Qabs_pos by lra. reflexivity.
  - eexists. split; [|reflexivity].
    eapply is_val_eq.
    + apply sub_val; [apply Fin_val|]. apply mul_val; [exact Hsweep | exact Ht].
    + rewrite Qabs_neg by lra. ring.
Qed.


(** The middle point of an arc, as [chosenArc] takes it. *)
Definition middle (arc : list point) : option point :=
  nth_error arc (Nat.div (List.length arc) 2).

(** X8.  What [chosenArc] returns is one of the two arcs between the two
    points, counter-clockwise or clockwise.  Its middle point passes the
    test whenever the middle point of either does; when both or neither
    pass, it is the arc of fewer points, the counter-clockwise one if they
    have as many. *)
Theorem chosenArc_choice (M : MathObject) (cx cy r : number)
    (pStart pEnd : point) (wantFn : number -> number -> bool)
    (arc : list point) :
  Jumper.chosenArc cx cy r pStart pEnd wantFn = Some arc ->
  let a0 := Jumper.angleOf cx cy (fst pStart) (snd pStart) in
  let a1 := Jumper.angleOf cx cy (fst pEnd) (snd pEnd) in
  exists (arcCCW arcCW : list point) (midCCW midCW mid : point),
    Jumper.arcPoints cx cy r a0 a1 true Jumper.maxSegLen = Some arcCCW
    /\ Jumper.arcPoints cx cy r a0 a1 false Jumper.maxSegLen = Some arcCW
    /\ middle arcCCW = Some midCCW /\ middle arcCW = Some midCW
    /\ middle arc = Some mid
    /\ (arc = arcCCW \/ arc = arcCW)
    /\ wantFn (fst mid) (snd mid)
       = wantFn (fst midCCW) (snd midCCW) || wantFn (fst midCW) (snd midCW)
    /\ (wantFn (fst midCCW) (snd midCCW) = wantFn (fst midCW) (snd midCW) ->
        arc = if Nat.leb (List.length arcCCW) (List.length arcCW)
              then arcCCW else arcCW).
Proof.
  unfold Jumper.chosenArc, middle. cbv zeta.
  destruct (Jumper.arcPoints _ _ _ _ _ true _) as [arcCCW|]; [|discriminate].
  destruct (Jumper.arcPoints _ _ _ _ _ false _) as [arcCW|]; [|discriminate].
  destruct (nth_error arcCCW _) as [midCCW|] eqn:E1; [|discriminate].
  destruct (nth_error arcCW _) as [midCW|] eqn:E2; [|discriminate].
  intro H. exists arcCCW, arcCW, midCCW, midCW.
  destruct (wantFn (fst midCCW) (snd midCCW)) eqn:W1;
    destruct (wantFn (fst midCW) (snd midCW)) eqn:W2;
    cbn [andb negb orb] in H |- *;
    try destruct (Nat.leb (List.length arcCCW) (List.length arcCW));
    injection H as <-;
    (first [ exists midCCW; repeat split; auto; discriminate
           | exists midCW; repeat split; auto; discriminate ]).
Qed.

(** ** The extents of a list of points *)

Lemma extents_folds (points : list point) :
  Jumper.extents points
  = let minX := fold_left Math_min (map fst points) PosInf in
    let maxX := fold_left Math_max (map fst points) NegInf in
    let minY := fold_left Math_min (map snd points) PosInf in
    let maxY := fold_left Math_max (map snd points) NegInf in
    {| Jumper.minX := minX; Jumper.maxX := maxX;
       Jumper.minY := minY; Jumper.maxY := maxY;
       Jumper.w := maxX - minX; Jumper.h := maxY - minY |}.
Proof.
  unfold Jumper.extents.
  assert (H : forall a b c d,
            fold_left
              (fun '(minX, maxX, minY, maxY) '(x, y) =>
                 (Math_min minX x, Math_max maxX x,
                  Math_min minY y, Math_max maxY y))
              points (a, b, c, d)
            = (fold_left Math_min (map fst points) a,
               fold_left Math_max (map fst points) b,
               fold_left Math_min (map snd points) c,
               fold_left Math_max (map snd points) d)).
  { induction points as [|[x y] points IH]; intros a b c d; [reflexivity|].
    cbn [fold_left map fst snd]. apply IH. }
  rewrite H. reflexivity.
Qed.

Lemma fold_min_Q (xs : list Q) : forall a,
  exists m,
    fold_left Math_min (map Fin xs) (Fin a) = Fin m
    /\ m <= a /\ (forall x, In x xs -> m <= x) /\ (m = a \/ In m xs).
Proof.
  induction xs as [|x xs IH]; intro a.
  - exists a. repeat split; [apply Qle_refl | intros x [] | left; reflexivity].
  - cbn [map fold_left Math_min le].
    destruct (Qle_bool a x) eqn:E.
    + apply Qle_bool_iff in E.
      destruct (IH a) as (m & Hm & Ha & Hall & Hin).
      exists m. split; [exact Hm|]. split; [exact Ha|]. split.
      * intros y [<-|Hy]; [lra | apply Hall, Hy].
      * destruct Hin as [->|Hin]; [left; reflexivity | right; right; exact Hin].
    + assert (Hx : x < a).
      { destruct (Qlt_le_dec x a) as [H|H]; [exact H|].
        apply Qle_bool_iff in H. congruence. }
      destruct (IH x) as (m & Hm & Ha & Hall & Hin).
      exists m. split; [exact Hm|]. split; [lra|]. split.
      * intros y [<-|Hy]; [exact Ha | apply Hall, Hy].
      * right. destruct Hin as [->|Hin]; [left; reflexivity | right; exact Hin].
Qed.

Lemma fold_max_Q (xs : list Q) : forall a,
  exists m,
    fold_left Math_max (map Fin xs) (Fin a) = Fin m
    /\ a <= m /\ (forall x, In x xs -> x <= m) /\ (m = a \/ In m xs).
Proof.
  induction xs as [|x xs IH]; intro a.
  - exists a. repeat split; [apply Qle_refl | intros x [] | left; reflexivity].
  - cbn [map fold_left Math_max le].
    destruct (Qle_bool a x) eqn:E.
    + apply Qle_bool_iff in E.
      destruct (IH x) as (m & Hm & Ha & Hall & Hin).
      exists m. split; [exact Hm|]. split; [lra|]. split.
      * intros y [<-|Hy]; [exact Ha | apply Hall, Hy].
      * right. destruct Hin as [->|Hin]; [left; reflexivity | right; exact Hin].
    + assert (Hx : x < a).
      { destruct (Qlt_le_dec x a) as [H|H]; [exact H|].
        apply Qle_bool_iff in H. congruence. }
      destruct (IH a) as (m & Hm & Ha & Hall & Hin).
      exists m. split; [exact Hm|]. split; [exact Ha|]. split.
      * intros y [<-|Hy]; [lra | apply Hall, Hy].
      * destruct Hin as [->|Hin]; [left; reflexivity | right; right; exact Hin].
Qed.

(** The least and the greatest of a list that is not empty. *)
Lemma fold_min_first (x : Q) (xs : list Q) :
  exists m,
    fold_left Math_min (map Fin (x :: xs)) PosInf = Fin m
    /\ (forall y, In y (x :: xs) -> m <= y) /\ In m (x :: xs).
Proof.
  cbn [map fold_left]. change (Math_min PosInf (Fin x)) with (Fin x).
  destruct (fold_min_Q xs x) as (m & Hm & Ha & Hall & Hin).
  exists m. split; [exact Hm|]. split.
  - intros y [<-|Hy]; [exact Ha | apply Hall, Hy].
  - destruct Hin as [->|Hin]; [left; reflexivity | right; exact Hin].
Qed.

Lemma fold_max_first (x : Q) (xs : list Q) :
  exists m,
    fold_left Math_max (map Fin (x :: xs)) NegInf = Fin m
    /\ (forall y, In y (x :: xs) -> y <= m) /\ In m (x :: xs).
Proof.
  cbn [map fold_left]. change (Math_max NegInf (Fin x)) with (Fin x).
  destruct (fold_max_Q xs x) as (m & Hm & Ha & Hall & Hin).
  exists m. split; [exact Hm|]. split.
  - intros y [<-|Hy]; [exact Ha | apply Hall, Hy].
  - destruct Hin as [->|Hin]; [left; reflexivity | right; exact Hin].
Qed.

Lemma sub_fin a b : Fin a - Fin b = fin (a - b).
Proof.
  unfold sub. cbn [neg]. unfold fin at 2. cbn [add]. apply fin_eq.
  rewrite Qred_correct. reflexivity.
Qed.

(** X9.  The extents of finite points.  Of no point they are the infinities the
    loop starts from, with a width and a height of [-Infinity].  Of at
    least one point they are finite: every point lies within them, each
    bound is the coordinate of some point, and the width and the height
    are the differences of the bounds, so not negative. *)
Theorem extents_bounds (qs : list (Q * Q)) :
  let points := map (fun q => (Fin (fst q), Fin (snd q))) qs in
  let b := Jumper.extents points in
  match qs with
  | [] =>
      b = {| Jumper.minX := PosInf; Jumper.maxX := NegInf;
             Jumper.minY := PosInf; Jumper.maxY := NegInf;
             Jumper.w := NegInf; Jumper.h := NegInf |}
  | _ :: _ =>
      exists x0 x1 y0 y1 : Q,
        Jumper.minX b = Fin x0 /\ Jumper.maxX b = Fin x1
        /\ Jumper.minY b = Fin y0 /\ Jumper.maxY b = Fin y1
        /\ Jumper.w b = fin (x1 - x0) /\ Jumper.h b = fin (y1 - y0)
        /\ (forall q, In q qs ->
              x0 <= fst q /\ fst q <= x1 /\ y0 <= snd q /\ snd q <= y1)
        /\ In x0 (map fst qs) /\ In x1 (map fst qs)
        /\ In y0 (map snd qs) /\ In y1 (map snd qs)
  end.
Proof.
  intros points b. destruct qs as [|q qs]; [reflexivity|].
  unfold b. rewrite extents_folds. cbv zeta.
  assert (Hx : map fst points = map Fin (map fst (q :: qs))).
  { unfold points. rewrite !map_map. reflexivity. }
  assert (Hy : map snd points = map Fin (map snd (q :: qs))).
  { unfold points. rewrite !map_map. reflexivity. }
  rewrite Hx, Hy. cbn [map].
  destruct (fold_min_first (fst q) (map fst qs)) as (x0 & Ex0 & Lx0 & Ix0).
  destruct (fold_max_first (fst q) (map fst qs)) as (x1 & Ex1 & Lx1 & Ix1).
  destruct (fold_min_first (snd q) (map snd qs)) as (y0 & Ey0 & Ly0 & Iy0).
  destruct (fold_max_first (snd q) (map snd qs)) as (y1 & Ey1 & Ly1 & Iy1).
  cbn [map] in Ex0, Ex1, Ey0, Ey1.
  rewrite Ex0, Ex1, Ey0, Ey1.
  exists x0, x1, y0, y1. cbn [Jumper.minX Jumper.maxX Jumper.minY Jumper.maxY
                              Jumper.w Jumper.h].
  repeat (split; [reflexivity|]).
  split; [apply sub_fin|]. split; [apply sub_fin|].
  split.
  - intros p Hp.
    assert (Hfx : In (fst p) (fst q :: map fst qs)).
    { change (In (fst p) (map fst (q :: qs))). apply in_map, Hp. }
    assert (Hfy : In (snd p) (snd q :: map snd qs)).
    { change (In (snd p) (map snd (q :: qs))). apply in_map, Hp. }
    auto.
  - auto.
Qed.

(** ** The jumper page as the user drives it *)

Section JumperPage.

Context {M : MathObject}.







End JumperPage.


(** ** The jumper validation always answers *)

Lemma jumper_checks_pass f :
  violated (jumper_number_checks f) = [] ->
  violated (jumper_hole_checks f) = [] ->
  exists i b c e1 e2 : Q, jumper_reads f i b c e1 e2.
Proof.
  intros E1 E2.
  pose proof (violated_nil _ E1) as H1. pose proof (violated_nil _ E2) as H2.
  unfold jumper_number_checks in H1. unfold jumper_hole_checks in H2.
  cbv zeta in H1, H2.
  destruct (not_positive_false _ (H1 _ _ (or_introl eq_refl)))
    as (i & Ei & Hi).
  destruct (not_positive_false _ (H1 _ _ (or_intror (or_introl eq_refl))))
    as (b & Eb & Hb).
  destruct (not_positive_false _
              (H1 _ _ (or_intror (or_intror (or_introl eq_refl)))))
    as (c & Ec & Hc).
  destruct (negative_false _
              (H1 _ _ (or_intror (or_intror (or_intror (or_introl eq_refl))))))
    as (e1 & Ee1 & He1).
  destruct (negative_false _
              (H1 _ _ (or_intror (or_intror (or_intror
                         (or_intror (or_introl eq_refl)))))))
    as (e2 & Ee2 & He2).
  pose proof (H2 _ _ (or_introl eq_refl)) as Hbc.
  pose proof (H2 _ _ (or_intror (or_introl eq_refl))) as Hgap.
  rewrite Eb, Ec in Hbc. rewrite Ei, Eb, Ec in Hgap.
  apply (le_false_inv _ _ _ _ (Fin_val c) (Fin_val b)) in Hbc.
  apply (le_false_inv _ _ _ _ (half_val c)
           (add_val _ _ _ _ (half_val b) (half_val i))) in Hgap.
  exists i, b, c, e1, e2. unfold jumper_reads.
  repeat (split; [assumption|]). assumption.
Qed.

(** X11.  With a [Math] of finite results that is exact along the axis, the
    jumper validation always answers, and what it reports is the messages
    of the checks that failed or the one report of contained circles: the
    two errors that [buildOD] has of its own are never reached. *)
Theorem jumper_validation_answers (M : MathObject) (f : Form) :
  finite_math M -> hypot_exact_on_axis M ->
  exists o,
    Jumper.validate f = Some o
    /\ match o with
       | Jumper.Errors es =>
           es <> []
           /\ (es = violated (jumper_number_checks f)
               \/ es = violated (jumper_hole_checks f)
               \/ es = [Jumper.CONTAINED])
       | Jumper.Passed _ => True
       end.
Proof.
  intros Hfin Haxis. rewrite jumper_phases.
  destruct (violated (jumper_number_checks f)) as [|m1 l1] eqn:E1.
  2:{ eexists. split; [reflexivity|]. split; [discriminate | auto]. }
  destruct (violated (jumper_hole_checks f)) as [|m2 l2] eqn:E2.
  2:{ eexists. split; [reflexivity|]. split; [discriminate | auto]. }
  destruct (jumper_checks_pass f E1 E2) as (i & b & c & e1 & e2 & Hreads).
  pose proof (jumper_phases f) as Hp. rewrite E1, E2 in Hp. rewrite <- Hp.
  destruct (Qlt_le_dec (Qabs (b / 2 + e1 - (i / 2 + e2))) (c / 2)) as [Hlt|Hle].
  - destruct (validate_passed Hfin Haxis _ _ _ _ _ _ Hreads Hlt)
      as (ps & v & Hv & _).
    exists (Jumper.Passed v). split; [exact Hv | exact I].
  - exists (Jumper.Errors [Jumper.CONTAINED]).
    split; [apply (validate_contained _ _ _ _ _ _ Hreads Hle)|].
    split; [discriminate | auto].
Qed.

(** ** Outer circles of one radius *)

Lemma full_turn (M : MathObject) (cx cy : number) (r a : Q) (ccw : bool) :
  exists (n : nat) (pts : list point),
    Jumper.arcPoints cx cy (Fin r) (Fin a) (Fin a) ccw Jumper.maxSegLen
    = Some pts
    /\ (10 <= n)%nat
    /\ List.length pts = S n
    /\ forall i, (i <= n)%nat ->
         exists ang,
           is_val ang (a + (if ccw then 1 else -1) * (Approx.pi * 2)
                           * (inject_Z (Z.of_nat i) / inject_Z (Z.of_nat n)))
           /\ nth_error pts i
              = Some (cx + Fin r * Math_cos ang, cy + Fin r * Math_sin ang).
Proof.
  destruct (wind_ends ccw a a) as [e He]. pose proof two_pi_pos as Hp.
  assert (Hspec : (if ccw then a < e else e < a)
                  /\ e - a == (if ccw then 1 else -1) * (Approx.pi * 2)).
  { destruct ccw.
    - destruct (wind_ccw_spec _ _ _ _ He) as (k & Hk & Hlt & Hor).
      split; [exact Hlt|].
      destruct Hor as [->|Hle].
      + change (inject_Z (Z.of_nat 0)) with 0 in Hk. lra.
      + destruct k as [|k]; [change (inject_Z (Z.of_nat 0)) with 0 in Hk; lra|].
        rewrite inject_Z_succ in Hk.
        assert (0 <= inject_Z (Z.of_nat k)).
        { change 0 with (inject_Z 0). rewrite <- Zle_Qle. lia. }
        nra.
    - destruct (wind_cw_spec _ _ _ _ He) as (k & Hk & Hlt & Hor).
      split; [exact Hlt|].
      destruct Hor as [->|Hle].
      + change (inject_Z (Z.of_nat 0)) with 0 in Hk. lra.
      + destruct k as [|k]; [change (inject_Z (Z.of_nat 0)) with 0 in Hk; lra|].
        rewrite inject_Z_succ in Hk.
        assert (0 <= inject_Z (Z.of_nat k)).
        { change 0 with (inject_Z 0). rewrite <- Zle_Qle. lia. }
        nra. }
  destruct Hspec as [Hdir Hturn].
  destruct (arcPoints_points M cx cy r a a e ccw He Hdir)
    as (n & pts & Hpts & Hn & Hlen & _ & Hnth).
  exists n, pts. split; [exact Hpts|]. split; [exact Hn|]. split; [exact Hlen|].
  intros i Hi. destruct (Hnth i Hi) as (ang & Hang & Hi').
  exists ang. split; [|exact Hi'].
  eapply is_val_eq; [exact Hang|]. rewrite Hturn. reflexivity.
Qed.

Lemma half_left (c : Q) : num 0 - (- Fin c / num 2) = fin (c / 2).
Proof.
  change (num 0) with (Fin 0). change (num 2) with (Fin 2).
  cbn [neg]. unfold fin at 1. cbn [div]. change (Qzerob 2) with false.
  cbv iota. unfold fin at 1. rewrite sub_fin. apply fin_eq.
  rewrite !Qred_correct. field.
Qed.

Lemma half_right (c : Q) : Fin c / num 2 - num 0 = fin (c / 2).
Proof.
  change (num 0) with (Fin 0). change (num 2) with (Fin 2).
  cbn [div]. change (Qzerob 2) with false. cbv iota.
  unfold fin at 1. rewrite sub_fin. apply fin_eq.
  rewrite !Qred_correct. field.
Qed.

Section EqualRadii.

Context {M : MathObject}.
Hypothesis Hfin : finite_math M.
Hypothesis Haxis : hypot_exact_on_axis M.

(** The tangency point on a circle of radius [r] about [(c, 0)], in the
    direction [a]. *)
Definition at_angle (r : Q) (c a : number) : point :=
  (c + Fin r * Math_cos a, num 0 + Fin r * Math_sin a).

(** The two directions of the tangency points of circles of one radius
    whose centres are [q] apart on the x axis. *)
Definition direction (q r : Q) (upper : bool) : number :=
  let k := (Fin r - Fin r) / fin (Qabs q) in
  let base := Math_atan2 (Fin 0) (Fin q) in
  let phi := Math_acos k in
  if upper then base + phi else base - phi.

Lemma direction_finite q r upper : 0 < q -> finite (direction q r upper).
Proof.
  intro Hq. unfold direction. cbv zeta.
  assert (Hk : is_val ((Fin r - Fin r) / fin (Qabs q)) 0).
  { eapply is_val_eq.
    - apply div_val; [apply sub_val; apply Fin_val | apply fin_val|].
      rewrite Qabs_pos by lra. lra.
    - field. rewrite Qabs_pos by lra. lra. }
  destruct Hk as (k & -> & Hk).
  assert (Fphi : finite (Math_acos (Fin k))).
  { apply Hfin. rewrite Hk. discriminate. }
  assert (Fbase : finite (Math_atan2 (Fin 0) (Fin q))) by apply Hfin.
  destruct upper; [apply finite_add | apply finite_sub]; assumption.
Qed.

Lemma equal_radii_tangents (c1x c2x : number) (q r : Q) :
  c2x - c1x = Fin q -> 0 < q ->
  Jumper.externalTangents c1x (num 0) (Fin r) c2x (num 0) (Fin r)
  = let aA := direction q r true in
    let aB := direction q r false in
    if snd (at_angle r c1x aA) >=? snd (at_angle r c1x aB) then
      Some {| Jumper.top := {| Jumper.p1 := at_angle r c1x aA;
                               Jumper.p2 := at_angle r c2x aA |};
              Jumper.bottom := {| Jumper.p1 := at_angle r c1x aB;
                                  Jumper.p2 := at_angle r c2x aB |} |}
    else
      Some {| Jumper.top := {| Jumper.p1 := at_angle r c1x aB;
                               Jumper.p2 := at_angle r c2x aB |};
              Jumper.bottom := {| Jumper.p1 := at_angle r c1x aA;
                                  Jumper.p2 := at_angle r c2x aA |} |}.
Proof.
  intros Edx Hq. unfold Jumper.externalTangents. cbv zeta.
  change (num 0 - num 0) with (Fin 0). rewrite Edx, (Haxis q).
  assert (Hd : is_val (fin (Qabs q)) q).
  { eapply is_val_eq; [apply fin_val|]. apply Qabs_pos. lra. }
  unfold gt. rewrite (lt_true _ _ _ _ (num_val 0) Hd)
    by (change (inject_Z 0) with 0; lra).
  cbn [negb].
  assert (Hk : is_val ((Fin r - Fin r) / fin (Qabs q)) 0).
  { eapply is_val_eq.
    - apply div_val; [apply sub_val; apply Fin_val | exact Hd | lra].
    - field. lra. }
  rewrite (lt_false _ _ _ _ (num_val 1) (abs_val _ _ Hk))
    by (change (inject_Z 1) with 1; rewrite Qabs_pos; lra).
  reflexivity.
Qed.

End EqualRadii.

(** The arc [chosenArc] takes on a circle about the origin from a point
    back to the same point is one whole turn. *)
Lemma chosenArc_same_point (M : MathObject) (r : Q) (p : point)
    (wantFn : number -> number -> bool) :
  finite_math M -> finite_point p ->
  exists (arc : list point) (a : Q) (n : nat) (ccw : bool),
    Jumper.chosenArc (num 0) (num 0) (Fin r) p p wantFn = Some arc
    /\ (10 <= n)%nat
    /\ List.length arc = S n
    /\ forall i, (i <= n)%nat ->
         exists ang,
           is_val ang (a + (if ccw then 1 else -1) * (Approx.pi * 2)
                           * (inject_Z (Z.of_nat i) / inject_Z (Z.of_nat n)))
           /\ nth_error arc i
              = Some (num 0 + Fin r * Math_cos ang, num 0 + Fin r * Math_sin ang).
Proof.
  intros Hfin [Hp1 Hp2]. unfold Jumper.chosenArc. cbv zeta.
  assert (Ha : finite (Jumper.angleOf (num 0) (num 0) (fst p) (snd p))).
  { apply (atan2_finite Hfin); apply finite_sub;
      first [assumption | apply finite_num]. }
  destruct Ha as [a ->].
  destruct (full_turn M (num 0) (num 0) r a true) as (n1 & l1 & -> & N1 & L1 & P1).
  destruct (full_turn M (num 0) (num 0) r a false) as (n2 & l2 & -> & N2 & L2 & P2).
  destruct (nth_error l1 (Nat.div (List.length l1) 2)) as [m1|] eqn:E1.
  2:{ apply nth_error_None in E1. rewrite L1 in E1.
      pose proof (Nat.div_lt (S n1) 2 ltac:(lia) ltac:(lia)). lia. }
  destruct (nth_error l2 (Nat.div (List.length l2) 2)) as [m2|] eqn:E2.
  2:{ apply nth_error_None in E2. rewrite L2 in E2.
      pose proof (Nat.div_lt (S n2) 2 ltac:(lia) ltac:(lia)). lia. }
  destruct (wantFn (fst m1) (snd m1) && negb (wantFn (fst m2) (snd m2)));
    [exists l1, a, n1, true; auto|].
  destruct (wantFn (fst m2) (snd m2) && negb (wantFn (fst m1) (snd m1)));
    [exists l2, a, n2, false; auto|].
  destruct (Nat.leb (List.length l1) (List.length l2));
    [exists l1, a, n1, true; auto | exists l2, a, n2, false; auto].
Qed.

(** X12.  When the bolt circles and the centre circle have one outer radius, the
    two upper tangents touch the centre circle at the same point, and the
    arc of the centre circle that the outline takes between them is a whole
    turn around it: at least ten segments whose angles advance by equal
    steps over a full circle. *)
Theorem equal_radii_whole_circle (M : MathObject) (cc r : Q) :
  finite_math M -> hypot_exact_on_axis M -> 0 < cc ->
  exists (tLC tCR : Jumper.tangents) (arc : list point) (a : Q) (n : nat)
         (ccw : bool),
    Jumper.externalTangents (- Fin cc / num 2) (num 0) (Fin r)
                            (num 0) (num 0) (Fin r) = Some tLC
    /\ Jumper.externalTangents (num 0) (num 0) (Fin r)
                               (Fin cc / num 2) (num 0) (Fin r) = Some tCR
    /\ Jumper.p2 (Jumper.top tLC) = Jumper.p1 (Jumper.top tCR)
    /\ Jumper.chosenArc (num 0) (num 0) (Fin r)
         (Jumper.p2 (Jumper.top tLC)) (Jumper.p1 (Jumper.top tCR))
         (fun _x y => y >? num 0) = Some arc
    /\ (10 <= n)%nat
    /\ List.length arc = S n
    /\ forall i, (i <= n)%nat ->
         exists ang,
           is_val ang (a + (if ccw then 1 else -1) * (Approx.pi * 2)
                           * (inject_Z (Z.of_nat i) / inject_Z (Z.of_nat n)))
           /\ nth_error arc i
              = Some (num 0 + Fin r * Math_cos ang, num 0 + Fin r * Math_sin ang).
Proof.
  intros Hfin Haxis Hcc.
  assert (Hq : 0 < Qred (cc / 2)).
  { rewrite Qred_correct. unfold Qdiv. change (/ 2) with (1 # 2). lra. }
  pose proof (equal_radii_tangents Haxis (- Fin cc / num 2) (num 0)
                (Qred (cc / 2)) r (half_left cc) Hq) as HL.
  pose proof (equal_radii_tangents Haxis (num 0) (Fin cc / num 2)
                (Qred (cc / 2)) r (half_right cc) Hq) as HR.
  cbv zeta in HL, HR.
  set (aA := direction (Qred (cc / 2)) r true) in *.
  set (aB := direction (Qred (cc / 2)) r false) in *.
  assert (FA : finite aA) by (apply direction_finite; assumption).
  assert (FB : finite aB) by (apply direction_finite; assumption).
  assert (same : snd (at_angle r (- Fin cc / num 2) aA) = snd (at_angle r (num 0) aA)
                 /\ snd (at_angle r (- Fin cc / num 2) aB) = snd (at_angle r (num 0) aB))
    by (split; reflexivity).
  destruct same as [sA sB]. rewrite sA, sB in HL.
  destruct (snd (at_angle r (num 0) aA) >=? snd (at_angle r (num 0) aB)).
  - destruct (chosenArc_same_point M r (at_angle r (num 0) aA)
                (fun _x y => y >? num 0) Hfin) as (arc & a & n & ccw & Harc & Rest).
    { apply (circle_point_finite Hfin);
        first [apply finite_num | apply finite_Fin | assumption]. }
    eexists _, _, arc, a, n, ccw.
    split; [exact HL|]. split; [exact HR|]. split; [reflexivity|].
    split; [exact Harc | exact Rest].
  - destruct (chosenArc_same_point M r (at_angle r (num 0) aB)
                (fun _x y => y >? num 0) Hfin) as (arc & a & n & ccw & Harc & Rest).
    { apply (circle_point_finite Hfin);
        first [apply finite_num | apply finite_Fin | assumption]. }
    eexists _, _, arc, a, n, ccw.
    split; [exact HL|]. split; [exact HR|]. split; [reflexivity|].
    split; [exact Harc | exact Rest].
Qed.

Lemma equal_radii_whole_circle_witness :
  exists (tLC tCR : Jumper.tangents) (arc : list point) (a : Q) (n : nat)
         (ccw : bool),
    @Jumper.externalTangents Approx.RationalMath (- Fin 6 / num 2) (num 0) (Fin 1)
                            (num 0) (num 0) (Fin 1) = Some tLC
    /\ @Jumper.externalTangents Approx.RationalMath (num 0) (num 0) (Fin 1)
                               (Fin 6 / num 2) (num 0) (Fin 1) = Some tCR
    /\ Jumper.p2 (Jumper.top tLC) = Jumper.p1 (Jumper.top tCR)
    /\ @Jumper.chosenArc Approx.RationalMath (num 0) (num 0) (Fin 1)
         (Jumper.p2 (Jumper.top tLC)) (Jumper.p1 (Jumper.top tCR))
         (fun _x y => y >? num 0) = Some arc
    /\ (10 <= n)%nat
    /\ List.length arc = S n
    /\ forall i, (i <= n)%nat ->
         exists ang,
           is_val ang (a + (if ccw then 1 else -1) * (Approx.pi * 2)
                           * (inject_Z (Z.of_nat i) / inject_Z (Z.of_nat n)))
           /\ nth_error arc i
              = Some (num 0 + Fin 1 * @Math_cos Approx.RationalMath ang,
                      num 0 + Fin 1 * @Math_sin Approx.RationalMath ang).
Proof.
  apply (equal_radii_whole_circle Approx.RationalMath 6 1
           rational_finite_math rational_hypot_axis).
  reflexivity.
Defined.

(** * The flange generator *)

(** ** The clamped corner radius *)

Lemma Qeq_bool_true a b : a == b -> Qeq_bool a b = true.
Proof. apply Qeq_bool_iff. Qed.

Lemma Qeq_bool_false a b : ~ a == b -> Qeq_bool a b = false.
Proof.
  intro H. destruct (Qeq_bool a b) eqn:E; [|reflexivity].
  apply Qeq_bool_iff in E. contradiction.
Qed.

Lemma min_val x y a b :
  is_val x a -> is_val y b ->
  exists m, is_val (Math_min x y) m /\ m <= a /\ m <= b /\ (m == a \/ m == b).
Proof.
  intros (a' & -> & Ha) (b' & -> & Hb). cbn [Math_min le].
  destruct (Qle_bool a' b') eqn:E.
  - apply Qle_bool_iff in E. exists a. split; [exists a'; auto|].
    split; [lra|]. split; [lra|]. left. reflexivity.
  - assert (H : b' < a').
    { destruct (Qlt_le_dec b' a') as [H|H]; [exact H|].
      apply Qle_bool_iff in H. congruence. }
    exists b. split; [exists b'; auto|].
    split; [lra|]. split; [lra|]. right. reflexivity.
Qed.

Lemma max_val x y a b :
  is_val x a -> is_val y b ->
  exists m, is_val (Math_max x y) m /\ a <= m /\ b <= m /\ (m == a \/ m == b).
Proof.
  intros (a' & -> & Ha) (b' & -> & Hb). cbn [Math_max le].
  destruct (Qle_bool a' b') eqn:E.
  - apply Qle_bool_iff in E. exists b. split; [exists b'; auto|].
    split; [lra|]. split; [lra|]. right. reflexivity.
  - assert (H : b' < a').
    { destruct (Qlt_le_dec b' a') as [H|H]; [exact H|].
      apply Qle_bool_iff in H. congruence. }
    exists a. split; [exists a'; auto|].
    split; [lra|]. split; [lra|]. left. reflexivity.
Qed.

Lemma seq_val x y a b : is_val x a -> is_val y b -> (x === y) = Qeq_bool a b.
Proof.
  intros (a' & -> & Ha) (b' & -> & Hb). cbn [seq].
  destruct (Qeq_bool a b) eqn:E.
  - apply Qeq_bool_true. apply Qeq_bool_iff in E. rewrite Ha, Hb. exact E.
  - apply Qeq_bool_false. intro H. rewrite Ha, Hb in H.
    apply Qeq_bool_true in H. congruence.
Qed.

Lemma clampRadius_val (r : number) (w h : Q) :
  exists c : Q,
    is_val (Flange.clampRadius r (Fin w) (Fin h)) c
    /\ 0 <= c /\ (c == 0 \/ (c <= w / 2 /\ c <= h / 2)).
Proof.
  unfold Flange.clampRadius. cbv zeta.
  destruct (negb (Number_isFinite r) || (r <=? num 0)) eqn:E.
  - exists 0. split; [apply num_val|]. split; [lra|]. left. reflexivity.
  - destruct (not_positive_false _ E) as (q & -> & Hq).
    destruct (min_val _ _ _ _ (half_val w) (half_val h))
      as (m1 & Hm1 & L1 & L2 & O1).
    destruct (min_val _ _ _ _ (Fin_val q) Hm1) as (m2 & Hm2 & L3 & L4 & O2).
    destruct (max_val _ _ _ _ (num_val 0) Hm2) as (c & Hc & L5 & L6 & O3).
    change (inject_Z 0) with 0 in L5, O3.
    exists c. split; [exact Hc|]. split; [exact L5|].
    destruct O3 as [O3|O3]; [left; exact O3 | right]. lra.
Qed.

Lemma clampRadius_fixed (q w h : Q) :
  (Flange.clampRadius (Fin q) (Fin w) (Fin h) === Fin q) = true
  <-> q == 0 \/ (0 < q /\ q <= w / 2 /\ q <= h / 2).
Proof.
  unfold Flange.clampRadius. cbv zeta. cbn [Number_isFinite negb orb].
  destruct (Fin q <=? num 0) eqn:E.
  - apply (le_val _ _ _ _ (Fin_val q) (num_val 0)) in E.
    change (inject_Z 0) with 0 in E.
    rewrite (seq_val _ _ _ _ (num_val 0) (Fin_val q)).
    change (inject_Z 0) with 0. split.
    + intro H. apply Qeq_bool_iff in H. left. rewrite H. reflexivity.
    + intros [H|[H _]]; [|lra]. apply Qeq_bool_true. rewrite H. reflexivity.
  - apply (le_false_inv _ _ _ _ (Fin_val q) (num_val 0)) in E.
    change (inject_Z 0) with 0 in E.
    destruct (min_val _ _ _ _ (half_val w) (half_val h))
      as (m1 & Hm1 & L1 & L2 & O1).
    destruct (min_val _ _ _ _ (Fin_val q) Hm1) as (m2 & Hm2 & L3 & L4 & O2).
    destruct (max_val _ _ _ _ (num_val 0) Hm2) as (c & Hc & L5 & L6 & O3).
    change (inject_Z 0) with 0 in L5, O3.
    rewrite (seq_val _ _ _ _ Hc (Fin_val q)). split.
    + intro H. apply Qeq_bool_iff in H. right. lra.
    + intros [H|(_ & H1 & H2)]; [lra|]. apply Qeq_bool_true.
      destruct O3 as [O3|O3]; destruct O2 as [O2|O2];
        destruct O1 as [O1|O1]; lra.
Qed.

(** X13.  For finite sides, [clampRadius] gives a finite radius that is not
    negative and that, unless it is [0], is at most half of either side.
    It gives back the radius it was asked for exactly when that radius is
    [0], or positive and at most half of either side; a negative radius
    is not given back. *)
Theorem clampRadius_bounds (r : number) (w h : Q) :
  exists c : Q,
    is_val (Flange.clampRadius r (Fin w) (Fin h)) c
    /\ 0 <= c
    /\ (c == 0 \/ (c <= w / 2 /\ c <= h / 2))
    /\ forall q, r = Fin q ->
         ((Flange.clampRadius r (Fin w) (Fin h) === r) = true
          <-> q == 0 \/ (0 < q /\ q <= w / 2 /\ q <= h / 2)).
Proof.
  destruct (clampRadius_val r w h) as (c & Hc & H0 & Hle).
  exists c. split; [exact Hc|]. split; [exact H0|]. split; [exact Hle|].
  intros q ->. apply clampRadius_fixed.
Qed.

(** ** A circle at the centre of the OD *)




(** ** The points of a rounded rectangle *)

Section FlangePoints.

Context {M : MathObject}.

Lemma arc_length rr n pts cx cy s e :
  List.length (Flange.arc rr n pts cx cy s e) = (List.length pts + S n)%nat.
Proof.
  unfold Flange.arc.
  assert (H : forall l acc,
            List.length
              (fold_left
                 (fun pts i =>
                    let i := num (Z.of_nat i) in
                    let t := s + (i / num (Z.of_nat n)) * (e - s) in
                    push pts [(cx + rr * Math_cos t, cy + rr * Math_sin t)])
                 l acc)
            = (List.length acc + List.length l)%nat).
  { induction l as [|i l IH]; intro acc; [simpl; lia|].
    cbn [fold_left]. rewrite IH. unfold push. rewrite length_app. simpl. lia. }
  rewrite H, length_seq. reflexivity.
Qed.

End FlangePoints.

(** ** The drawing of the flange *)

Section FlangeDrawingAll.

Context {M : MathObject}.

(** The records of the centre cutout: a circle, or the polyline of a
    rounded rectangle. *)
Definition cutout_records (v : Flange.valid) : list (string * string) :=
  if String.eqb (Flange.cutoutType v) "circle" then
    circle_records (num 0) (num 0) (Flange.cutoutDia v / num 2) "Holes"
  else
    polyline_records
      (Flange.roundedRectPoints (Flange.cutoutX v) (Flange.cutoutY v)
         (Flange.cutoutR v) 24)
      "Holes" true.

Lemma flange_records_all (v : Flange.valid) :
  records (Flange.drawing_lines v)
  = Some (header_records
          ++ polyline_records
               (Flange.roundedRectPoints (Flange.odX v) (Flange.odY v)
                  (Flange.cornerR v) 24)
               "Perimeter" true
          ++ (circle_records (- (Flange.bhCCX v / num 2))
                (- (Flange.bhCCY v / num 2)) (Flange.bhDia v / num 2) "Holes"
              ++ circle_records (Flange.bhCCX v / num 2)
                   (- (Flange.bhCCY v / num 2)) (Flange.bhDia v / num 2) "Holes"
              ++ circle_records (- (Flange.bhCCX v / num 2))
                   (Flange.bhCCY v / num 2) (Flange.bhDia v / num 2) "Holes"
              ++ circle_records (Flange.bhCCX v / num 2)
                   (Flange.bhCCY v / num 2) (Flange.bhDia v / num 2) "Holes")
          ++ cutout_records v
          ++ [ ("0", "ENDSEC"); ("0", "EOF") ])%list.
Proof.
  unfold Flange.drawing_lines, cutout_records. cbv zeta.
  erewrite records_app by reflexivity.
  erewrite records_app by apply records_polyline.
  erewrite records_app by reflexivity.
  destruct (String.eqb (Flange.cutoutType v) "circle").
  - reflexivity.
  - erewrite records_app by apply records_polyline. reflexivity.
Qed.

End FlangeDrawingAll.

(** X15.  Once a validation has passed and a CAD name is typed, the download of
    the flange is the lines of its drawing joined by line feeds; they pair
    up as code and value, and the entities they hold are, in this order:
    the closed polyline of the OD on layer Perimeter, of four vertices when
    the clamped corner radius is [0] and of a hundred otherwise; the four
    bolt holes, circles on layer Holes at the four combinations of half
    the spacings; and the cutout on layer Holes, a circle at the origin or
    the closed polyline of its rounded rectangle. *)
Theorem flange_drawing (M : MathObject) (p : Shared.page Flange.valid)
    (v : Flange.valid) :
  is_empty (trim (Shared.form p "filename")) = false ->
  Shared.lastValid p = Some v ->
  let lines := Flange.drawing_lines v in
  let odPts := Flange.roundedRectPoints (Flange.odX v) (Flange.odY v)
                 (Flange.cornerR v) 24 in
  let hx := Flange.bhCCX v / num 2 in
  let hy := Flange.bhCCY v / num 2 in
  let r := Flange.bhDia v / num 2 in
  Flange.downloadDXF p = Some (join LF lines)
  /\ List.length odPts
     = (if Flange.clampRadius (Flange.cornerR v) (Flange.odX v) (Flange.odY v)
           === num 0
        then 4 else 100)%nat
  /\ exists rs,
       records lines = Some rs
       /\ entities (groups rs)
          = (polyline_group "Perimeter" true
             :: map (vertex_group "Perimeter") odPts
             ++ [ ("SEQEND", []);
                  circle_group (- hx) (- hy) r "Holes";
                  circle_group hx (- hy) r "Holes";
                  circle_group (- hx) hy r "Holes";
                  circle_group hx hy r "Holes" ]
             ++ (if String.eqb (Flange.cutoutType v) "circle" then
                   [ circle_group (num 0) (num 0) (Flange.cutoutDia v / num 2)
                       "Holes" ]
                 else
                   polyline_group "Holes" true
                   :: map (vertex_group "Holes")
                        (Flange.roundedRectPoints (Flange.cutoutX v)
                           (Flange.cutoutY v) (Flange.cutoutR v) 24)
                   ++ [ ("SEQEND", []) ])
             ++ [ ("ENDSEC", []); ("EOF", []) ])%list.
Proof.
  intros Hname Hv lines odPts hx hy r.
  split; [apply downloadDXF_text; assumption|]. split.
  - unfold odPts, Flange.roundedRectPoints. cbv zeta.
    destruct (Flange.clampRadius _ _ _ === num 0); [reflexivity|].
    rewrite !arc_length. reflexivity.
  - eexists. split; [apply flange_records_all|].
    rewrite groups_app by reflexivity.
    rewrite groups_of_polyline by reflexivity.
    unfold cutout_records.
    destruct (String.eqb (Flange.cutoutType v) "circle").
    + reflexivity.
    + rewrite <- !app_assoc.
      cbn [app circle_records groups attributes String.eqb Ascii.eqb Bool.eqb].
      rewrite groups_of_polyline by reflexivity.
      rewrite <- !app_assoc. reflexivity.
Qed.

(** ** The flange page as the user drives it *)

Section FlangePage.

Context {M : MathObject}.

(** A new value of the cutout type comes with its [change] event, a new
    value of another element with its [input] event. *)
Definition flange_step (p : Shared.page Flange.valid) (a : action)
  : Shared.page Flange.valid :=
  match a with
  | Type_in id text =>
      if String.eqb id "cutoutType" then Flange.updateCutoutUI text p
      else Flange.input id text p
  | Click_validate => Flange.validateAndPreview p
  end.

Lemma flange_read_other f id text :
  String.eqb id "cutoutType" = false ->
  existsb (String.eqb id) Flange.INPUTS = false ->
  Flange.read (set_value f id text) = Flange.read f
  /\ trim (set_value f id text "cornerR") = trim (f "cornerR")
  /\ trim (set_value f id text "cutoutR") = trim (f "cutoutR").
Proof.
  intros Ht H. cbn [existsb Flange.INPUTS] in H. split_inputs H.
  unfold Flange.read. rewrite !set_value_other by assumption.
  repeat split; reflexivity.
Qed.

Lemma flange_validate_other f id text :
  String.eqb id "cutoutType" = false ->
  existsb (String.eqb id) Flange.INPUTS = false ->
  Flange.validate (set_value f id text) = Flange.validate f.
Proof.
  intros Ht H. destruct (flange_read_other f id text Ht H) as (Hr & Hc & Hk).
  unfold Flange.validate, Flange.basicErrors, Flange.clearanceErrors.
  rewrite Hr, Hc, Hk. reflexivity.
Qed.

Definition flange_fresh (p : Shared.page Flange.valid) : Prop :=
  forall v, Shared.lastValid p = Some v ->
            Flange.validate (Shared.form p) = Flange.Passed v.

Lemma flange_step_fresh p a : flange_fresh p -> flange_fresh (flange_step p a).
Proof.
  intros Hp v. destruct a as [id text|]; cbn [flange_step].
  - destruct (String.eqb id "cutoutType") eqn:Et.
    + unfold Flange.updateCutoutUI. cbn [Shared.lastValid]. discriminate.
    + unfold Flange.input. cbv zeta.
      destruct (existsb (String.eqb id) Flange.INPUTS) eqn:E;
        cbn [Shared.lastValid Shared.form]; [discriminate|].
      intro Hv. rewrite (flange_validate_other _ _ _ Et E). apply Hp, Hv.
  - unfold Flange.validateAndPreview.
    destruct (Flange.validate (Shared.form p)) as [es|v'] eqn:E;
      cbn [Shared.lastValid Shared.form]; [discriminate|].
    intro Hv. injection Hv as <-. exact E.
Qed.

Lemma flange_run_fresh actions : forall p,
  flange_fresh p -> flange_fresh (fold_left flange_step actions p).
Proof.
  induction actions as [|a actions IH]; intros p Hp; [exact Hp|].
  cbn [fold_left]. apply IH, flange_step_fresh, Hp.
Qed.

End FlangePage.

(** X16.  Whatever the user types, chooses and clicks on the flange page,
    starting with nothing validated: a download saves nothing unless a CAD
    name is typed and the inputs as they stand have passed the validation,
    and what it saves is the drawing of these inputs. *)
Theorem flange_saves_what_is_shown (M : MathObject) (f0 : Form)
    (actions : list action) (text : string) :
  let p := fold_left flange_step actions
             {| Shared.form := f0; Shared.lastValid := None |} in
  Flange.downloadDXF p = Some text
  <-> is_empty (trim (Shared.form p "filename")) = false
      /\ exists v, Shared.lastValid p = Some v
                   /\ Flange.validate (Shared.form p) = Flange.Passed v
                   /\ text = join LF (Flange.drawing_lines v).
Proof.
  intro p.
  assert (Hp : flange_fresh p).
  { apply flange_run_fresh. intros v H. discriminate H. }
  split.
  - intro H. unfold Flange.downloadDXF in H. cbv zeta in H.
    destruct (is_empty (trim (Shared.form p "filename"))) eqn:En;
      [discriminate|].
    destruct (Shared.lastValid p) as [v|] eqn:Ev; [|discriminate].
    split; [reflexivity|]. exists v. split; [reflexivity|].
    split; [apply Hp, Ev|].
    pose proof (downloadDXF_text p v En Ev) as Ht.
    unfold Flange.downloadDXF in Ht. rewrite En, Ev in Ht. cbv zeta in Ht.
    congruence.
  - intros (En & v & Ev & _ & ->). apply downloadDXF_text; assumption.
Qed.

(** ** What a flange validation that passes has checked *)




(** * The firetube generator *)

(** ** The text of a number *)

(** The first character of the text of a number without its sign is a
    digit, or the first letter of [NaN] or [Infinity]. *)
Definition starts_unsigned (c : ascii) : bool :=
  is_digit c || Ascii.eqb c "N" || Ascii.eqb c "I".

Definition head_is (p : ascii -> bool) (s : string) : Prop :=
  match s with
  | String c _ => p c = true
  | EmptyString => False
  end.

Lemma head_is_app p s t : head_is p s -> head_is p (s ++ t).
Proof. destruct s; [contradiction | exact (fun H => H)]. Qed.

Lemma digits_of_head z : head_is is_digit (digits_of z).
Proof.
  unfold digits_of.
  destruct (N.to_uint (Z.to_N z)); reflexivity.
Qed.

Lemma take_head p n s : (0 < n)%nat -> head_is p s -> head_is p (take n s).
Proof. destruct n; [lia|]. destruct s; [contradiction|]. intros _ H. exact H. Qed.

Lemma positive_toString_head q : head_is is_digit (positive_toString q).
Proof.
  unfold positive_toString. destruct (significand q) as [s n].
  pose proof (digits_of_head s) as Hd.
  destruct ((Z.of_nat (String.length (digits_of s)) <=? n)%Z && (n <=? 21)%Z).
  { apply head_is_app, Hd. }
  destruct ((0 <? n)%Z && (n <=? 21)%Z) eqn:E.
  { apply head_is_app, take_head; [|exact Hd].
    apply andb_prop in E as [E _]. apply Z.ltb_lt in E. lia. }
  destruct ((-6 <? n)%Z && (n <=? 0)%Z).
  { reflexivity. }
  destruct (Z.of_nat (String.length (digits_of s)) =? 1)%Z.
  - apply head_is_app, Hd.
  - apply head_is_app, take_head; [lia | exact Hd].
Qed.

Lemma toString_shape x :
  head_is starts_unsigned (toString x)
  \/ exists r, toString x = String "-" r /\ head_is starts_unsigned r.
Proof.
  destruct x as [| | |q]; cbn [toString].
  - left. reflexivity.
  - left. reflexivity.
  - right. eexists. split; reflexivity.
  - destruct (Qzerob q); [left; reflexivity|].
    destruct (Qposb q).
    + left. pose proof (positive_toString_head q) as H.
      destruct (positive_toString q); [contradiction|].
      cbn [head_is] in *. unfold starts_unsigned. rewrite H. reflexivity.
    + right. eexists. split; [reflexivity|].
      pose proof (positive_toString_head (- q)) as H.
      destruct (positive_toString (- q)); [contradiction|].
      cbn [head_is] in *. unfold starts_unsigned. rewrite H. reflexivity.
Qed.

(** X18.  [fmtIn] writes what [fmt] writes: the text of a number never starts
    with a point, with or without a sign, so neither of its two repairs
    applies. *)
Theorem fmtIn_is_fmt (n : number) : Firetube.fmtIn n = Firetube.fmt n.
Proof.
  unfold Firetube.fmtIn, Firetube.fmt. cbv zeta.
  destruct (toString_shape (Firetube.round6 n)) as [H | (r & -> & H)].
  - destruct (toString (Firetube.round6 n)) as [|c s]; [contradiction|].
    cbn [head_is] in H.
    destruct (Ascii.eqb_spec c "."); [subst; discriminate H|].
    destruct (Ascii.eqb_spec c "-"); [subst; discriminate H|].
    destruct c as [[] [] [] [] [] [] [] []]; try reflexivity; congruence.
  - destruct r as [|c s]; [contradiction|]. cbn [head_is] in H.
    destruct (Ascii.eqb_spec c "."); [subst; discriminate H|].
    destruct c as [[] [] [] [] [] [] [] []]; try reflexivity; congruence.
Qed.

(** ** The clearances *)

(** The four clearances with their labels, in the order of the code. *)
Definition clearance_rows (bd : Firetube.breakdown) : list (string * number) :=
  [ ("Long Side - Edge Of Hole to OD", Firetube.longToOD bd);
    ("Long Side - Edge Of Hole to ID", Firetube.longToID bd);
    ("Short Side - Edge Of Hole to OD", Firetube.shortToOD bd);
    ("Short Side - Edge Of Hole to ID", Firetube.shortToID bd) ].

Definition clearance_message (row : string * number) : string :=
  fst row ++ ": Current clearance is " ++ toFixed (snd row) 3 ++ " inches.".

Definition below_half (row : string * number) : bool :=
  snd row <? Fin (1 # 2).

Definition below_one (row : string * number) : bool :=
  negb (snd row <? Fin (1 # 2)) && (snd row <? num 1).

Lemma rule_row (l : string) (v : number) (e : Firetube.evaluation) :
  Firetube.errors (Firetube.rule l v e)
  = (Firetube.errors e ++ map clearance_message (filter below_half [(l, v)]))%list
  /\ Firetube.warnings (Firetube.rule l v e)
     = (Firetube.warnings e
        ++ map clearance_message (filter below_one [(l, v)]))%list.
Proof.
  unfold Firetube.rule, below_half, below_one, clearance_message, push.
  cbv zeta. cbn [filter map fst snd].
  destruct (v <? Fin (1 # 2)); destruct (v <? num 1);
    cbn [negb andb map Firetube.errors Firetube.warnings];
    rewrite ?app_nil_r; split; reflexivity.
Qed.

Lemma evaluateClearances_rows (bd : Firetube.breakdown) :
  Firetube.errors (Firetube.evaluateClearances bd)
  = map clearance_message (filter below_half (clearance_rows bd))
  /\ Firetube.warnings (Firetube.evaluateClearances bd)
     = map clearance_message (filter below_one (clearance_rows bd)).
Proof.
  unfold Firetube.evaluateClearances. cbv zeta.
  unfold clearance_rows.
  match goal with
  | |- context [filter _ [?a; ?b; ?c; ?d]] =>
      change [a; b; c; d] with ([a] ++ [b] ++ [c] ++ [d])%list
  end.
  rewrite !filter_app, !map_app.
  split.
  - rewrite !(fun l v e => proj1 (rule_row l v e)).
    cbn [Firetube.errors]. rewrite <- !app_assoc. reflexivity.
  - rewrite !(fun l v e => proj2 (rule_row l v e)).
    cbn [Firetube.warnings]. rewrite <- !app_assoc. reflexivity.
Qed.

(** X19.  [evaluateClearances] sorts the four clearances, in the order long side
    to OD, long side to ID, short side to OD, short side to ID: one below
    [0.5] gives an error, one from [0.5] and below [1] gives a warning, and
    any other, a clearance that is not a number among them, gives
    nothing.  So there are four messages at most, and no error exactly
    when no clearance is below [0.5]. *)
Theorem clearances_sorted (bd : Firetube.breakdown) :
  let e := Firetube.evaluateClearances bd in
  Firetube.errors e
  = map clearance_message (filter below_half (clearance_rows bd))
  /\ Firetube.warnings e
     = map clearance_message (filter below_one (clearance_rows bd))
  /\ (List.length (Firetube.errors e) + List.length (Firetube.warnings e)
      <= 4)%nat
  /\ (Firetube.errors e = []
      <-> forall row, In row (clearance_rows bd) -> below_half row = false).
Proof.
  intro e. destruct (evaluateClearances_rows bd) as [He Hw].
  split; [exact He|]. split; [exact Hw|]. split.
  - unfold e. rewrite He, Hw, !length_map.
    assert (H : forall l : list (string * number),
              (List.length (filter below_half l)
               + List.length (filter below_one l) <= List.length l)%nat).
    { induction l as [|row l IH]; [simpl; lia|].
      cbn [filter]. unfold below_one at 1.
      destruct (below_half row) eqn:E; unfold below_half in E; rewrite E;
        cbn [negb andb]; [simpl; lia|].
      destruct (snd row <? num 1); simpl; lia. }
    apply (H (clearance_rows bd)).
  - unfold e. rewrite He. split.
    + intros H row Hin. destruct (below_half row) eqn:E; [|reflexivity].
      assert (Hf : In row (filter below_half (clearance_rows bd))).
      { apply filter_In. split; assumption. }
      apply (in_map clearance_message) in Hf. rewrite H in Hf. destruct Hf.
    + intro H.
      assert (Hnil : filter below_half (clearance_rows bd) = []).
      { destruct (filter below_half (clearance_rows bd)) as [|row l] eqn:E;
          [reflexivity|].
        assert (Hin : In row (filter below_half (clearance_rows bd))).
        { rewrite E. left. reflexivity. }
        apply filter_In in Hin as [Hin Hb]. rewrite (H row Hin) in Hb.
        discriminate. }
      rewrite Hnil. reflexivity.
Qed.

(** ** What a download saves *)



Section FiretubeDownload.

Context {M : MathObject}.



End FiretubeDownload.


(** ** The entities of the firetube drawing *)

Definition line_group (layer : string) (x1 y1 x2 y2 : number)
  : string * list (string * string) :=
  ("LINE", [ ("8", layer); ("10", Firetube.fmt x1); ("20", Firetube.fmt y1);
             ("30", "0"); ("11", Firetube.fmt x2); ("21", Firetube.fmt y2);
             ("31", "0") ]).

Definition arc_group (layer : string) (cx cy r a1 a2 : number)
  : string * list (string * string) :=
  ("ARC", [ ("8", layer); ("10", Firetube.fmt cx); ("20", Firetube.fmt cy);
            ("30", "0"); ("40", Firetube.fmt r); ("50", Firetube.fmt a1);
            ("51", Firetube.fmt a2) ]).

(** An obround about the origin: the upper and the lower straight, then
    the right and the left half circle, each counter-clockwise. *)
Definition obround_groups (layer : string) (L W : number)
  : list (string * list (string * string)) :=
  let r := W / num 2 in
  let cx := (L - W) / num 2 in
  [ line_group layer (num 0 - cx) (num 0 + r) (num 0 + cx) (num 0 + r);
    line_group layer (num 0 + cx) (num 0 - r) (num 0 - cx) (num 0 - r);
    arc_group layer (num 0 + cx) (num 0) r (num 270) (num 90);
    arc_group layer (num 0 - cx) (num 0) r (num 90) (num 270) ].

Definition hole_lines (layer : string) (r : number) (c : point) : list string :=
  [ "0"; "CIRCLE"; "8"; layer; "10"; Firetube.fmt (fst c);
    "20"; Firetube.fmt (snd c); "30"; "0"; "40"; Firetube.fmt r ].

Definition hole_group (layer : string) (r : number) (c : point)
  : string * list (string * string) :=
  ("CIRCLE", [ ("8", layer); ("10", Firetube.fmt (fst c));
               ("20", Firetube.fmt (snd c)); ("30", "0");
               ("40", Firetube.fmt r) ]).

Lemma addCircles_flat cs : forall dxf layer r,
  Firetube.addCircles dxf layer cs r
  = (dxf ++ flat_map (hole_lines layer r) cs)%list.
Proof.
  induction cs as [|[x y] cs IH]; intros dxf layer r.
  - symmetry. apply app_nil_r.
  - cbn [Firetube.addCircles flat_map]. rewrite IH.
    unfold Firetube.addCircle, push. rewrite <- app_assoc. reflexivity.
Qed.

Lemma hole_groups layer r cs tail rt :
  records tail = Some rt -> starts_group rt ->
  exists rs,
    records (flat_map (hole_lines layer r) cs ++ tail) = Some rs
    /\ starts_group rs
    /\ groups rs = (map (hole_group layer r) cs ++ groups rt)%list.
Proof.
  intros Ht Hs. induction cs as [|c cs IH].
  - exists rt. auto.
  - destruct IH as (rs & Hr & Hg & Hgs).
    cbn [flat_map]. rewrite <- app_assoc.
    erewrite records_app by reflexivity. rewrite Hr.
    eexists. split; [reflexivity|]. split; [reflexivity|].
    cbn [app groups attributes String.eqb Ascii.eqb Bool.eqb map].
    rewrite (attributes_start rs Hg), Hgs. reflexivity.
Qed.

(** X21.  What [buildDXF] writes.  It throws when a long side is below its short
    side, of the OD or of the ID.  Otherwise, after the lines of its header
    and layer table, the lines pair up as code and value, and the entities
    they hold are, in this order: the obround of the OD on layer
    Perimeter, of two lines and two arcs; the obround of the ID on layer
    Holes; and one circle on layer Holes for every hole centre, with half
    of the hole diameter as its radius. *)
Theorem firetube_entities (i : Firetube.inputs) (holeCenters : list point) :
  if (Firetube.odLong i <? Firetube.odShort i)
     || (Firetube.idLong i <? Firetube.idShort i)
  then exists m, Firetube.buildDXF_lines i holeCenters = Throw m
  else
    exists rest rs,
      Firetube.buildDXF_lines i holeCenters = Return (firetube_preamble ++ rest)%list
      /\ records rest = Some rs
      /\ groups rs
         = (obround_groups "Perimeter" (Firetube.odLong i) (Firetube.odShort i)
            ++ obround_groups "Holes" (Firetube.idLong i) (Firetube.idShort i)
            ++ map (hole_group "Holes" (Firetube.holeDia i / num 2)) holeCenters
            ++ [ ("ENDSEC", []); ("EOF", []) ])%list.
Proof.
  unfold Firetube.buildDXF_lines, bind. cbv zeta.
  match goal with
  | |- context [Firetube.addObroundOutline ?d "Perimeter" _ _ _ _] =>
      change d with firetube_preamble
  end.
  unfold Firetube.addObroundOutline. cbv zeta.
  destruct (Firetube.odLong i <? Firetube.odShort i);
    [eexists; reflexivity|].
  destruct (Firetube.idLong i <? Firetube.idShort i);
    [eexists; reflexivity|].
  cbn [orb]. rewrite addCircles_flat.
  unfold Firetube.addLine, Firetube.addArc, push. rewrite <- !app_assoc.
  destruct (hole_groups "Holes" (Firetube.holeDia i / num 2) holeCenters
              ["0"; "ENDSEC"; "0"; "EOF"] [("0", "ENDSEC"); ("0", "EOF")]
              eq_refl eq_refl) as (rs & Hr & Hs & Hg).
  eexists. eexists. split; [reflexivity|].
  cbn [app]. cbn [records is_group_code]. 
  cbn [app] in Hr. rewrite Hr.
  split; [reflexivity|].
  cbn [groups attributes String.eqb Ascii.eqb Bool.eqb app].
  rewrite (attributes_start rs Hs), Hg. reflexivity.
Qed.

(** ** The cross section *)



(** ** The mandatory fields *)

(** The fields that must be filled, with their labels, in the order they
    are asked for: the two ID fields only when the cross section is
    blank. *)
Definition mandatory (f : Form) : list (string * string) :=
  (Firetube.REQUIRED_FIELDS
   ++ (if is_empty (trim (f "crossSection"))
       then [ ("idLong", "Long Side ID"); ("idShort", "Short Side ID") ]
       else []))%list.

(** [requireAllMandatory] writes nothing, and throws for the first blank
    field among the mandatory ones, naming it by its label; it returns
    when none of them is blank. *)
Lemma first_blank_is_required (f : Form) :
  Firetube.requireAllMandatory f
  = (match find (fun field => Firetube.isBlank f (fst field)) (mandatory f) with
     | Some field => Throw (snd field ++ " is required.")
     | None => Return tt
     end, f).
Proof.
  unfold Firetube.requireAllMandatory, mandatory, Firetube.REQUIRED_FIELDS,
    Firetube.crossSectionRaw, Firetube.requireFilled, dbind, value, ret, throw.
  cbn [Firetube.requireEach app find fst snd].
  unfold Firetube.requireFilled, dbind, ret, throw.
  destruct (Firetube.isBlank f "odLong"); [reflexivity|].
  destruct (Firetube.isBlank f "odShort"); [reflexivity|].
  destruct (Firetube.isBlank f "bcLong"); [reflexivity|].
  destruct (Firetube.isBlank f "bcShort"); [reflexivity|].
  destruct (Firetube.isBlank f "holeCount"); [reflexivity|].
  destruct (Firetube.isBlank f "holeDia"); [reflexivity|].
  destruct (is_empty (trim (f "crossSection"))); [|reflexivity].
  cbn [app find fst snd].
  destruct (Firetube.isBlank f "idLong"); [reflexivity|].
  destruct (Firetube.isBlank f "idShort"); reflexivity.
Qed.

(** ** The name of the saved file *)

Lemma rev_append_app s : forall acc, rev_append s acc = (reverse s ++ acc)%string.
Proof.
  unfold reverse. induction s as [|c s IH]; intro acc; [reflexivity|].
  cbn [rev_append]. rewrite IH, (IH (String c "")), append_assoc. reflexivity.
Qed.

Lemma reverse_cons c s : reverse (String c s) = (reverse s ++ String c "")%string.
Proof. unfold reverse at 1. cbn [rev_append]. apply rev_append_app. Qed.

Lemma reverse_app s t : reverse (s ++ t) = (reverse t ++ reverse s)%string.
Proof.
  induction s as [|c s IH].
  - cbn [append]. rewrite append_empty_r. reflexivity.
  - cbn [append]. rewrite !reverse_cons, IH, append_assoc. reflexivity.
Qed.

Lemma reverse_involutive s : reverse (reverse s) = s.
Proof.
  induction s as [|c s IH]; [reflexivity|].
  rewrite reverse_cons, reverse_app, IH. reflexivity.
Qed.

(** An ending [.dxf], in whatever case. *)
Definition dxf_ending (e : string) : Prop :=
  exists d x f,
    e = String "." (String d (String x (String f "")))
    /\ Firetube.lower d = "d"%char /\ Firetube.lower x = "x"%char
    /\ Firetube.lower f = "f"%char.

Lemma strip_dxf_ending stem e :
  dxf_ending e -> Firetube.strip_dxf (stem ++ e) = stem.
Proof.
  intros (d & x & f & -> & Hd & Hx & Hf). unfold Firetube.strip_dxf.
  rewrite reverse_app. cbn [reverse rev_append append].
  rewrite Hd, Hx, Hf. cbn [Ascii.eqb Bool.eqb andb].
  apply reverse_involutive.
Qed.

Lemma strip_dxf_cases s :
  Firetube.strip_dxf s = s
  \/ exists e, dxf_ending e /\ s = (Firetube.strip_dxf s ++ e)%string.
Proof.
  unfold Firetube.strip_dxf.
  destruct (reverse s) as [|f [|x [|d [|p r]]]] eqn:E; try (left; reflexivity).
  destruct (Ascii.eqb_spec p "."); [subst p | left; destruct p as [[] [] [] [] [] [] [] []]; try reflexivity; congruence].
  destruct (Ascii.eqb (Firetube.lower d) "d" && Ascii.eqb (Firetube.lower x) "x"
            && Ascii.eqb (Firetube.lower f) "f") eqn:Eb; [|left; reflexivity].
  right. apply andb_prop in Eb as [Eb Hf]. apply andb_prop in Eb as [Hd Hx].
  apply Ascii.eqb_eq in Hd, Hx, Hf.
  exists (String "." (String d (String x (String f "")))). split.
  - exists d, x, f. auto.
  - rewrite <- (reverse_involutive s), E.
    rewrite !reverse_cons, !append_assoc. reflexivity.
Qed.

(** X23.  The base of the file name is never empty, so a file is never saved as
    [.dxf] alone.  It is the trimmed CAD name when that has no [.dxf]
    ending, in whatever case; with such an ending it is the name without
    it, once; and it is [firetube_gasket] when nothing is left. *)
Theorem file_name_base (base : string) :
  let s := trim base in
  Firetube.sanitizeFilenameBase base <> ""
  /\ (forall stem e, s = (stem ++ e)%string -> dxf_ending e ->
        Firetube.sanitizeFilenameBase base
        = if is_empty stem then "firetube_gasket" else stem)
  /\ ((forall stem e, s = (stem ++ e)%string -> ~ dxf_ending e) ->
      Firetube.sanitizeFilenameBase base
      = if is_empty s then "firetube_gasket" else s).
Proof.
  intro s. unfold Firetube.sanitizeFilenameBase. cbv zeta. fold s.
  split; [|split].
  - destruct (Firetube.strip_dxf s); [discriminate | discriminate].
  - intros stem e -> He. rewrite (strip_dxf_ending stem e He). reflexivity.
  - intro Hno. destruct (strip_dxf_cases s) as [-> | (e & He & Hs)];
      [reflexivity|].
    destruct (Hno _ _ Hs He).
Qed.

(** ** The inputs that pass *)





(** ** The hole centres are finite points *)


Section HoleCentres.

Context {M : MathObject}.
Hypothesis Hfin : finite_math M.


End HoleCentres.


(** ** The properties at the example parts *)

(** An ellipse page with a CAD name typed and a validation passed. *)
Definition ellipse_valid : Ellipse.valid :=
  {| Ellipse.idL := Fin 4; Ellipse.idS := Fin 2; Ellipse.cs := Fin 1;
     Ellipse.odL := Fin 6; Ellipse.odS := Fin 4 |}.

Definition ellipse_page : Shared.page Ellipse.valid :=
  {| Shared.form := filled [ ("idLong", "4"); ("idShort", "2"); ("cs", "1");
                             ("filename", "ellipse") ];
     Shared.lastValid := Some ellipse_valid |}.

Lemma ellipse_drawing_witness :
  let lines := Ellipse.drawing_lines (M := Approx.RationalMath) ellipse_valid in
  Ellipse.downloadDXF (M := Approx.RationalMath) ellipse_page
  = Some (join LF lines)
  /\ count_named "POLYLINE" lines = Some 2%nat
  /\ count_on_layer "POLYLINE" "Perimeter" lines = Some 1%nat
  /\ count_on_layer "POLYLINE" "Holes" lines = Some 1%nat
  /\ count_on_layer "VERTEX" "Perimeter" lines = Some 280%nat
  /\ count_on_layer "VERTEX" "Holes" lines = Some 280%nat
  /\ count_named "SEQEND" lines = Some 2%nat
  /\ count_named "CIRCLE" lines = Some 0%nat.
Proof.
  apply (ellipse_drawing Approx.RationalMath ellipse_page ellipse_valid);
    reflexivity.
Defined.


(** A jumper page with a CAD name typed and a validation passed. *)
Definition jumper_valid : Jumper.valid :=
  {| Jumper.idDia := Fin 2; Jumper.boltDia := Fin (1 # 2); Jumper.cc := Fin 4;
     Jumper.boltEdgeToOD := Fin (1 # 2); Jumper.idEdgeToOD := Fin (1 # 2);
     Jumper.idR := Fin 1; Jumper.boltR := Fin (1 # 4);
     Jumper.RboltOuter := Fin (3 # 4); Jumper.RidOuter := Fin (3 # 2);
     Jumper.odPts := [ (Fin (-2), Fin (3 # 4)); (Fin 0, Fin (3 # 2));
                       (Fin 2, Fin (3 # 4)); (Fin 2, Fin (- (3 # 4)));
                       (Fin 0, Fin (- (3 # 2))); (Fin (-2), Fin (- (3 # 4))) ] |}.

Definition jumper_page : Shared.page Jumper.valid :=
  {| Shared.form := jumper_example; Shared.lastValid := Some jumper_valid |}.

Lemma jumper_drawing_witness :
  let lines := Jumper.drawing_lines jumper_valid in
  Jumper.downloadDXF jumper_page = Some (join LF lines)
  /\ exists rs,
       records lines = Some rs
       /\ entities (groups rs)
          = (polyline_group "Perimeter" true
             :: map (vertex_group "Perimeter") (Jumper.odPts jumper_valid)
             ++ [ ("SEQEND", []);
                  circle_group (num 0) (num 0) (Jumper.idR jumper_valid) "Holes";
                  circle_group (- Jumper.cc jumper_valid / num 2) (num 0)
                    (Jumper.boltR jumper_valid) "Holes";
                  circle_group (Jumper.cc jumper_valid / num 2) (num 0)
                    (Jumper.boltR jumper_valid) "Holes";
                  ("ENDSEC", []); ("EOF", []) ])%list.
Proof.
  apply (jumper_drawing jumper_page jumper_valid);
    reflexivity.
Defined.




Lemma chosenArc_choice_witness :
  let cx := num 0 in
  let cy := num 0 in
  let r := num 1 in
  let pStart : point := (num 1, num 0) in
  let pEnd : point := (num 0, num 1) in
  let wantFn := fun (_x y : number) => y >? num 0 in
  exists arc,
    Jumper.chosenArc (M := Approx.RationalMath) cx cy r pStart pEnd wantFn
    = Some arc
    /\ let a0 := Jumper.angleOf (M := Approx.RationalMath) cx cy
                   (fst pStart) (snd pStart) in
       let a1 := Jumper.angleOf (M := Approx.RationalMath) cx cy
                   (fst pEnd) (snd pEnd) in
       exists (arcCCW arcCW : list point) (midCCW midCW mid : point),
         Jumper.arcPoints (M := Approx.RationalMath) cx cy r a0 a1 true
           Jumper.maxSegLen = Some arcCCW
         /\ Jumper.arcPoints (M := Approx.RationalMath) cx cy r a0 a1 false
              Jumper.maxSegLen = Some arcCW
         /\ middle arcCCW = Some midCCW /\ middle arcCW = Some midCW
         /\ middle arc = Some mid
         /\ (arc = arcCCW \/ arc = arcCW)
         /\ wantFn (fst mid) (snd mid)
            = wantFn (fst midCCW) (snd midCCW) || wantFn (fst midCW) (snd midCW)
         /\ (wantFn (fst midCCW) (snd midCCW) = wantFn (fst midCW) (snd midCW) ->
             arc = if Nat.leb (List.length arcCCW) (List.length arcCW)
                   then arcCCW else arcCW).
Proof.
  intros cx cy r pStart pEnd wantFn.
  destruct (chosenArc_some rational_finite_math cx cy r pStart pEnd wantFn)
    as (arc & Harc & _);
    try (eexists; reflexivity); try (split; eexists; reflexivity).
  exists arc. split; [exact Harc|].
  exact (chosenArc_choice Approx.RationalMath cx cy r pStart pEnd wantFn arc Harc).
Defined.

Lemma jumper_validation_answers_witness :
  exists o,
    Jumper.validate (M := Approx.RationalMath) jumper_contained = Some o
    /\ match o with
       | Jumper.Errors es =>
           es <> []
           /\ (es = violated (jumper_number_checks jumper_contained)
               \/ es = violated (jumper_hole_checks jumper_contained)
               \/ es = [Jumper.CONTAINED])
       | Jumper.Passed _ => True
       end.
Proof.
  exact (jumper_validation_answers Approx.RationalMath jumper_contained
           rational_finite_math rational_hypot_axis).
Defined.


Definition flange_page : Shared.page Flange.valid :=
  {| Shared.form := flange_example; Shared.lastValid := Some flange_valid |}.

Lemma flange_drawing_witness :
  let v := flange_valid in
  let lines := Flange.drawing_lines (M := Approx.RationalMath) v in
  let odPts := Flange.roundedRectPoints (M := Approx.RationalMath)
                 (Flange.odX v) (Flange.odY v) (Flange.cornerR v) 24 in
  let hx := Flange.bhCCX v / num 2 in
  let hy := Flange.bhCCY v / num 2 in
  let r := Flange.bhDia v / num 2 in
  Flange.downloadDXF (M := Approx.RationalMath) flange_page
  = Some (join LF lines)
  /\ List.length odPts
     = (if Flange.clampRadius (Flange.cornerR v) (Flange.odX v) (Flange.odY v)
           === num 0
        then 4 else 100)%nat
  /\ exists rs,
       records lines = Some rs
       /\ entities (groups rs)
          = (polyline_group "Perimeter" true
             :: map (vertex_group "Perimeter") odPts
             ++ [ ("SEQEND", []);
                  circle_group (- hx) (- hy) r "Holes";
                  circle_group hx (- hy) r "Holes";
                  circle_group (- hx) hy r "Holes";
                  circle_group hx hy r "Holes" ]
             ++ (if String.eqb (Flange.cutoutType v) "circle" then
                   [ circle_group (num 0) (num 0) (Flange.cutoutDia v / num 2)
                       "Holes" ]
                 else
                   polyline_group "Holes" true
                   :: map (vertex_group "Holes")
                        (Flange.roundedRectPoints (M := Approx.RationalMath)
                           (Flange.cutoutX v) (Flange.cutoutY v)
                           (Flange.cutoutR v) 24)
                   ++ [ ("SEQEND", []) ])
             ++ [ ("ENDSEC", []); ("EOF", []) ])%list.
Proof.
  apply (flange_drawing Approx.RationalMath flange_page flange_valid);
    reflexivity.
Defined.



